(** * NFL data reconciliation scripts: a shallow embedding

    This development embeds four batch scripts of the repository

      - [scripts/player-data/normalize-player-games.py]  (module [Normalize])
      - [scripts/importers/import-nfl-spreads.py]        (module [Nflverse])
      - [scripts/importers/import-nfl-spreadspoke.py]    (module [Spreadspoke])
      - [scripts/fetch-cbbdata-ratings.py]               (module [Cbbdata])

    and states the properties of the join, of the line conversion, of the
    outcome formulas and of the weekly snapshots over it.

    Conventions of the embedding:

      - a JSON object is a Python [dict] from strings to scalars and is
        modelled as a [gmap string json]; [d.get(k)] is [get d k];
      - lookup tables ([dict] used as a map) are [gmap]s;
      - a Python [float] is modelled by the rational it denotes ([Q]);
        the sums and differences of floats are rounded to binary64 as
        Python rounds them, and may be infinite.  The feeds themselves
        carry no infinity and no NaN;
      - a Python [str] is a [string] of bytes; case mapping and white space
        are the ASCII ones;
      - a run-time exception ([TypeError], [KeyError], ...) is the [Raise]
        outcome of the [result] type; the scripts catch none of them except
        where written. *)

From Stdlib Require Import ZArith QArith Qround Qpower Qabs Lqa String Ascii.
From stdpp Require Import base option gmap strings list fin_maps pretty countable.
From stdpp Require sorting.

Open Scope string_scope.
Open Scope Z_scope.

(** ** Python values *)

Module Py.

(** Scalars found in the JSON feeds.  [JInt] and [JFloat] are kept apart
    because [str()] prints them differently. *)
Inductive json : Type :=
| JNull
| JBool (b : bool)
| JInt (z : Z)
| JFloat (q : Q)
| JStr (s : string).

Abbreviation dict := (gmap string json).

Inductive exn : Type :=
| TypeError | AttributeError | KeyError | ValueError
| OverflowError | ZeroDivisionError.

Inductive result (A : Type) : Type :=
| Ok (a : A)
| Raise (e : exn).
Arguments Ok {A} a.
Arguments Raise {A} e.

(** Sequencing: the first exception ends the computation.  With these
    instances [x ← r; k] reads as Python's statement order. *)
#[global] Instance result_ret : MRet result := fun A a => Ok a.
#[global] Instance result_bind : MBind result :=
  fun A B k r =>
    match r with
    | Ok a => k a
    | Raise e => Raise e
    end.

(** A [for] loop whose body may raise. *)
Fixpoint for_each {S A} (body : S -> A -> result S) (l : list A) (s : S)
  : result S :=
  match l with
  | [] => Ok s
  | a :: l' => s' ← body s a; for_each body l' s'
  end.

(** [d.get(k)] and [d.get(k, dflt)] *)
Definition get (d : dict) (k : string) : json := default JNull (d !! k).
Definition get_or (d : dict) (k : string) (dflt : json) : json :=
  default dflt (d !! k).

(** [d[k]] on a row of strings *)
Definition item (row : gmap string string) (k : string) : result string :=
  match row !! k with
  | Some v => Ok v
  | None => Raise KeyError
  end.

(** [d[k]] on a JSON object *)
Definition getitem (d : dict) (k : string) : result json :=
  match d !! k with
  | Some v => Ok v
  | None => Raise KeyError
  end.

(** [[a for a in l if p(a)]] where the condition may raise. *)
Fixpoint select {A} (p : A -> result bool) (l : list A) : result (list A) :=
  match l with
  | [] => Ok []
  | a :: l' =>
      b ← p a;
      rest ← select p l';
      Ok (if b : bool then a :: rest else rest)
  end.

(** Truth value of a scalar: [None], [False], zero and [""] are false. *)
Definition truthy (v : json) : bool :=
  match v with
  | JNull => false
  | JBool b => b
  | JInt z => negb (z =? 0)
  | JFloat q => negb (Qeq_bool q 0)
  | JStr s => negb (String.eqb s "")
  end.

Definition is_none (v : json) : bool :=
  match v with JNull => true | _ => false end.

(** Numeric value of [bool], [int] and [float]. *)
Definition to_num (v : json) : option Q :=
  match v with
  | JBool b => Some (inject_Z (if b then 1 else 0))
  | JInt z => Some (inject_Z z)
  | JFloat q => Some q
  | _ => None
  end.

(** The integer a number is equal to, if any ([18.0 == 18]). *)
Definition to_int (v : json) : option Z :=
  match v with
  | JBool b => Some (if b then 1 else 0)
  | JInt z => Some z
  | JFloat q => if (Zpos (Qden (Qred q)) =? 1) then Some (Qnum (Qred q)) else None
  | _ => None
  end.

(** [str(v)], as an f-string prints a value.  The digits Python prints for a
    [float] are not modelled: [float_repr] stands for them. *)
Definition str (float_repr : Q -> string) (v : json) : string :=
  match v with
  | JNull => "None"
  | JBool b => if b then "True" else "False"
  | JInt z => pretty z
  | JFloat q => float_repr q
  | JStr s => s
  end.

(** Truth value of a [dict]: only the empty one is false. *)
Definition dict_truthy (d : dict) : bool := negb (bool_decide (d = ∅)).

(** [table.get(v)] on a table keyed by strings. *)
Definition lookup_str {A} (table : gmap string A) (v : json) : option A :=
  match v with
  | JStr s => table !! s
  | _ => None
  end.

(** [s.lower()] where [s] was read from a JSON object. *)
Definition lower_of (lower : string -> string) (v : json) : result string :=
  match v with
  | JStr s => Ok (lower s)
  | _ => Raise AttributeError
  end.

(** [v == s] for a string [s] *)
Definition eq_str (v : json) (s : string) : bool :=
  match v with
  | JStr t => String.eqb t s
  | _ => false
  end.

(** Hashable keys: numbers that compare equal are the same key. *)
Inductive pykey : Type :=
| KNone
| KNum (n : Z) (d : positive)
| KStr (s : string).

Definition key_of (v : json) : pykey :=
  match v with
  | JNull => KNone
  | JBool b => KNum (if b then 1 else 0) 1
  | JInt z => KNum z 1
  | JFloat q => KNum (Qnum (Qred q)) (Qden (Qred q))
  | JStr s => KStr s
  end.

#[global] Instance pykey_eq_dec : EqDecision pykey.
Proof. solve_decision. Defined.

#[global] Instance pykey_countable : Countable pykey.
Proof.
  refine (inj_countable'
    (fun k => match k with
              | KNone => inl (inl tt)
              | KNum n d => inl (inr (n, d))
              | KStr s => inr s
              end)
    (fun x => match x with
              | inl (inl _) => KNone
              | inl (inr (n, d)) => KNum n d
              | inr s => KStr s
              end) _).
  intros []; reflexivity.
Defined.

Definition is_num_key (k : pykey) : bool :=
  match k with KNum _ _ => true | _ => false end.

Definition is_str_key (k : pykey) : bool :=
  match k with KStr _ => true | _ => false end.

(** [sorted(d.keys())] compares the keys, and raises [TypeError] when two
    of them do not compare: a number and a string, or [None] and anything.
    Numbers compare with numbers and strings with strings; one key alone
    is compared with nothing.  Only whether the sort raises is kept. *)
Definition sorted_keys {A} (d : gmap pykey A) : result unit :=
  let keys := (map_to_list d).*1 in
  if (length keys <=? 1)%nat || forallb is_num_key keys
     || forallb is_str_key keys
  then Ok tt else Raise TypeError.

(** ** Numbers

    [int] arithmetic is exact.  A [float] is a binary64 number: an
    operation with a [float] operand converts an [int] operand to [float]
    and rounds its result to the nearest binary64 value, ties to even.  A
    result too large for binary64 is an infinity; an [int] too large to
    convert raises [OverflowError]. *)

Definition as_int (v : json) : option Z :=
  match v with
  | JBool b => Some (if b then 1 else 0)
  | JInt z => Some z
  | _ => None
  end.

(** 2^e *)
Definition pow2 (e : Z) : Q := Qpower 2 e.

(** The [e] with [2^e <= a < 2^(e+1)], for a positive [a]. *)
Definition floor_log2 (a : Q) : Z :=
  let e0 := Z.log2 (Qnum a) - Z.log2 (Zpos (Qden a)) in
  if Qle_bool (pow2 e0) a then e0 else e0 - 1.

(** The nearest integer, the even one of two that are as near. *)
Definition round_half_even (q : Q) : Z :=
  let f := Qfloor q in
  match (q - inject_Z f ?= 1 # 2)%Q with
  | Lt => f
  | Gt => f + 1
  | Eq => if Z.even f then f else f + 1
  end.

(** A positive [a] rounded to 53 significant bits, or to a multiple of
    2^-1074 where it is too small for that. *)
Definition round_pos (a : Q) : Q :=
  let u := Z.max (floor_log2 a - 52) (-1074) in
  (inject_Z (round_half_even (a / pow2 u)) * pow2 u)%Q.

(** The values of the arithmetic on floats. *)
Inductive float : Type :=
| Finite (q : Q)
| FInf (negative : bool)
| FNaN.

(** The binary64 value nearest to [q]. *)
Definition round64 (q : Q) : float :=
  match Qnum q with
  | Z0 => Finite 0
  | Zpos _ =>
      let r := round_pos q in
      if Qle_bool (pow2 1024) r then FInf false else Finite r
  | Zneg _ =>
      let r := round_pos (- q) in
      if Qle_bool (pow2 1024) r then FInf true else Finite (- r)
  end.

Definition fneg (x : float) : float :=
  match x with
  | Finite q => Finite (- q)
  | FInf n => FInf (negb n)
  | FNaN => FNaN
  end.

Definition fadd (x y : float) : float :=
  match x, y with
  | FNaN, _ | _, FNaN => FNaN
  | FInf a, FInf b => if Bool.eqb a b then FInf a else FNaN
  | FInf a, Finite _ => FInf a
  | Finite _, FInf b => FInf b
  | Finite p, Finite q => round64 (p + q)
  end.

Definition fsub (x y : float) : float := fadd x (fneg y).

(** The value of an expression: a scalar as the JSON feeds have them, or
    one of the floats that they do not have. *)
Inductive value : Type :=
| Val (v : json)
| Inf (negative : bool)
| NaN.

(** An operand of an arithmetic operation. *)
Inductive number : Type :=
| Int (z : Z)
| Flt (x : float).

Definition number_of (v : value) : option number :=
  match v with
  | Val (JBool b) => Some (Int (if b then 1 else 0))
  | Val (JInt z) => Some (Int z)
  | Val (JFloat q) => Some (Flt (Finite q))
  | Val _ => None
  | Inf n => Some (Flt (FInf n))
  | NaN => Some (Flt FNaN)
  end.

Definition value_of (x : float) : value :=
  match x with
  | Finite q => Val (JFloat q)
  | FInf n => Inf n
  | FNaN => NaN
  end.

(** The conversion of an operand to [float]. *)
Definition to_float (n : number) : result float :=
  match n with
  | Int z =>
      match round64 (inject_Z z) with
      | FInf _ => Raise OverflowError
      | x => Ok x
      end
  | Flt x => Ok x
  end.

Definition arith (fz : Z -> Z -> Z) (ff : float -> float -> float)
    (a b : value) : result value :=
  match number_of a, number_of b with
  | Some (Int x), Some (Int y) => Ok (Val (JInt (fz x y)))
  | Some x, Some y =>
      x' ← to_float x;
      y' ← to_float y;
      Ok (value_of (ff x' y'))
  | _, _ => Raise TypeError
  end.

(** [a - b] *)
Definition sub (a b : value) : result value := arith Z.sub fsub a b.

(** [a + b]; on two strings it is concatenation. *)
Definition add (a b : value) : result value :=
  match a, b with
  | Val (JStr s), Val (JStr t) => Ok (Val (JStr (s ++ t)))
  | _, _ => arith Z.add fadd a b
  end.

(** [- a] *)
Definition neg (a : json) : result json :=
  match a with
  | JBool b => Ok (JInt (- (if b then 1 else 0)))
  | JInt z => Ok (JInt (- z))
  | JFloat q => Ok (JFloat (- q))
  | _ => Raise TypeError
  end.

Definition Qltb (x y : Q) : bool :=
  match (x ?= y)%Q with Lt => true | _ => false end.

(** [a < b]: numbers by value, strings by code point, otherwise [TypeError]. *)
Definition lt (a b : json) : result bool :=
  match a, b with
  | JStr s, JStr t =>
      Ok (match String.compare s t with Lt => true | _ => false end)
  | _, _ =>
      match to_num a, to_num b with
      | Some x, Some y => Ok (Qltb x y)
      | _, _ => Raise TypeError
      end
  end.

(** [a > b] *)
Definition gt (a b : json) : result bool := lt b a.

(** [a < b] on the values of expressions: an [int] and a [float] are
    compared exactly, an infinity is beyond every number, and nothing is
    below or above a NaN. *)
Definition lt_value (a b : value) : result bool :=
  match a, b with
  | Val x, Val y => lt x y
  | _, _ =>
      match number_of a, number_of b with
      | Some _, Some _ =>
          Ok match a, b with
             | Inf n, Inf m => n && negb m
             | Inf n, Val _ => n
             | Val _, Inf m => negb m
             | _, _ => false
             end
      | _, _ => Raise TypeError
      end
  end.

Definition gt_value (a b : value) : result bool := lt_value b a.

(** ** Strings *)

Definition lower_ascii (c : ascii) : ascii :=
  let n := nat_of_ascii c in
  if ((65 <=? n)%nat && (n <=? 90)%nat)%bool then ascii_of_nat (n + 32) else c.

(** [s.lower()] *)
Fixpoint lower (s : string) : string :=
  match s with
  | EmptyString => EmptyString
  | String c s' => String (lower_ascii c) (lower s')
  end.

(** [needle in hay] *)
Fixpoint contains (needle hay : string) : bool :=
  (String.prefix needle hay ||
   match hay with
   | EmptyString => false
   | String _ hay' => contains needle hay'
   end)%bool.

Definition is_space (c : ascii) : bool :=
  let n := nat_of_ascii c in
  (((9 <=? n)%nat && (n <=? 13)%nat) || ((28 <=? n)%nat && (n <=? 32)%nat))%bool.

Fixpoint lstrip (s : string) : string :=
  match s with
  | String c s' => if is_space c then lstrip s' else s
  | EmptyString => EmptyString
  end.

(** Drops the trailing white space: a space is kept only when something
    that is kept follows it. *)
Fixpoint rstrip (s : string) : string :=
  match s with
  | EmptyString => EmptyString
  | String c s' =>
      match rstrip s' with
      | EmptyString => if is_space c then EmptyString else String c EmptyString
      | r => String c r
      end
  end.

(** [s.strip()] *)
Definition strip (s : string) : string := rstrip (lstrip s).

End Py.

(** ** scripts/player-data/normalize-player-games.py *)

Module Normalize.
Import Py.

Definition TEAM_ABBREV_MAP : gmap string string :=
  list_to_map
    [ ("ARI", "Arizona Cardinals"); ("ATL", "Atlanta Falcons");
      ("BAL", "Baltimore Ravens"); ("BUF", "Buffalo Bills");
      ("CAR", "Carolina Panthers"); ("CHI", "Chicago Bears");
      ("CIN", "Cincinnati Bengals"); ("CLE", "Cleveland Browns");
      ("DAL", "Dallas Cowboys"); ("DEN", "Denver Broncos");
      ("DET", "Detroit Lions"); ("GB", "Green Bay Packers");
      ("HOU", "Houston Texans"); ("IND", "Indianapolis Colts");
      ("JAX", "Jacksonville Jaguars"); ("KC", "Kansas City Chiefs");
      ("LA", "Los Angeles Rams"); ("LAC", "Los Angeles Chargers");
      ("LAR", "Los Angeles Rams"); ("LV", "Las Vegas Raiders");
      ("MIA", "Miami Dolphins"); ("MIN", "Minnesota Vikings");
      ("NE", "New England Patriots"); ("NO", "New Orleans Saints");
      ("NYG", "New York Giants"); ("NYJ", "New York Jets");
      ("PHI", "Philadelphia Eagles"); ("PIT", "Pittsburgh Steelers");
      ("SEA", "Seattle Seahawks"); ("SF", "San Francisco 49ers");
      ("TB", "Tampa Bay Buccaneers"); ("TEN", "Tennessee Titans");
      ("WAS", "Washington Commanders");
      ("OAK", "Las Vegas Raiders"); ("SD", "Los Angeles Chargers");
      ("STL", "Los Angeles Rams") ].

Definition PLAYOFF_WEEK_MAP : gmap Z string :=
  list_to_map
    [ (18, "WildCard"); (19, "Division"); (20, "ConfChamp");
      (21, "SuperBowl"); (22, "SuperBowl") ].

Definition KEEP_STATS : list string :=
  [ "player_id"; "player_name"; "player_display_name";
    "position"; "position_group"; "season"; "week"; "season_type";
    "team"; "opponent_team";
    "completions"; "attempts"; "passing_yards"; "passing_tds";
    "passing_interceptions"; "sacks_suffered"; "sack_yards_lost";
    "passing_air_yards"; "passing_yards_after_catch";
    "passing_first_downs"; "passing_epa"; "passing_cpoe"; "pacr";
    "passing_2pt_conversions";
    "carries"; "rushing_yards"; "rushing_tds";
    "rushing_fumbles"; "rushing_fumbles_lost";
    "rushing_first_downs"; "rushing_epa"; "rushing_2pt_conversions";
    "targets"; "receptions"; "receiving_yards"; "receiving_tds";
    "receiving_fumbles"; "receiving_fumbles_lost";
    "receiving_air_yards"; "receiving_yards_after_catch";
    "receiving_first_downs"; "receiving_epa";
    "racr"; "target_share"; "air_yards_share"; "wopr";
    "receiving_2pt_conversions";
    "def_tackles_solo"; "def_tackles_with_assist";
    "def_tackles_for_loss"; "def_fumbles_forced";
    "def_sacks"; "def_qb_hits"; "def_interceptions";
    "def_interception_yards"; "def_pass_defended"; "def_tds";
    "special_teams_tds";
    "fg_made"; "fg_att"; "fg_long"; "fg_pct";
    "pat_made"; "pat_att";
    "fantasy_points"; "fantasy_points_ppr" ].

(** [{k: row.get(k) for k in KEEP_STATS}] *)
Definition trim_stat_row (row : dict) : dict :=
  foldl (fun acc k => <[k := get row k]> acc) ∅ KEEP_STATS.

(** The loop of [main] keeps four variables. *)
Record state : Type := State {
  results : list dict;
  matched : nat;
  unmatched : nat;
  unmatched_examples : list string
}.

Definition init : state := State [] 0 0 [].

(** [unmatched += 1; continue] *)
Definition skip_unmatched (st : state) : state :=
  State (results st) (matched st) (S (unmatched st)) (unmatched_examples st).

Section WithRepr.

Variable float_repr : Q -> string.

Abbreviation str := (Py.str float_repr).

(** [meta_by_id]: metadata rows by [gsis_id]. *)
Definition index_metadata (metadata : list dict) : gmap pykey dict :=
  foldl (fun idx m =>
           let gsis_id := get m "gsis_id" in
           if truthy gsis_id then <[key_of gsis_id := m]> idx else idx)
        ∅ metadata.

(** [snap_by_key]: snap rows by ["{gsis_id}-{season}-{week}"]. *)
Definition index_snaps (snaps : list dict) : gmap string dict :=
  foldl (fun idx s =>
           let gsis_id := get s "gsis_id" in
           let season := get s "season" in
           let week := get s "week" in
           if truthy gsis_id && negb (is_none season) && negb (is_none week)
           then <[str gsis_id ++ "-" ++ str season ++ "-" ++ str week := s]> idx
           else idx)
        ∅ snaps.

(** One game enters [game_by_key] under its home key and its away key.
    (The script also fills [game_by_date_team], which it never reads.) *)
Definition index_game (idx : gmap string dict) (g : dict) : gmap string dict :=
  let season := get g "season" in
  let week := get g "week" in
  let home := get g "homeTeamCanonical" in
  let away := get g "awayTeamCanonical" in
  if negb (truthy season) || negb (truthy home) || negb (truthy away) then idx
  else
    let key_home := str season ++ "-" ++ str week ++ "-" ++ str home in
    let key_away := str season ++ "-" ++ str week ++ "-" ++ str away in
    <[key_away := g]> (<[key_home := g]> idx).

Definition index_games (games : list dict) : gmap string dict :=
  foldl index_game ∅ games.

(** The week part of the join key. *)
Definition week_key (season_type week : json) : string :=
  if eq_str season_type "POST"
  then default (str week) (to_int week ≫= fun w => PLAYOFF_WEEK_MAP !! w)
  else str week.

(** [TEAM_ABBREV_MAP.get(opp_abbrev, opp_abbrev)] *)
Definition opponent_canonical (opp_abbrev : json) : json :=
  match lookup_str TEAM_ABBREV_MAP opp_abbrev with
  | Some name => JStr name
  | None => opp_abbrev
  end.

Definition game_key (season : json) (week_str : string) (team : string)
  : string :=
  str season ++ "-" ++ week_str ++ "-" ++ team.

Definition game_key_opp (season : json) (week_str : string) (opp : json)
  : string :=
  str season ++ "-" ++ week_str ++ "-" ++ str opp.

(** An absent game and an empty game object are both false. *)
Definition game_truthy (game : option dict) : bool :=
  match game with
  | Some g => dict_truthy g
  | None => false
  end.

(** Primary key first, the opponent's key when it misses. *)
Definition find_game (game_by_key : gmap string dict)
    (season : json) (week_str : string) (team_canonical : string)
    (opp_canonical : json) : option dict :=
  let game := game_by_key !! game_key season week_str team_canonical in
  if game_truthy game then game
  else game_by_key !! game_key_opp season week_str opp_canonical.

(** [is_home]: by equality of names, then by containment of the lowered
    names. *)
Definition home_or_away (team_canonical : string) (game : option dict)
  : result (option bool) :=
  match game with
  | Some g =>
      if dict_truthy g then
        let home_team := get_or g "homeTeamCanonical" (JStr "") in
        let away_team := get_or g "awayTeamCanonical" (JStr "") in
        if eq_str home_team team_canonical then Ok (Some true)
        else if eq_str away_team team_canonical then Ok (Some false)
        else
          h ← lower_of lower home_team;
          if contains (lower team_canonical) h then Ok (Some true)
          else
            a ← lower_of lower away_team;
            if contains (lower team_canonical) a then Ok (Some false)
            else Ok None
      else Ok None
  | None => Ok None
  end.

(** Player metadata, canonical team names and snap counts. *)
Definition with_player_context (meta_by_id : gmap pykey dict)
    (snap_by_key : gmap string dict) (stat : dict)
    (team_canonical : string) (opp_canonical : json) (trimmed : dict) : dict :=
  let player_id := get stat "player_id" in
  let season := get stat "season" in
  let week := get stat "week" in
  let meta := default ∅ (meta_by_id !! key_of player_id) in
  let trimmed := <["birthDate" := get meta "birth_date"]> trimmed in
  let trimmed := <["college" := get meta "college"]> trimmed in
  let trimmed := <["draftYear" := get meta "entry_year"]> trimmed in
  let trimmed := <["draftRound" := JNull]> trimmed in
  let trimmed := <["draftPick" := get meta "draft_number"]> trimmed in
  let trimmed := <["yearsExp" := get meta "years_exp"]> trimmed in
  let trimmed := <["jerseyNumber" := get meta "jersey_number"]> trimmed in
  let trimmed := <["teamCanonical" := JStr team_canonical]> trimmed in
  let trimmed := <["opponentCanonical" := opp_canonical]> trimmed in
  let snap_key := str player_id ++ "-" ++ str season ++ "-" ++ str week in
  let snap := default ∅ (snap_by_key !! snap_key) in
  let trimmed := <["offensiveSnaps" := get snap "offense_snaps"]> trimmed in
  let trimmed := <["offensiveSnapPct" := get snap "offense_pct"]> trimmed in
  let trimmed := <["defensiveSnaps" := get snap "defense_snaps"]> trimmed in
  let trimmed := <["defensiveSnapPct" := get snap "defense_pct"]> trimmed in
  let trimmed := <["stSnaps" := get snap "st_snaps"]> trimmed in
  let trimmed := <["stSnapPct" := get snap "st_pct"]> trimmed in
  trimmed.

(** ["W"], ["L"], ["T"] or [None] from the two scores. *)
Definition game_result (ts os_ : json) : result json :=
  if negb (is_none ts) && negb (is_none os_) then
    gt ts os_ ≫= fun won : bool =>
    if won then Ok (JStr "W")
    else
      lt ts os_ ≫= fun lost : bool =>
      if lost then Ok (JStr "L") else Ok (JStr "T")
  else Ok JNull.

(** The spread seen from the player's team. *)
Definition team_spread (raw_spread : json) (is_home : bool) : result json :=
  if negb (is_none raw_spread) then
    if is_home then Ok raw_spread else neg raw_spread
  else Ok JNull.

(** The branch [if game and is_home is not None]. *)
Definition with_game_context (game : dict) (is_home : bool) (trimmed : dict)
  : result dict :=
  let trimmed := <["gameDate" := get game "gameDate"]> trimmed in
  let trimmed := <["dayOfWeek" := get game "dayOfWeek"]> trimmed in
  let trimmed := <["isHome" := JBool is_home]> trimmed in
  let trimmed :=
    if is_home
    then <["opponentScore" := get game "awayScore"]>
           (<["teamScore" := get game "homeScore"]> trimmed)
    else <["opponentScore" := get game "homeScore"]>
           (<["teamScore" := get game "awayScore"]> trimmed) in
  let ts := get trimmed "teamScore" in
  let os_ := get trimmed "opponentScore" in
  r ← game_result ts os_;
  let trimmed := <["gameResult" := r]> trimmed in
  let raw_spread := get game "spread" in
  sp ← team_spread raw_spread is_home;
  let trimmed := <["spread" := sp]> trimmed in
  let trimmed := <["overUnder" := get game "overUnder"]> trimmed in
  let trimmed := <["spreadResult" := get game "spreadResult"]> trimmed in
  let trimmed := <["ouResult" := get game "ouResult"]> trimmed in
  let trimmed := <["isPlayoff" := get_or game "isPlayoff" (JBool false)]> trimmed in
  let trimmed := <["isPrimetime" := get_or game "isPrimetime" (JBool false)]> trimmed in
  let trimmed := <["primetimeSlot" := get game "primetimeSlot"]> trimmed in
  let trimmed := <["isNeutralSite" := get_or game "isNeutralSite" (JBool false)]> trimmed in
  let trimmed := <["temperature" := get game "temperature"]> trimmed in
  let trimmed := <["windMph" := get game "windMph"]> trimmed in
  let trimmed := <["weatherCategory" := get game "weatherCategory"]> trimmed in
  let trimmed :=
    if is_home
    then <["isByeWeek" := get game "homeIsByeWeek"]>
           (<["restDays" := get game "homeRestDays"]> trimmed)
    else <["isByeWeek" := get game "awayIsByeWeek"]>
           (<["restDays" := get game "awayRestDays"]> trimmed) in
  Ok trimmed.

(** The [else] branch: the row is kept, without game context. *)
Definition without_game_context (season_type : json) (trimmed : dict) : dict :=
  let trimmed := <["gameDate" := JNull]> trimmed in
  let trimmed := <["dayOfWeek" := JNull]> trimmed in
  let trimmed := <["isHome" := JNull]> trimmed in
  let trimmed := <["teamScore" := JNull]> trimmed in
  let trimmed := <["opponentScore" := JNull]> trimmed in
  let trimmed := <["gameResult" := JNull]> trimmed in
  let trimmed := <["spread" := JNull]> trimmed in
  let trimmed := <["overUnder" := JNull]> trimmed in
  let trimmed := <["spreadResult" := JNull]> trimmed in
  let trimmed := <["ouResult" := JNull]> trimmed in
  let trimmed := <["isPlayoff" := JBool (eq_str season_type "POST")]> trimmed in
  let trimmed := <["isPrimetime" := JNull]> trimmed in
  let trimmed := <["primetimeSlot" := JNull]> trimmed in
  let trimmed := <["isNeutralSite" := JNull]> trimmed in
  let trimmed := <["temperature" := JNull]> trimmed in
  let trimmed := <["windMph" := JNull]> trimmed in
  let trimmed := <["weatherCategory" := JNull]> trimmed in
  let trimmed := <["restDays" := JNull]> trimmed in
  let trimmed := <["isByeWeek" := JNull]> trimmed in
  trimmed.

(** The line kept for an unmatched row. *)
Definition unmatched_example (stat : dict) : string :=
  "  " ++ str (get stat "player_display_name")
  ++ " (" ++ str (get stat "team") ++ ") "
  ++ "season=" ++ str (get stat "season")
  ++ " week=" ++ str (get stat "week")
  ++ " type=" ++ str (get stat "season_type").

(** The first guard: [not player_id or not season or week is None or
    not team_abbrev]. *)
Definition missing_identity (stat : dict) : bool :=
  negb (truthy (get stat "player_id"))
  || negb (truthy (get stat "season"))
  || is_none (get stat "week")
  || negb (truthy (get stat "team")).

(** The second guard: [team_canonical], unless it is [None] or empty. *)
Definition team_canonical_of (stat : dict) : option string :=
  match lookup_str TEAM_ABBREV_MAP (get stat "team") with
  | Some name => if String.eqb name "" then None else Some name
  | None => None
  end.

(** One iteration of the loop over [stats]. *)
Definition step (meta_by_id : gmap pykey dict)
    (snap_by_key game_by_key : gmap string dict)
    (st : state) (stat : dict) : result state :=
  let player_id := get stat "player_id" in
  let season := get stat "season" in
  let week := get stat "week" in
  let season_type := get stat "season_type" in
  let team_abbrev := get stat "team" in
  let opp_abbrev := get stat "opponent_team" in
  if missing_identity stat then Ok (skip_unmatched st)
  else
    let opp_canonical := opponent_canonical opp_abbrev in
    match team_canonical_of stat with
    | None => Ok (skip_unmatched st)
    | Some team_canonical =>
        let week_str := week_key season_type week in
        let game :=
          find_game game_by_key season week_str team_canonical opp_canonical in
        is_home ← home_or_away team_canonical game;
        let trimmed := trim_stat_row stat in
        let trimmed :=
          with_player_context meta_by_id snap_by_key stat
            team_canonical opp_canonical trimmed in
        match game, is_home with
        | Some g, Some b =>
            if dict_truthy g then
              trimmed ← with_game_context g b trimmed;
              Ok (State (results st ++ [trimmed]) (S (matched st))
                        (unmatched st) (unmatched_examples st))
            else
              Ok (State (results st ++ [without_game_context season_type trimmed])
                        (matched st) (S (unmatched st))
                        (if (length (unmatched_examples st) <? 10)%nat
                         then unmatched_examples st ++ [unmatched_example stat]
                         else unmatched_examples st))
        | _, _ =>
            Ok (State (results st ++ [without_game_context season_type trimmed])
                      (matched st) (S (unmatched st))
                      (if (length (unmatched_examples st) <? 10)%nat
                       then unmatched_examples st ++ [unmatched_example stat]
                       else unmatched_examples st))
        end
    end.

(** [main], from the loaded feeds to the final loop state. *)
Definition main (stats metadata snaps games : list dict) : result state :=
  let meta_by_id := index_metadata metadata in
  let snap_by_key := index_snaps snaps in
  let game_by_key := index_games games in
  for_each (step meta_by_id snap_by_key game_by_key) stats init.

End WithRepr.

End Normalize.

(** ** scripts/importers/import-nfl-spreads.py *)

Module Nflverse.
Import Py.

Definition TEAM_ABBREV_MAP : gmap string string :=
  list_to_map
    [ ("ARI", "Arizona Cardinals"); ("ATL", "Atlanta Falcons");
      ("BAL", "Baltimore Ravens"); ("BUF", "Buffalo Bills");
      ("CAR", "Carolina Panthers"); ("CHI", "Chicago Bears");
      ("CIN", "Cincinnati Bengals"); ("CLE", "Cleveland Browns");
      ("DAL", "Dallas Cowboys"); ("DEN", "Denver Broncos");
      ("DET", "Detroit Lions"); ("GB", "Green Bay Packers");
      ("HOU", "Houston Texans"); ("IND", "Indianapolis Colts");
      ("JAX", "Jacksonville Jaguars"); ("KC", "Kansas City Chiefs");
      ("LA", "Los Angeles Rams"); ("LAC", "Los Angeles Chargers");
      ("LAR", "Los Angeles Rams"); ("LV", "Las Vegas Raiders");
      ("MIA", "Miami Dolphins"); ("MIN", "Minnesota Vikings");
      ("NE", "New England Patriots"); ("NO", "New Orleans Saints");
      ("NYG", "New York Giants"); ("NYJ", "New York Jets");
      ("PHI", "Philadelphia Eagles"); ("PIT", "Pittsburgh Steelers");
      ("SEA", "Seattle Seahawks"); ("SF", "San Francisco 49ers");
      ("TB", "Tampa Bay Buccaneers"); ("TEN", "Tennessee Titans");
      ("WAS", "Washington Commanders");
      ("OAK", "Las Vegas Raiders"); ("SD", "Los Angeles Chargers");
      ("STL", "Los Angeles Rams") ].

Definition GAME_TYPE_MAP : gmap string string :=
  list_to_map
    [ ("WC", "WildCard"); ("DIV", "Division");
      ("CON", "ConfChamp"); ("SB", "SuperBowl") ].

(** margin = (homeScore - awayScore) + spread *)
Definition calculate_spread_result (home_score away_score spread : json)
  : result json :=
  if is_none spread || is_none home_score || is_none away_score then Ok JNull
  else
    diff ← sub (Val home_score) (Val away_score);
    margin ← add diff (Val spread);
    gt_value margin (Val (JInt 0)) ≫= fun covered : bool =>
    if covered then Ok (JStr "COVERED")
    else
      lt_value margin (Val (JInt 0)) ≫= fun lost : bool =>
      if lost then Ok (JStr "LOST") else Ok (JStr "PUSH").

Definition calculate_ou_result (home_score away_score over_under : json)
  : result json :=
  if is_none over_under || is_none home_score || is_none away_score then Ok JNull
  else
    total ← add (Val home_score) (Val away_score);
    gt_value total (Val over_under) ≫= fun over : bool =>
    if over then Ok (JStr "OVER")
    else
      lt_value total (Val over_under) ≫= fun under : bool =>
      if under then Ok (JStr "UNDER") else Ok (JStr "PUSH").

(** A row of the schedule frame, with the columns the script reads. *)
Record sched_row : Type := SchedRow {
  season : json;
  game_type : json;
  week : json;
  home_team : json;
  spread_line : json;
  total_line : json
}.

(** The value stored in [nflverse_index]. *)
Record entry : Type := Entry {
  entry_spread_line : json;
  entry_total_line : json
}.

Abbreviation index := (gmap (pykey * string * string) entry).

Section WithRepr.

Variable float_repr : Q -> string.

Abbreviation str := (Py.str float_repr).

(** One schedule row enters the index under (season, week_str, home). *)
Definition index_row (nflverse_index : index) (row : sched_row) : index :=
  match lookup_str TEAM_ABBREV_MAP (home_team row) with
  | None => nflverse_index
  | Some home_canonical =>
      if String.eqb home_canonical "" then nflverse_index
      else
        let week_str :=
          if eq_str (game_type row) "REG" then Some (str (week row))
          else lookup_str GAME_TYPE_MAP (game_type row) in
        match week_str with
        | None => nflverse_index
        | Some week_str =>
            <[(key_of (season row), week_str, home_canonical) :=
                Entry (spread_line row) (total_line row)]> nflverse_index
        end
  end.

Definition build_index (sched : list sched_row) : index :=
  foldl index_row ∅ sched.

(** The variables of the fill loop; [games] collects the game objects in
    order, each as the loop leaves it. *)
Record fill_state : Type := FillState {
  games : list dict;
  filled : nat;
  not_found : nat;
  already_has : nat;
  by_season : gmap pykey nat
}.

Definition fill_init : fill_state := FillState [] 0 0 0 ∅.

(** [nflverse_index.get((season, week, home))] *)
Definition index_get (nflverse_index : index) (season : json) (week : string)
    (home : json) : option entry :=
  match home with
  | JStr h => nflverse_index !! (key_of season, week, h)
  | _ => None
  end.

(** How an iteration of the fill loop ends. *)
Inductive outcome : Type :=
| AlreadyHas   (* the game has a spread: [already_has += 1; continue] *)
| Skipped      (* season, week or home missing: [continue] *)
| Filled       (* the four assignments: [filled += 1] *)
| NotFound.    (* no usable index entry: [not_found += 1] *)

(** The body of the fill loop on one game object: the object as the
    iteration leaves it, and how the iteration ended. *)
Definition fill_game (nflverse_index : index) (game : dict)
  : result (dict * outcome) :=
  if negb (is_none (get game "spread")) then Ok (game, AlreadyHas)
  else
    let season := get game "season" in
    let week := str (get_or game "week" (JStr "")) in
    let home := get_or game "homeTeamCanonical" (JStr "") in
    if negb (truthy season) || String.eqb week "" || negb (truthy home)
    then Ok (game, Skipped)
    else
      match index_get nflverse_index season week home with
      | Some m =>
          if negb (is_none (entry_spread_line m)) then
            let game := <["spread" := entry_spread_line m]> game in
            let game := <["overUnder" := entry_total_line m]> game in
            sr ← calculate_spread_result
                   (get game "homeScore") (get game "awayScore")
                   (entry_spread_line m);
            let game := <["spreadResult" := sr]> game in
            our ← calculate_ou_result
                    (get game "homeScore") (get game "awayScore")
                    (entry_total_line m);
            let game := <["ouResult" := our]> game in
            Ok (game, Filled)
          else Ok (game, NotFound)
      | None => Ok (game, NotFound)
      end.

(** The counters after an iteration that ended with [o]. *)
Definition count (st : fill_state) (game : dict) (o : outcome) (season : json)
  : fill_state :=
  match o with
  | AlreadyHas =>
      FillState (games st ++ [game]) (filled st) (not_found st)
                (S (already_has st)) (by_season st)
  | Skipped =>
      FillState (games st ++ [game]) (filled st) (not_found st)
                (already_has st) (by_season st)
  | Filled =>
      FillState (games st ++ [game]) (S (filled st)) (not_found st)
                (already_has st)
                (<[key_of season :=
                     S (default 0%nat (by_season st !! key_of season))]>
                   (by_season st))
  | NotFound =>
      FillState (games st ++ [game]) (filled st) (S (not_found st))
                (already_has st) (by_season st)
  end.

Definition fill_step (nflverse_index : index) (st : fill_state) (game : dict)
  : result fill_state :=
  fill_game nflverse_index game ≫= fun r : dict * outcome =>
  Ok (count st (fst r) (snd r) (get game "season")).

(** The first part of [main]: index the schedule, then fill the games. *)
Definition fill_games (games : list dict) (sched : list sched_row)
  : result fill_state :=
  for_each (fill_step (build_index sched)) games fill_init.

(** The coverage line divides by the number of games. *)
Definition coverage (games : list dict) : result unit :=
  match games with
  | [] => Raise ZeroDivisionError
  | _ :: _ => Ok tt
  end.

(** The line printed for one game of the spot check reads five of its
    keys. *)
Definition spot_line (g : dict) : result unit :=
  _ ← getitem g "gameDate";
  _ ← getitem g "awayTeamCanonical";
  _ ← getitem g "homeTeamCanonical";
  _ ← getitem g "spread";
  _ ← getitem g "overUnder";
  Ok tt.

(** The spot check shows the first three games of 2025 that have a
    spread. *)
Definition spot_check (games : list dict) : result unit :=
  let filled_games :=
    filter (fun g => key_of (get g "season") = KNum 2025 1 /\
                     is_none (get g "spread") = false) games in
  for_each (fun _ g => spot_line g) (take 3 filled_games) tt.

(** The summary printed after the loop.  What is printed is not kept, only
    whether printing raises: the coverage, the seasons in order when any
    game was filled, and the spot check. *)
Definition summary (st : fill_state) : result unit :=
  _ ← coverage (games st);
  _ ← (if bool_decide (by_season st = ∅) then Ok tt
       else sorted_keys (by_season st));
  spot_check (games st).

(** [main], from the loaded feeds to the state that is written back. *)
Definition main (games : list dict) (sched : list sched_row)
  : result fill_state :=
  st ← fill_games games sched;
  _ ← summary st;
  Ok st.

End WithRepr.

End Nflverse.

(** ** Reading numbers and dates

    The Spreadspoke importer reads its CSV cells with Python's [int],
    [float] and [datetime.strptime], and f-strings print a [float] with
    [repr].  The embedding takes the four as parameters; the functions
    below are the plain cases of them (decimal numerals with an optional
    sign, dates written month/day/year, short decimals) and are what the
    examples run with. *)

Module Parse.

Definition digit (c : ascii) : option Z :=
  let n := nat_of_ascii c in
  if ((48 <=? n)%nat && (n <=? 57)%nat)%bool then Some (Z.of_nat (n - 48))
  else None.

(** The value of a non-empty run of digits. *)
Fixpoint digits_from (acc : Z) (s : string) : option Z :=
  match s with
  | EmptyString => Some acc
  | String c s' =>
      match digit c with
      | Some d => digits_from (10 * acc + d) s'
      | None => None
      end
  end.

Definition digits (s : string) : option Z :=
  match s with
  | EmptyString => None
  | _ => digits_from 0 s
  end.

(** The text before the first [sep], and the text after it. *)
Fixpoint split_at (sep : ascii) (s : string) : string * option string :=
  match s with
  | EmptyString => (EmptyString, None)
  | String c s' =>
      if Ascii.eqb c sep then (EmptyString, Some s')
      else let '(a, b) := split_at sep s' in (String c a, b)
  end.

Definition signed {A} (read : string -> option A) (negate : A -> A)
    (s : string) : option A :=
  match s with
  | String "-" s' => negate <$> read s'
  | String "+" s' => read s'
  | _ => read s
  end.

(** [int(s)] on a decimal numeral. *)
Definition decimal_int (s : string) : option Z :=
  signed digits Z.opp s.

Definition unsigned_float (s : string) : option Q :=
  match split_at "." s with
  | (whole, None) => inject_Z <$> digits whole
  | (whole, Some frac) =>
      match digits whole, digits frac with
      | Some w, Some f =>
          Some (inject_Z w + (f # Pos.pow 10 (Pos.of_nat (String.length frac))))%Q
      | _, _ => None
      end
  end.

(** [float(s)] on a decimal numeral. *)
Definition decimal_float (s : string) : option Q :=
  signed unsigned_float Qopp s.

Definition leap (y : Z) : bool :=
  ((y mod 4 =? 0) && negb (y mod 100 =? 0)) || (y mod 400 =? 0).

Definition days_in_month (y m : Z) : Z :=
  if m =? 2 then (if leap y then 29 else 28)
  else if (m =? 4) || (m =? 6) || (m =? 9) || (m =? 11) then 30
  else 31.

Definition two (n : Z) : string :=
  if n <? 10 then "0" ++ pretty n else pretty n.

(** [datetime.strptime(s, "%m/%d/%Y").strftime("%Y-%m-%d")]; [None] is
    the [ValueError] of [strptime]. *)
Definition mdY_to_iso (s : string) : option string :=
  match split_at "/" s with
  | (mm, Some rest) =>
      match split_at "/" rest with
      | (dd, Some yyyy) =>
          match digits mm, digits dd, digits yyyy with
          | Some m, Some d, Some y =>
              if ((String.length mm <=? 2)%nat && (String.length dd <=? 2)%nat
                  && (String.length yyyy =? 4)%nat
                  && (1 <=? m) && (m <=? 12) && (1 <=? d)
                  && (d <=? days_in_month y m) && (1 <=? y))%bool
              then Some (yyyy ++ "-" ++ two m ++ "-" ++ two d)
              else None
          | _, _, _ => None
          end
      | _ => None
      end
  | _ => None
  end.

(** The digits of [n / d] after the point, at most [fuel] of them, without
    trailing zeros. *)
Fixpoint fraction_digits (fuel : nat) (n d : Z) : string :=
  match fuel with
  | O => ""
  | S fuel' =>
      if n =? 0 then ""
      else pretty (10 * n / d) ++ fraction_digits fuel' (10 * n mod d) d
  end.

(** [repr(x)] of a [float] that is a short decimal: ["3.5"], ["-2.5"],
    ["44.0"]. *)
Definition decimal_repr (q : Q) : string :=
  let n := Qnum q in
  let d := Zpos (Qden q) in
  let a := Z.abs n in
  let frac := fraction_digits 17 (a mod d) d in
  (if n <? 0 then "-" else "") ++ pretty (a / d) ++ "."
  ++ (if String.eqb frac "" then "0" else frac).

End Parse.

(** ** scripts/importers/import-nfl-spreadspoke.py *)

Module Spreadspoke.
Import Py.

Definition SPREADSPOKE_ABBREV_MAP : gmap string string :=
  list_to_map
    [ ("ARI", "Arizona Cardinals"); ("ATL", "Atlanta Falcons");
      ("BAL", "Baltimore Ravens"); ("BUF", "Buffalo Bills");
      ("CAR", "Carolina Panthers"); ("CHI", "Chicago Bears");
      ("CIN", "Cincinnati Bengals"); ("CLE", "Cleveland Browns");
      ("DAL", "Dallas Cowboys"); ("DEN", "Denver Broncos");
      ("DET", "Detroit Lions"); ("GB", "Green Bay Packers");
      ("IND", "Indianapolis Colts"); ("JAX", "Jacksonville Jaguars");
      ("KC", "Kansas City Chiefs"); ("LAC", "Los Angeles Chargers");
      ("LAR", "Los Angeles Rams"); ("MIA", "Miami Dolphins");
      ("MIN", "Minnesota Vikings"); ("NE", "New England Patriots");
      ("NO", "New Orleans Saints"); ("NYG", "New York Giants");
      ("NYJ", "New York Jets"); ("OAK", "Las Vegas Raiders");
      ("PHI", "Philadelphia Eagles"); ("PIT", "Pittsburgh Steelers");
      ("SD", "Los Angeles Chargers"); ("SEA", "Seattle Seahawks");
      ("SF", "San Francisco 49ers"); ("STL", "Los Angeles Rams");
      ("TB", "Tampa Bay Buccaneers"); ("TEN", "Tennessee Titans");
      ("WAS", "Washington Commanders") ].

Definition SPREADSPOKE_NAME_TO_CANONICAL : gmap string string :=
  list_to_map
    [ ("Arizona Cardinals", "Arizona Cardinals");
      ("Atlanta Falcons", "Atlanta Falcons");
      ("Baltimore Ravens", "Baltimore Ravens");
      ("Buffalo Bills", "Buffalo Bills");
      ("Carolina Panthers", "Carolina Panthers");
      ("Chicago Bears", "Chicago Bears");
      ("Cincinnati Bengals", "Cincinnati Bengals");
      ("Cleveland Browns", "Cleveland Browns");
      ("Dallas Cowboys", "Dallas Cowboys");
      ("Denver Broncos", "Denver Broncos");
      ("Detroit Lions", "Detroit Lions");
      ("Green Bay Packers", "Green Bay Packers");
      ("Houston Texans", "Houston Texans");
      ("Indianapolis Colts", "Indianapolis Colts");
      ("Jacksonville Jaguars", "Jacksonville Jaguars");
      ("Kansas City Chiefs", "Kansas City Chiefs");
      ("Los Angeles Rams", "Los Angeles Rams");
      ("Los Angeles Chargers", "Los Angeles Chargers");
      ("Las Vegas Raiders", "Las Vegas Raiders");
      ("Miami Dolphins", "Miami Dolphins");
      ("Minnesota Vikings", "Minnesota Vikings");
      ("New England Patriots", "New England Patriots");
      ("New Orleans Saints", "New Orleans Saints");
      ("New York Giants", "New York Giants");
      ("New York Jets", "New York Jets");
      ("Philadelphia Eagles", "Philadelphia Eagles");
      ("Pittsburgh Steelers", "Pittsburgh Steelers");
      ("San Francisco 49ers", "San Francisco 49ers");
      ("Seattle Seahawks", "Seattle Seahawks");
      ("Tampa Bay Buccaneers", "Tampa Bay Buccaneers");
      ("Tennessee Titans", "Tennessee Titans");
      ("Washington Commanders", "Washington Commanders");
      ("Baltimore Colts", "Indianapolis Colts");
      ("Houston Oilers", "Tennessee Titans");
      ("Los Angeles Raiders", "Las Vegas Raiders");
      ("Oakland Raiders", "Las Vegas Raiders");
      ("Phoenix Cardinals", "Arizona Cardinals");
      ("San Diego Chargers", "Los Angeles Chargers");
      ("St. Louis Cardinals", "Arizona Cardinals");
      ("St. Louis Rams", "Los Angeles Rams");
      ("Tennessee Oilers", "Tennessee Titans");
      ("Washington Redskins", "Washington Commanders") ].

Definition calculate_spread_result (home_score away_score spread : json)
  : result json :=
  if is_none spread || is_none home_score || is_none away_score then Ok JNull
  else
    diff ← sub (Val home_score) (Val away_score);
    margin ← add diff (Val spread);
    gt_value margin (Val (JInt 0)) ≫= fun covered : bool =>
    if covered then Ok (JStr "COVERED")
    else
      lt_value margin (Val (JInt 0)) ≫= fun lost : bool =>
      if lost then Ok (JStr "LOST") else Ok (JStr "PUSH").

Definition calculate_ou_result (home_score away_score over_under : json)
  : result json :=
  if is_none over_under || is_none home_score || is_none away_score then Ok JNull
  else
    total ← add (Val home_score) (Val away_score);
    gt_value total (Val over_under) ≫= fun over : bool =>
    if over then Ok (JStr "OVER")
    else
      lt_value total (Val over_under) ≫= fun under : bool =>
      if under then Ok (JStr "UNDER") else Ok (JStr "PUSH").

(** A row of the CSV file: column name to cell text. *)
Abbreviation csv_row := (gmap string string).

(** [row.get(k, "")] *)
Definition cell (row : csv_row) (k : string) : string :=
  default "" (row !! k).

(** The value stored in [ss_index]: [{"spread": .., "over_under": ..}]. *)
Record entry : Type := Entry {
  spread : json;
  over_under : json
}.

Abbreviation index := (gmap (string * string) entry).

Section WithRuntime.

(** [int(s)], [float(s)] and [strptime(s, "%m/%d/%Y")] followed by
    [strftime("%Y-%m-%d")]; [None] is their [ValueError]. *)
Variable int_of : string -> option Z.
Variable float_of : string -> option Q.
Variable iso_date_of : string -> option string.

Definition parse {A} (read : string -> option A) (s : string) : result A :=
  match read s with
  | Some a => Ok a
  | None => Raise ValueError
  end.

(** The rows kept by the filter [r.get("spread_favorite", "").strip()]. *)
Definition has_spread (row : csv_row) : bool :=
  negb (String.eqb (strip (cell row "spread_favorite")) "").

(** The spread from the home team's side, out of the favourite and the
    spread against it; [None] is the [continue] of a favourite that is in
    no table or is neither team of the game. *)
Definition home_spread (row : csv_row) (home_name home_canonical : string)
    (spread_fav : Q) : result (option Q) :=
  let fav_id := strip (cell row "team_favorite_id") in
  if String.eqb fav_id "PICK" || String.eqb fav_id "" then Ok (Some 0%Q)
  else
    match SPREADSPOKE_ABBREV_MAP !! fav_id with
    | None => Ok None
    | Some fav_canonical =>
        if String.eqb fav_canonical "" then Ok None
        else
          away_name ← item row "team_away";
          let away_canonical := SPREADSPOKE_NAME_TO_CANONICAL !! away_name in
          if String.eqb fav_canonical home_canonical
          then Ok (Some (- spread_fav)%Q)
          else if bool_decide (Some fav_canonical = away_canonical)
          then Ok (Some spread_fav)
          else
            let home_hist_canonical :=
              default home_name (SPREADSPOKE_NAME_TO_CANONICAL !! home_name) in
            let away_hist_canonical :=
              default away_name (SPREADSPOKE_NAME_TO_CANONICAL !! away_name) in
            if String.eqb fav_canonical home_hist_canonical
            then Ok (Some (- spread_fav)%Q)
            else if String.eqb fav_canonical away_hist_canonical
            then Ok (Some spread_fav)
            else Ok None
    end.

(** The body of the loop over the rows with a spread: the key and the
    entry the row writes, or [None] when the row is passed over. *)
Definition row_entry (row : csv_row)
  : result (option (string * string * entry)) :=
  season_text ← item row "schedule_season";
  parse int_of season_text ≫= fun season : Z =>
  home_name ← item row "team_home";
  match SPREADSPOKE_NAME_TO_CANONICAL !! home_name with
  | None => Ok None
  | Some home_canonical =>
      if String.eqb home_canonical "" then Ok None
      else
        date_text ← item row "schedule_date";
        match iso_date_of date_text with
        | None => Ok None
        | Some date_str =>
            spread_text ← item row "spread_favorite";
            parse float_of spread_text ≫= fun spread_fav : Q =>
            (if negb (String.eqb (strip (cell row "over_under_line")) "")
             then
               ou_text ← item row "over_under_line";
               parse float_of ou_text ≫= fun ou : Q => Ok (JFloat ou)
             else Ok JNull) ≫= fun ou_line : json =>
            home_spread row home_name home_canonical spread_fav
              ≫= fun hs : option Q =>
            match hs with
            | None => Ok None
            | Some hs =>
                Ok (Some (date_str, home_canonical, Entry (JFloat hs) ou_line))
            end
        end
  end.

Definition index_row (ss_index : index) (row : csv_row) : result index :=
  row_entry row ≫= fun e : option (string * string * entry) =>
  match e with
  | Some (date_str, home_canonical, v) =>
      Ok (<[(date_str, home_canonical) := v]> ss_index)
  | None => Ok ss_index
  end.

Definition build_index (ss_rows : list csv_row) : result index :=
  for_each index_row (filter (fun r => has_spread r = true) ss_rows) ∅.

(** The variables of the fill loop; [games] collects the game objects in
    order, each as the loop leaves it. *)
Record fill_state : Type := FillState {
  games : list dict;
  filled : nat;
  not_found : nat;
  already_has : nat;
  by_season : gmap pykey nat
}.

Definition fill_init : fill_state := FillState [] 0 0 0 ∅.

(** [ss_index.get((date_str, home))] *)
Definition index_get (ss_index : index) (date_str home : json)
  : option entry :=
  match date_str, home with
  | JStr d, JStr h => ss_index !! (d, h)
  | _, _ => None
  end.

(** How an iteration of the fill loop ends. *)
Inductive outcome : Type :=
| AlreadyHas   (* the game has a spread: [already_has += 1; continue] *)
| Skipped      (* home or date missing: [continue] *)
| Filled       (* the four assignments: [filled += 1] *)
| NotFound.    (* no index entry: [not_found += 1] *)

(** The body of the fill loop on one game object: the object as the
    iteration leaves it, and how the iteration ended. *)
Definition fill_game (ss_index : index) (game : dict)
  : result (dict * outcome) :=
  if negb (is_none (get game "spread")) then Ok (game, AlreadyHas)
  else
    let home := get_or game "homeTeamCanonical" (JStr "") in
    let date_str := get_or game "gameDate" (JStr "") in
    if negb (truthy home) || negb (truthy date_str) then Ok (game, Skipped)
    else
      match index_get ss_index date_str home with
      | Some m =>
          let game := <["spread" := spread m]> game in
          let game := <["overUnder" := over_under m]> game in
          sr ← calculate_spread_result
                 (get game "homeScore") (get game "awayScore") (spread m);
          let game := <["spreadResult" := sr]> game in
          our ← calculate_ou_result
                  (get game "homeScore") (get game "awayScore") (over_under m);
          let game := <["ouResult" := our]> game in
          Ok (game, Filled)
      | None => Ok (game, NotFound)
      end.

(** The counters after an iteration that ended with [o]. *)
Definition count (st : fill_state) (game : dict) (o : outcome) (season : json)
  : fill_state :=
  match o with
  | AlreadyHas =>
      FillState (games st ++ [game]) (filled st) (not_found st)
                (S (already_has st)) (by_season st)
  | Skipped =>
      FillState (games st ++ [game]) (filled st) (not_found st)
                (already_has st) (by_season st)
  | Filled =>
      FillState (games st ++ [game]) (S (filled st)) (not_found st)
                (already_has st)
                (<[key_of season :=
                     S (default 0%nat (by_season st !! key_of season))]>
                   (by_season st))
  | NotFound =>
      FillState (games st ++ [game]) (filled st) (S (not_found st))
                (already_has st) (by_season st)
  end.

Definition fill_step (ss_index : index) (st : fill_state) (game : dict)
  : result fill_state :=
  fill_game ss_index game ≫= fun r : dict * outcome =>
  Ok (count st (fst r) (snd r) (get_or game "season" (JStr "?"))).

(** The first part of [main]: index the CSV rows, then fill the games. *)
Definition fill_games (games : list dict) (ss_rows : list csv_row)
  : result fill_state :=
  ss_index ← build_index ss_rows;
  for_each (fill_step ss_index) games fill_init.

(** The coverage line divides by the number of games. *)
Definition coverage (games : list dict) : result unit :=
  match games with
  | [] => Raise ZeroDivisionError
  | _ :: _ => Ok tt
  end.

(** [1979 <= v <= 1998] *)
Definition in_seasons (v : json) : result bool :=
  match to_num v with
  | Some q => Ok (Qle_bool 1979 q && Qle_bool q 1998)
  | None => Raise TypeError
  end.

(** The condition of the spot check:
    [g.get("season") and 1979 <= g["season"] <= 1998
     and g.get("spread") is not None]. *)
Definition spot_checked (g : dict) : result bool :=
  if truthy (get g "season") then
    b ← in_seasons (get g "season");
    Ok (b && negb (is_none (get g "spread")))
  else Ok false.

(** The line printed for one game of the spot check reads three of its
    keys; the others are read with [get]. *)
Definition spot_line (g : dict) : result unit :=
  _ ← getitem g "gameDate";
  _ ← getitem g "spread";
  _ ← getitem g "overUnder";
  Ok tt.

(** The spot check goes through all the games and shows the first five
    it selects. *)
Definition spot_check (games : list dict) : result unit :=
  filled_games ← select spot_checked games;
  for_each (fun _ g => spot_line g) (take 5 filled_games) tt.

(** The summary printed after the loop.  What is printed is not kept, only
    whether printing raises: the coverage, the seasons in order when any
    game was filled, and the spot check. *)
Definition summary (st : fill_state) : result unit :=
  _ ← coverage (games st);
  _ ← (if bool_decide (by_season st = ∅) then Ok tt
       else sorted_keys (by_season st));
  spot_check (games st).

(** [main], from the loaded feeds to the state that is written back. *)
Definition main (games : list dict) (ss_rows : list csv_row)
  : result fill_state :=
  st ← fill_games games ss_rows;
  _ ← summary st;
  Ok st.

End WithRuntime.

End Spreadspoke.

(** ** scripts/fetch-cbbdata-ratings.py

    [build_pit_snapshots] with its helpers [get_col] and [days_between].
    The records are rows as [json.loads] gives them, flat objects of
    scalars; the timestamps pandas reads from a parquet file are not
    covered.  [strptime] is a parameter: [date_ordinal] gives the day
    number of a date written year-month-day, and [None] where [strptime]
    raises [ValueError].  The difference [adj_oe - adj_de] is the exact
    one, where binary64 rounds.  The functions that talk to the network,
    to the key file and to the terminal are left out. *)

Module Cbbdata.
Import Py.

(** One team on one date, as [build_pit_snapshots] stores it. *)
Record rating : Type := Rating {
  TeamName : json;
  Season : Z;
  AdjEM : Q;
  AdjOE : Q;
  AdjDE : Q;
  AdjTempo : Q;
  RankAdjEM : Z;
  RankAdjOE : Z;
  RankAdjDE : Z;
  RankAdjTempo : Z;
  Wins : Z;
  Losses : Z;
  ConfShort : string
}.

Record snapshot : Type := Snapshot {
  date : string;
  alpha : Z;
  teamCount : nat;
  ratings : gmap pykey rating
}.

(** [by_date]: date, then team, to rating. *)
Abbreviation by_date_map := (gmap string (gmap pykey rating)).

(** How [build_pit_snapshots] may fail: an exception of a row or of
    [days_between], or the [IndexError] of [all_dates[0]]. *)
Inductive failure : Type :=
| Uncaught (e : exn)
| IndexError.

(** [get_col(row, *candidates)]: the first candidate that is a key of the
    row with a value other than [None]. *)
Fixpoint get_col (row : dict) (candidates : list string) : json :=
  match candidates with
  | [] => JNull
  | c :: rest =>
      match row !! c with
      | Some v => if is_none v then get_col row rest else v
      | None => get_col row rest
      end
  end.

(** [v or dflt] *)
Definition or_default (v dflt : json) : json := if truthy v then v else dflt.

(** [parts = s.split("-")]: [parts[0]] and [parts[1:]]. *)
Fixpoint split_dash (s : string) : string * list string :=
  match s with
  | EmptyString => (EmptyString, [])
  | String c s' =>
      let '(h, t) := split_dash s' in
      if Ascii.eqb c "-" then (EmptyString, h :: t) else (String c h, t)
  end.

(** Strings in the order of [<=]. *)
Definition str_le (a b : string) : Prop := String.leb a b = true.

#[export] Instance str_le_dec : RelDecision str_le.
Proof. intros a b. unfold str_le. apply _. Defined.

Section WithRuntime.

Variable float_repr : Q -> string.
Variable int_of : string -> option Z.
Variable float_of : string -> option Q.
Variable date_ordinal : string -> option Z.

Abbreviation str := (Py.str float_repr).

Definition read {A} (f : string -> option A) (s : string) : result A :=
  match f s with
  | Some a => Ok a
  | None => Raise ValueError
  end.

(** [float(v)] *)
Definition float_of_value (v : json) : result Q :=
  match v with
  | JNull => Raise TypeError
  | JBool b => Ok (inject_Z (if b then 1 else 0))
  | JInt z => Ok (inject_Z z)
  | JFloat q => Ok q
  | JStr s => read float_of s
  end.

(** [int(v)]; a [float] is cut towards zero. *)
Definition int_of_value (v : json) : result Z :=
  match v with
  | JNull => Raise TypeError
  | JBool b => Ok (if b then 1 else 0)
  | JInt z => Ok z
  | JFloat q => Ok (Z.quot (Qnum q) (Zpos (Qden q)))
  | JStr s => read int_of s
  end.

(** The date of a row as a key of [by_date]. *)
Definition date_key (date : json) : string :=
  if contains "T" (str date) then String.substring 0 10 (str date)
  else str date.

(** The [try] that reads wins and losses out of the record column, and
    its [except] that reads the two columns. *)
Definition wins_losses (row : dict) : result (Z * Z) :=
  let record_str := str (or_default (get_col row ["record"; "rec"]) (JStr "0-0")) in
  let '(first, rest) := split_dash record_str in
  match int_of first,
        match rest with
        | second :: _ => int_of second
        | [] => Some 0
        end
  with
  | Some wins, Some losses => Ok (wins, losses)
  | _, _ =>
      wins ← int_of_value (or_default (get_col row ["wins"; "Wins"]) (JInt 0));
      losses ← int_of_value (or_default (get_col row ["losses"; "Losses"]) (JInt 0));
      Ok (wins, losses)
  end.

(** The body of the loop over the records up to the assignment: the date,
    the team and the rating of the row, or [None] for a row that is passed
    over. *)
Definition rating_of_row (row : dict)
  : result (option (string * json * rating)) :=
  let date := get_col row ["date"; "Date"; "rating_date"] in
  if is_none date then Ok None
  else
    let date_str := date_key date in
    let team := get_col row ["team"; "Team"; "TeamName"; "team_name"] in
    if negb (truthy team) then Ok None
    else
      adj_oe ← float_of_value
        (or_default (get_col row ["adj_o"; "AdjOE"; "adjoe"; "adj_oe"]) (JInt 0));
      adj_de ← float_of_value
        (or_default (get_col row ["adj_d"; "AdjDE"; "adjde"; "adj_de"]) (JInt 0));
      let adj_em_raw := get_col row ["adj_em"; "AdjEM"; "adjem"] in
      adj_em ← (if is_none adj_em_raw then Ok (adj_oe - adj_de)%Q
                else float_of_value adj_em_raw);
      adj_tempo ← float_of_value
        (or_default (get_col row ["adj_t"; "AdjTempo"; "adjt"; "adj_tempo"])
                    (JInt 0));
      rank ← int_of_value
        (or_default (get_col row ["rk"; "rank"; "RankAdjEM"]) (JInt 0));
      rank_oe ← int_of_value
        (or_default (get_col row ["adj_o_rk"; "RankAdjOE"]) (JInt 0));
      rank_de ← int_of_value
        (or_default (get_col row ["adj_d_rk"; "RankAdjDE"]) (JInt 0));
      rank_tempo ← int_of_value
        (or_default (get_col row ["adj_t_rk"; "RankAdjTempo"]) (JInt 0));
      wl ← wins_losses row;
      let conf :=
        str (or_default (get_col row ["conf"; "ConfShort"; "conference"])
                        (JStr "")) in
      Ok (Some (date_str, team,
                Rating team 2025 adj_em adj_oe adj_de adj_tempo
                       rank rank_oe rank_de rank_tempo (fst wl) (snd wl) conf)).

(** [by_date[date_str][team] = {...}], on a fresh inner dict when the date
    is new. *)
Definition group_row (by_date : by_date_map) (row : dict)
  : result by_date_map :=
  rating_of_row row ≫= fun r : option (string * json * rating) =>
  match r with
  | None => Ok by_date
  | Some (date_str, team, entry) =>
      Ok (<[date_str := <[key_of team := entry]> (default ∅ (by_date !! date_str))]>
            by_date)
  end.

Definition group (records : list dict) : result by_date_map :=
  for_each group_row records ∅.

(** [sorted(d for d in by_date.keys() if d <= "2025-04-08")].  The keys
    are distinct, so the sorted list does not depend on the order in which
    they are met, nor on the sorting algorithm. *)
Definition all_dates (by_date : by_date_map) : list string :=
  sorting.merge_sort str_le
    (filter (fun d => str_le d "2025-04-08") (fst <$> map_to_list by_date)).

(** [days_between(a, b)] *)
Definition days_between (a b : string) : result Z :=
  da ← read date_ordinal (String.substring 0 10 a);
  db ← read date_ordinal (String.substring 0 10 b);
  Ok (Z.abs (db - da)).

(** The body of the sampling loop; the state is [snapshots] and
    [last_date], and [final] is [all_dates[-1]]. *)
Definition sample_step (by_date : by_date_map) (final : string)
    (st : list snapshot * string) (date_str : string)
  : result (list snapshot * string) :=
  (if negb (String.eqb (snd st) "")
   then d ← days_between (snd st) date_str; Ok (d <? 7)
   else Ok false) ≫= fun close : bool =>
  if close && negb (String.eqb date_str final) then Ok st
  else
    match by_date !! date_str with
    | Some ratings =>
        Ok ((fst st ++ [Snapshot date_str (-1) (size ratings) ratings])%list,
            date_str)
    | None => Raise KeyError
    end.

Definition sample (by_date : by_date_map) (final : string)
    (dates : list string) : result (list snapshot * string) :=
  for_each (sample_step by_date final) dates ([], "").

Definition build_pit_snapshots (records : list dict)
  : failure + list snapshot :=
  match group records with
  | Raise e => inl (Uncaught e)
  | Ok by_date =>
      match list.last (all_dates by_date) with
      | None => inl IndexError
      | Some final =>
          match sample by_date final (all_dates by_date) with
          | Raise e => inl (Uncaught e)
          | Ok st => inr (fst st)
          end
      end
  end.

End WithRuntime.

End Cbbdata.

(** * The vocabulary of the properties

    The notions the statements below are written with, and the rows and
    games the examples run on. *)

Module JoinKeyDefs.

(** The labels of the postseason rounds, as the specification lists
    them. *)
Definition playoff_label (w : Z) : option string :=
  if w =? 18 then Some "WildCard"
  else if w =? 19 then Some "Division"
  else if w =? 20 then Some "ConfChamp"
  else if (w =? 21) || (w =? 22) then Some "SuperBowl"
  else None.

End JoinKeyDefs.

Module LineDefs.
Import Py Spreadspoke.

(** The franchise a row names as its favourite; a pick has none. *)
Definition named_favorite (row : csv_row) : option string :=
  let fav_id := strip (cell row "team_favorite_id") in
  if String.eqb fav_id "PICK" || String.eqb fav_id "" then None
  else SPREADSPOKE_ABBREV_MAP !! fav_id.

(** The franchise of the away team, under its present or its historical
    name. *)
Definition away_franchise (row : csv_row) : string :=
  let away_name := cell row "team_away" in
  default away_name (SPREADSPOKE_NAME_TO_CANONICAL !! away_name).

(** Who is favoured, read back from the sign of a home-side spread. *)
Definition favored (home_spread : Q) (home away : string) : option string :=
  if Qltb 0 home_spread then Some home
  else if Qltb home_spread 0 then Some away
  else None.

(** The favourite is named and is neither team of the game. *)
Definition neither_side (row : csv_row) (home_canonical : string) : Prop :=
  let fav_id := strip (cell row "team_favorite_id") in
  fav_id <> "PICK" /\ fav_id <> "" /\
  forall f, SPREADSPOKE_ABBREV_MAP !! fav_id = Some f ->
            f <> home_canonical /\ f <> away_franchise row.

Section WithRuntime.

Variable int_of : string -> option Z.
Variable float_of : string -> option Q.
Variable iso_date_of : string -> option string.

(** The row reaches the choice of a side: every cell the loop reads before
    it is there and is read without an exception or a [continue]. *)
Definition reaches_side (row : csv_row) (home_name home_canonical : string)
    (spread_fav : Q) : Prop :=
  (exists season_text season,
     row !! "schedule_season" = Some season_text /\
     int_of season_text = Some season) /\
  row !! "team_home" = Some home_name /\
  SPREADSPOKE_NAME_TO_CANONICAL !! home_name = Some home_canonical /\
  home_canonical <> "" /\
  (exists date_text date_str,
     row !! "schedule_date" = Some date_text /\
     iso_date_of date_text = Some date_str) /\
  (exists spread_text,
     row !! "spread_favorite" = Some spread_text /\
     float_of spread_text = Some spread_fav) /\
  (strip (cell row "over_under_line") = "" \/
   exists ou, float_of (cell row "over_under_line") = Some ou).

End WithRuntime.

(** *** Rows of a 1980 game, Buffalo at Miami *)

Definition miami_by_3_5 : csv_row :=
  list_to_map
    [ ("schedule_season", "1980"); ("schedule_date", "9/7/1980");
      ("team_home", "Miami Dolphins"); ("team_away", "Buffalo Bills");
      ("team_favorite_id", "MIA"); ("spread_favorite", "-3.5");
      ("over_under_line", "41.5") ].

Definition buffalo_by_3_5 : csv_row :=
  <["team_favorite_id" := "BUF"]> miami_by_3_5.

Definition pick_row : csv_row :=
  <["team_favorite_id" := "PICK"]> miami_by_3_5.

(** The favourite is a third team. *)
Definition dallas_row : csv_row :=
  <["team_favorite_id" := "DAL"]> miami_by_3_5.

(** Miami is named as favourite, by nothing. *)
Definition miami_by_0 : csv_row :=
  <["spread_favorite" := "0"]> miami_by_3_5.

Definition miami_game : dict :=
  list_to_map
    [ ("season", JInt 1980); ("week", JStr "1");
      ("gameDate", JStr "1980-09-07");
      ("homeTeamCanonical", JStr "Miami Dolphins");
      ("awayTeamCanonical", JStr "Buffalo Bills");
      ("homeScore", JInt 7); ("awayScore", JInt 17) ].

End LineDefs.

Module JoinDefs.
Import Py Normalize.

Definition is_str (v : json) : bool :=
  match v with JStr _ => true | _ => false end.

Definition num_or_null (v : json) : bool :=
  match v with JStr _ => false | _ => true end.

(** A game object of the staging file: team names are strings, scores and
    the spread are numbers or null.  On such games the loop raises
    nothing. *)
Definition game_ok (g : dict) : Prop :=
  is_str (get_or g "homeTeamCanonical" (JStr "")) = true /\
  is_str (get_or g "awayTeamCanonical" (JStr "")) = true /\
  num_or_null (get g "homeScore") = true /\
  num_or_null (get g "awayScore") = true /\
  num_or_null (get g "spread") = true.

(** The row passes the two guards of the loop and is written out. *)
Definition emitted (stat : dict) : bool :=
  negb (missing_identity stat) && bool_decide (is_Some (team_canonical_of stat)).

(** What the summary of [main] prints. *)
Definition report (st : state) : nat * nat * nat * list string :=
  (length (results st), matched st, unmatched st, unmatched_examples st).

(** The game-context fields of a matched row, as drawn from the game [g]
    seen from the side [is_home]; [result_] and [spread_] are the two
    computed fields. *)
Definition context_of (g : dict) (is_home : bool) (result_ spread_ : json)
  : list (string * json) :=
  [ ("gameDate", get g "gameDate");
    ("dayOfWeek", get g "dayOfWeek");
    ("isHome", JBool is_home);
    ("teamScore", get g (if is_home then "homeScore" else "awayScore"));
    ("opponentScore", get g (if is_home then "awayScore" else "homeScore"));
    ("gameResult", result_);
    ("spread", spread_);
    ("overUnder", get g "overUnder");
    ("spreadResult", get g "spreadResult");
    ("ouResult", get g "ouResult");
    ("isPlayoff", get_or g "isPlayoff" (JBool false));
    ("isPrimetime", get_or g "isPrimetime" (JBool false));
    ("primetimeSlot", get g "primetimeSlot");
    ("isNeutralSite", get_or g "isNeutralSite" (JBool false));
    ("temperature", get g "temperature");
    ("windMph", get g "windMph");
    ("weatherCategory", get g "weatherCategory");
    ("restDays", get g (if is_home then "homeRestDays" else "awayRestDays"));
    ("isByeWeek", get g (if is_home then "homeIsByeWeek" else "awayIsByeWeek")) ].

(** The nineteen fields of the game context. *)
Definition context_fields : list string :=
  [ "gameDate"; "dayOfWeek"; "isHome"; "teamScore"; "opponentScore";
    "gameResult"; "spread"; "overUnder"; "spreadResult"; "ouResult";
    "isPlayoff"; "isPrimetime"; "primetimeSlot"; "isNeutralSite";
    "temperature"; "windMph"; "weatherCategory"; "restDays"; "isByeWeek" ].

(** Every context field of [r] is drawn from the one game [g]. *)
Definition drawn_from (g : dict) (is_home : bool) (r : dict) : Prop :=
  exists result_ spread_,
    game_result (get g (if is_home then "homeScore" else "awayScore"))
                (get g (if is_home then "awayScore" else "homeScore"))
      = Ok result_ /\
    team_spread (get g "spread") is_home = Ok spread_ /\
    Forall (fun kv => r !! kv.1 = Some kv.2)
           (context_of g is_home result_ spread_).

(** The record was written by the branch without game context: its
    [isHome] field is an explicit null. *)
Definition no_game_context (r : dict) : bool :=
  match r !! "isHome" with
  | Some JNull => true
  | _ => false
  end.

(** Every context field of [r] is an explicit null. *)
Definition all_null (r : dict) : Prop :=
  Forall (fun k => r !! k = Some JNull) context_fields.

(** Every context field of [r] is an explicit null, except [isPlayoff],
    which tells whether the row is a postseason row. *)
Definition null_but_playoff (r : dict) : Prop :=
  Forall (fun k => r !! k =
                   Some (if String.eqb k "isPlayoff"
                         then JBool (eq_str (get r "season_type") "POST")
                         else JNull))
         context_fields.

Section WithRepr.

Variable float_repr : Q -> string.

(** The row as it stands before the game context is added. *)
Definition player_part (meta_by_id : gmap pykey dict)
    (snap_by_key : gmap string dict) (stat : dict) (team_canonical : string)
  : dict :=
  with_player_context float_repr meta_by_id snap_by_key stat team_canonical
    (opponent_canonical (get stat "opponent_team")) (trim_stat_row stat).

(** The game the loop finds for a row. *)
Definition game_of (game_by_key : gmap string dict) (stat : dict)
    (team_canonical : string) : option dict :=
  find_game float_repr game_by_key (get stat "season")
    (week_key float_repr (get stat "season_type") (get stat "week"))
    team_canonical (opponent_canonical (get stat "opponent_team")).

End WithRepr.

(** *** A Rams home game against Seattle, week 5 of 2024 *)

Definition rams_game : dict :=
  list_to_map
    [ ("season", JInt 2024); ("week", JStr "5");
      ("gameDate", JStr "2024-10-06");
      ("homeTeamCanonical", JStr "Los Angeles Rams");
      ("awayTeamCanonical", JStr "Seattle Seahawks");
      ("homeScore", JInt 27); ("awayScore", JInt 24);
      ("spread", JFloat 3.5); ("overUnder", JFloat 48.5);
      ("spreadResult", JStr "COVERED"); ("ouResult", JStr "OVER") ].

(** The same game with its home team spelt in capitals. *)
Definition rams_game_capitals : dict :=
  <["homeTeamCanonical" := JStr "LOS ANGELES RAMS"]> rams_game.

Definition rams_stat : dict :=
  list_to_map
    [ ("player_id", JStr "00-0033106"); ("player_display_name", JStr "Cooper Kupp");
      ("season", JInt 2024); ("week", JInt 5); ("season_type", JStr "REG");
      ("team", JStr "LA"); ("opponent_team", JStr "SEA");
      ("receptions", JInt 7) ].

(** A row of a team without alias, a row without player id, a row whose
    opponent has no alias. *)
Definition unknown_team_stat : dict := <["team" := JStr "XXX"]> rams_stat.
Definition anonymous_stat : dict := <["player_id" := JNull]> rams_stat.
Definition unknown_opponent_stat : dict :=
  <["opponent_team" := JStr "QQ"]> rams_stat.

(** The same player in a week for which the feed has no game. *)
Definition week_six_stat : dict := <["week" := JInt 6]> rams_stat.

(** The summary of a run, and a field of the [i]-th record it wrote. *)
Definition report_of (r : result state)
  : option (nat * nat * nat * list string) :=
  match r with
  | Ok st => Some (report st)
  | Raise _ => None
  end.

Definition field_of (r : result state) (i : nat) (k : string) : option json :=
  match r with
  | Ok st => results st !! i ≫= fun d : dict => d !! k
  | Raise _ => None
  end.

End JoinDefs.

Module FillDefs.
Import Py.

(** The value of a field of the [i]-th game after a run. *)
Definition nflverse_field (r : result Nflverse.fill_state) (i : nat)
    (k : string) : option json :=
  match r with
  | Ok st => Nflverse.games st !! i ≫= fun g : dict => g !! k
  | Raise _ => None
  end.

Definition spreadspoke_field (r : result Spreadspoke.fill_state) (i : nat)
    (k : string) : option json :=
  match r with
  | Ok st => Spreadspoke.games st !! i ≫= fun g : dict => g !! k
  | Raise _ => None
  end.

(** Buffalo at home in week 1 of 2020: the staging file has a total for
    the game and no spread. *)
Definition bills_game : dict :=
  list_to_map
    [ ("season", JInt 2020); ("week", JStr "1");
      ("gameDate", JStr "2020-09-13");
      ("homeTeamCanonical", JStr "Buffalo Bills");
      ("awayTeamCanonical", JStr "New York Jets");
      ("homeScore", JInt 27); ("awayScore", JInt 17);
      ("spread", JNull); ("overUnder", JFloat 44.5);
      ("spreadResult", JNull); ("ouResult", JStr "UNDER") ].

Definition bills_sched_row : Nflverse.sched_row :=
  Nflverse.SchedRow (JInt 2020) (JStr "REG") (JInt 1) (JStr "BUF")
                    (JFloat 6.5) (JFloat 39.5).

(** Miami at home in 1980, with a total and no spread. *)
Definition miami_game_with_total : dict :=
  <["overUnder" := JFloat 40]> LineDefs.miami_game.

End FillDefs.

Module JoinMoreDefs.
Import Py Normalize JoinDefs.

(** The keys written by the merge of player metadata, of the canonical
    names and of the snap counts. *)
Definition metadata_fields : list string :=
  [ "birthDate"; "college"; "draftYear"; "draftRound"; "draftPick";
    "yearsExp"; "jerseyNumber" ].

Definition name_fields : list string := [ "teamCanonical"; "opponentCanonical" ].

Definition snap_fields : list string :=
  [ "offensiveSnaps"; "offensiveSnapPct"; "defensiveSnaps";
    "defensiveSnapPct"; "stSnaps"; "stSnapPct" ].

(** Every key the loop adds to the trimmed row. *)
Definition added_fields : list string :=
  metadata_fields ++ name_fields ++ snap_fields ++ context_fields.

(** The metadata row of a player: the last row of the feed that carries
    the player's id, the empty object when there is none. *)
Definition metadata_of (metadata : list dict) (player_id : json) : dict :=
  default ∅
    (list.last (filter (fun m => truthy (get m "gsis_id") = true /\
                            key_of (get m "gsis_id") = key_of player_id)
                  metadata)).

(** The rows of [results] that were written without game context. *)
Definition without_context (r : dict) : Prop := r !! "isHome" = Some JNull.

Section WithRepr.

Variable float_repr : Q -> string.

(** The two keys of a game, and the games that enter the index. *)
Definition home_key (g : dict) : string :=
  Py.str float_repr (get g "season") ++ "-" ++ Py.str float_repr (get g "week")
  ++ "-" ++ Py.str float_repr (get g "homeTeamCanonical").

Definition away_key (g : dict) : string :=
  Py.str float_repr (get g "season") ++ "-" ++ Py.str float_repr (get g "week")
  ++ "-" ++ Py.str float_repr (get g "awayTeamCanonical").

Definition indexable (g : dict) : bool :=
  truthy (get g "season") && truthy (get g "homeTeamCanonical")
  && truthy (get g "awayTeamCanonical").

(** The record [r] is the one the loop writes for the row [stat]. *)
Definition written_from (meta_by_id : gmap pykey dict)
    (snap_by_key game_by_key : gmap string dict) (stat r : dict) : Prop :=
  exists team_canonical,
    team_canonical_of stat = Some team_canonical /\
    let t := player_part float_repr meta_by_id snap_by_key stat team_canonical in
    (exists g b, with_game_context g b t = Ok r) \/
    r = without_game_context (get stat "season_type") t.

End WithRepr.

(** The metadata row of the player of [rams_stat], and an older row with
    the same id. *)
Definition kupp_metadata : dict :=
  list_to_map
    [ ("gsis_id", JStr "00-0033106"); ("birth_date", JStr "1993-06-15");
      ("college", JStr "Eastern Washington"); ("entry_year", JInt 2017);
      ("draft_number", JInt 69); ("years_exp", JInt 7);
      ("jersey_number", JInt 10) ].

Definition kupp_metadata_old : dict := <["years_exp" := JInt 6]> kupp_metadata.

(** The result seen from the other side. *)
Definition flip_result (v : json) : json :=
  match v with
  | JStr "W" => JStr "L"
  | JStr "L" => JStr "W"
  | _ => v
  end.

End JoinMoreDefs.

Module FillMoreDefs.
Import Py.

(** The four keys the fill loops assign. *)
Definition fill_fields : list string :=
  [ "spread"; "overUnder"; "spreadResult"; "ouResult" ].

(** The number the scripts print as "missing": the games whose spread is
    null or absent. *)
Definition count_missing (games : list dict) : nat :=
  length (filter (fun g => is_none (get g "spread") = true) games).

(** The sum of the per-season counts. *)
Definition season_total (by_season : gmap pykey nat) : nat :=
  map_fold (fun _ n acc => (n + acc)%nat) 0%nat by_season.

(** What an iteration of a fill loop may do to a game object: nothing to a
    game that has a spread, and nothing outside the four keys. *)
Definition only_filled (game game' : dict) : Prop :=
  (forall k, k ∉ fill_fields -> game' !! k = game !! k) /\
  (is_none (get game "spread") = false -> game' = game).

(** The key under which a schedule row enters the nflverse index; [None]
    for a row the index leaves out. *)
Definition sched_key (float_repr : Q -> string) (row : Nflverse.sched_row)
  : option (pykey * string * string) :=
  match lookup_str Nflverse.TEAM_ABBREV_MAP (Nflverse.home_team row) with
  | Some home_canonical =>
      if String.eqb home_canonical "" then None
      else
        match
          (if eq_str (Nflverse.game_type row) "REG"
           then Some (Py.str float_repr (Nflverse.week row))
           else lookup_str Nflverse.GAME_TYPE_MAP (Nflverse.game_type row))
        with
        | Some week_str =>
            Some (key_of (Nflverse.season row), week_str, home_canonical)
        | None => None
        end
  | None => None
  end.

(** Every entry of a Spreadspoke index carries a spread. *)
Definition with_spreads (ss_index : Spreadspoke.index) : Prop :=
  forall k m, ss_index !! k = Some m ->
              exists s, Spreadspoke.spread m = JFloat s.

End FillMoreDefs.

Module OutcomeMoreDefs.
Import Py.

(** The spread result seen from the visiting side. *)
Definition flip_cover (v : json) : json :=
  match v with
  | JStr "COVERED" => JStr "LOST"
  | JStr "LOST" => JStr "COVERED"
  | _ => v
  end.

(** The line of a game seen from the visiting side: the spread negated,
    and no line where there is none. *)
Definition opposite_line (spread opposite : json) : Prop :=
  neg spread = Ok opposite \/ (spread = JNull /\ opposite = JNull).

End OutcomeMoreDefs.

Module RowMoreDefs.
Import Py Spreadspoke.

(** [home_spread] without its second comparison under historical names. *)
Definition home_spread_direct (row : csv_row) (home_canonical : string)
    (spread_fav : Q) : result (option Q) :=
  let fav_id := strip (cell row "team_favorite_id") in
  if String.eqb fav_id "PICK" || String.eqb fav_id "" then Ok (Some 0%Q)
  else
    match SPREADSPOKE_ABBREV_MAP !! fav_id with
    | None => Ok None
    | Some fav_canonical =>
        if String.eqb fav_canonical "" then Ok None
        else
          away_name ← item row "team_away";
          if String.eqb fav_canonical home_canonical
          then Ok (Some (- spread_fav)%Q)
          else if bool_decide (Some fav_canonical
                               = SPREADSPOKE_NAME_TO_CANONICAL !! away_name)
          then Ok (Some spread_fav)
          else Ok None
    end.

(** The entries the rows of a file write, in the order of the file. *)
Definition written_entries (int_of : string -> option Z)
    (float_of : string -> option Q) (iso_date_of : string -> option string)
    (ss_rows : list csv_row) : list (string * string * entry) :=
  omap (fun row =>
          match row_entry int_of float_of iso_date_of row with
          | Ok e => e
          | Raise _ => None
          end)
       (filter (fun r => has_spread r = true) ss_rows).

(** The row of the examples with a season that is no number, and with a
    date in another format. *)
Definition bad_season_row : csv_row :=
  <["schedule_season" := "198O"]> LineDefs.miami_by_3_5.

Definition bad_date_row : csv_row :=
  <["schedule_date" := "1980-09-07"]> LineDefs.miami_by_3_5.

End RowMoreDefs.

Module SnapshotDefs.
Import Py Cbbdata.

(** The row has nothing in column [c]: the key is absent or holds a
    null. *)
Definition blank (row : dict) (c : string) : Prop := get row c = JNull.

Definition str_lt (a b : string) : Prop := str_le a b /\ a <> b.

Section WithRuntime.

Variable float_repr : Q -> string.
Variable int_of : string -> option Z.
Variable float_of : string -> option Q.
Variable date_ordinal : string -> option Z.

(** The date, team and rating each row writes, in the order of the feed. *)
Definition written_ratings (records : list dict)
  : list (string * json * rating) :=
  omap (fun row =>
          match rating_of_row float_repr int_of float_of row with
          | Ok r => r
          | Raise _ => None
          end)
       records.

(** The dates [all_dates] is made of: written by some row, and not after
    8 April 2025. *)
Definition season_date (records : list dict) (d : string) : Prop :=
  (exists e, e ∈ written_ratings records /\ e.1.1 = d) /\
  str_le d "2025-04-08".

(** The rating of the last row of the feed for a date and a team. *)
Definition rating_on (records : list dict) (d : string) (k : pykey)
  : option rating :=
  snd <$> list.last (filter (fun e => e.1.1 = d /\ key_of e.1.2 = k)
                       (written_ratings records)).

(** A week or more apart, and less than a week apart. *)
Definition far (a b : string) : Prop :=
  exists n, days_between date_ordinal a b = Ok n /\ 7 <= n.

Definition near (a b : string) : Prop :=
  exists n, days_between date_ordinal a b = Ok n /\ n < 7.

End WithRuntime.

(** The day number of a date written with four, two and two digits; the
    plain case of [strptime(s, "%Y-%m-%d")], for the examples. *)
Definition days_before_year (y : Z) : Z :=
  365 * (y - 1) + (y - 1) / 4 - (y - 1) / 100 + (y - 1) / 400.

Definition days_before_month (y m : Z) : Z :=
  fold_right Z.add 0
    (map (fun i => Parse.days_in_month y (Z.of_nat i))
         (seq 1 (Z.to_nat (m - 1)))).

Definition iso_ordinal (s : string) : option Z :=
  match Parse.split_at "-" s with
  | (yyyy, Some rest) =>
      match Parse.split_at "-" rest with
      | (mm, Some dd) =>
          match Parse.digits yyyy, Parse.digits mm, Parse.digits dd with
          | Some y, Some m, Some d =>
              if ((String.length yyyy =? 4)%nat && (String.length mm =? 2)%nat
                  && (String.length dd =? 2)%nat
                  && (1 <=? y) && (1 <=? m) && (m <=? 12) && (1 <=? d)
                  && (d <=? Parse.days_in_month y m))%bool
              then Some (days_before_year y + days_before_month y m + d)
              else None
          | _, _, _ => None
          end
      | _ => None
      end
  | _ => None
  end.

(** Rows of an archive: one team on five dates, the last after the end of
    the season. *)
Definition duke_row (date : string) (rk : Z) : dict :=
  list_to_map
    [ ("date", JStr date); ("team", JStr "Duke"); ("adj_o", JFloat 120.5);
      ("adj_d", JFloat 90.5); ("rk", JInt rk); ("record", JStr "35-4");
      ("conf", JStr "ACC") ].

Definition archive : list dict :=
  [ duke_row "2024-11-12" 1; duke_row "2024-11-04" 3; duke_row "2024-11-06" 2;
    duke_row "2024-11-13" 1; duke_row "2025-05-01" 1 ].


End SnapshotDefs.

Module NumberDefs.
Import Py.

(** Every binary64 value is a multiple of 2^-1074. *)
Definition on_grid (q : Q) : Prop :=
  exists k : Z, (q == inject_Z k * pow2 (-1074))%Q.

(** An [int] operand that its conversion to [float] leaves as it is. *)
Definition small (n : number) : Prop :=
  match n with
  | Int z => Z.abs z <= 2 ^ 53
  | Flt _ => True
  end.

(** A score or a line as the feeds carry them: null, a float, or an
    integer of at most 2^52 in size. *)
Definition ordinary_or_null (v : json) : Prop :=
  v = JNull \/ (exists q, v = JFloat q) \/
  (exists z, as_int v = Some z /\ Z.abs z <= 2 ^ 52).

(** How the sign of a computed float stands to the sign of a rational. *)
Definition same_sign (x : float) (q : Q) : Prop :=
  match x with
  | Finite r => ((0 < r)%Q <-> (0 < q)%Q) /\ ((r < 0)%Q <-> (q < 0)%Q)
  | FInf n => if n then (q < 0)%Q else (0 < q)%Q
  | FNaN => False
  end.

(** [- v] on the values of expressions. *)
Definition nneg (n : number) : number :=
  match n with
  | Int z => Int (- z)
  | Flt x => Flt (fneg x)
  end.

Definition vneg (v : value) : value :=
  match v with
  | Val (JBool b) => Val (JInt (- (if b then 1 else 0)))
  | Val (JInt z) => Val (JInt (- z))
  | Val (JFloat q) => Val (JFloat (- q))
  | Val v => Val v
  | Inf n => Inf (negb n)
  | NaN => NaN
  end.

End NumberDefs.

(** * Properties *)

(** ** Arithmetic and comparison of JSON numbers *)

Module PyFacts.
Import Py.

Lemma bind_Ok {A B} (a : A) (k : A -> result B) : (Ok a ≫= k) = k a.
Proof. reflexivity. Qed.

Lemma bind_Raise {A B} (e : exn) (k : A -> result B) :
  (Raise e ≫= k) = Raise e.
Proof. reflexivity. Qed.

Lemma Qltb_lt (x y : Q) : Qltb x y = true <-> (x < y)%Q.
Proof.
  unfold Qltb. rewrite Qlt_alt.
  destruct (x ?= y)%Q; split; congruence.
Qed.

Lemma Qltb_ge (x y : Q) : Qltb x y = false <-> (y <= x)%Q.
Proof.
  rewrite <- Bool.not_true_iff_false, Qltb_lt. split.
  - apply Qnot_lt_le.
  - apply Qle_not_lt.
Qed.

Lemma Qltb_congr (x x' y y' : Q) :
  (x == x')%Q -> (y == y')%Q -> Qltb x y = Qltb x' y'.
Proof.
  intros Hx Hy. destruct (Qltb x' y') eqn:E.
  - apply Qltb_lt. apply Qltb_lt in E. lra.
  - apply Qltb_ge. apply Qltb_ge in E. lra.
Qed.

Lemma as_int_num (a : json) (z : Z) :
  as_int a = Some z -> to_num a = Some (inject_Z z).
Proof. destruct a as [| [] | | |]; simpl; congruence. Qed.

Lemma as_int_none_num (a : json) (x : Q) :
  as_int a = None -> to_num a = Some x -> a = JFloat x.
Proof. destruct a as [| [] | | |]; simpl; congruence. Qed.

Lemma as_int_number (a : json) (z : Z) :
  as_int a = Some z -> number_of (Val a) = Some (Int z).
Proof. destruct a as [| [] | | |]; simpl; congruence. Qed.

(** *** Rounding to binary64 *)

Lemma pow2_pos (e : Z) : (0 < pow2 e)%Q.
Proof. apply Qpower_0_lt. reflexivity. Qed.

Lemma pow2_le (e1 e2 : Z) : e1 <= e2 -> (pow2 e1 <= pow2 e2)%Q.
Proof. intros H. apply Qpower_le_compat_l; [exact H | discriminate]. Qed.

Lemma pow2_nonneg_Z (e : Z) : 0 <= e -> (pow2 e == inject_Z (2 ^ e))%Q.
Proof.
  intros H. unfold pow2. rewrite Zpower_Qpower by exact H. reflexivity.
Qed.

(** [floor_log2] is not above the logarithm. *)
Lemma floor_log2_le (a : Q) : (0 < a)%Q -> (pow2 (floor_log2 a) <= a)%Q.
Proof.
  intros Ha. unfold floor_log2.
  destruct (Qle_bool _ a) eqn:E; [apply Qle_bool_iff; exact E|].
  clear E. destruct a as [n d].
  assert (0 < n) as Hn by (unfold Qlt in Ha; cbn in Ha; lia).
  cbn [Qnum Qden].
  pose proof (Z.log2_nonneg n) as Hln.
  pose proof (Z.log2_nonneg (Zpos d)) as Hld.
  destruct (Z.log2_spec n Hn) as [Hn1 _].
  destruct (Z.log2_spec (Zpos d) ltac:(lia)) as [_ Hd2].
  replace (Z.log2 n - Z.log2 (Z.pos d) - 1)
    with (Z.log2 n - Z.succ (Z.log2 (Z.pos d))) by lia.
  unfold pow2. rewrite Qpower_minus by discriminate.
  fold (pow2 (Z.log2 n)). fold (pow2 (Z.succ (Z.log2 (Z.pos d)))).
  rewrite !pow2_nonneg_Z by lia.
  apply Qle_shift_div_r.
  - unfold Qlt. cbn [Qnum Qden inject_Z].
    assert (0 < 2 ^ Z.succ (Z.log2 (Z.pos d)))
      by (apply Z.pow_pos_nonneg; lia).
    lia.
  - unfold Qle. cbn [Qnum Qden Qmult inject_Z].
    assert (0 < 2 ^ Z.log2 n) as HX by (apply Z.pow_pos_nonneg; lia).
    revert Hn1 Hd2 HX.
    generalize (2 ^ Z.log2 n) (2 ^ Z.succ (Z.log2 (Z.pos d))).
    intros X Y Hn1 Hd2 HX. nia.
Qed.

Lemma round_half_even_floor (q : Q) : Qfloor q <= round_half_even q.
Proof.
  unfold round_half_even.
  destruct (_ ?= _)%Q; [destruct (Z.even _)|..]; lia.
Qed.

Lemma round_half_even_pos (q : Q) : (1 <= q)%Q -> 1 <= round_half_even q.
Proof.
  intros H. pose proof (round_half_even_floor q).
  pose proof (Qfloor_resp_le _ _ H) as Hf.
  change (Qfloor 1) with 1 in Hf. lia.
Qed.

Lemma round_half_even_int (q : Q) (m : Z) :
  (q == inject_Z m)%Q -> round_half_even q = m.
Proof.
  intros H. unfold round_half_even.
  assert (Qfloor q = m) as -> by (rewrite H; apply Qfloor_Z).
  assert ((q - inject_Z m ?= 1 # 2)%Q = Lt) as ->; [|reflexivity].
  apply Qlt_alt.
  assert (q - inject_Z m == 0)%Q as -> by (rewrite H; ring).
  reflexivity.
Qed.

(** What is not below the least positive binary64 value is not rounded
    to zero. *)
Lemma round_pos_pos (a : Q) : (pow2 (-1074) <= a)%Q -> (0 < round_pos a)%Q.
Proof.
  intros Hmin.
  assert (0 < a)%Q as Ha
    by (eapply Qlt_le_trans; [apply pow2_pos | exact Hmin]).
  unfold round_pos.
  set (u := Z.max (floor_log2 a - 52) (-1074)).
  assert (pow2 u <= a)%Q as Hu.
  { subst u.
    destruct (Z.max_spec (floor_log2 a - 52) (-1074)) as [[_ ->] | [_ ->]].
    - exact Hmin.
    - eapply Qle_trans; [|apply floor_log2_le; exact Ha]. apply pow2_le. lia. }
  assert (1 <= a / pow2 u)%Q as H1.
  { apply Qle_shift_div_l; [apply pow2_pos|]. rewrite Qmult_1_l. exact Hu. }
  apply round_half_even_pos in H1.
  apply Qmult_lt_0_compat; [|apply pow2_pos].
  unfold Qlt. cbn. lia.
Qed.

(** An integer below 2^53 is a binary64 value. *)
Lemma round_pos_int (d : Z) :
  0 < d < 2 ^ 53 -> (round_pos (inject_Z d) == inject_Z d)%Q.
Proof.
  intros [Hd Hlt]. unfold round_pos.
  set (e := floor_log2 (inject_Z d)).
  assert (e < 53) as He.
  { apply (Qpower_lt_compat_l_inv 2); [|reflexivity].
    eapply Qle_lt_trans; [apply floor_log2_le; unfold Qlt; cbn; lia|].
    fold (pow2 53). rewrite (pow2_nonneg_Z 53) by lia.
    unfold Qlt. cbn [Qnum Qden inject_Z]. lia. }
  set (u := Z.max (e - 52) (-1074)).
  assert (u <= 0) as Hu by (subst u; lia).
  assert (pow2 u == / inject_Z (2 ^ (- u)))%Q as Hpow.
  { replace u with (- - u) at 1 by lia. unfold pow2. rewrite Qpower_opp.
    fold (pow2 (- u)). rewrite pow2_nonneg_Z by lia. reflexivity. }
  assert (0 < 2 ^ (- u)) as Hpos by (apply Z.pow_pos_nonneg; lia).
  assert (inject_Z d / pow2 u == inject_Z (d * 2 ^ (- u)))%Q as Hq.
  { rewrite Hpow. unfold Qdiv. rewrite Qinv_involutive, inject_Z_mult.
    reflexivity. }
  rewrite (round_half_even_int _ _ Hq), Hpow, inject_Z_mult.
  field. intros H0. unfold Qeq in H0. cbn in H0. lia.
Qed.

Lemma round64_int (d : Z) :
  Z.abs d <= 2 ^ 53 ->
  exists r, round64 (inject_Z d) = Finite r /\ (r == inject_Z d)%Q.
Proof.
  intros Hd.
  assert (forall p, Z.pos p <= 2 ^ 53 ->
            Qle_bool (pow2 1024) (round_pos (inject_Z (Z.pos p))) = false /\
            (round_pos (inject_Z (Z.pos p)) == inject_Z (Z.pos p))%Q) as Hpos.
  { intros p Hp.
    assert (round_pos (inject_Z (Z.pos p)) == inject_Z (Z.pos p))%Q as Hr.
    { destruct (Z.eq_dec (Z.pos p) (2 ^ 53)) as [-> | Hne].
      - vm_compute. reflexivity.
      - apply round_pos_int. lia. }
    split; [|exact Hr].
    destruct (Qle_bool _ _) eqn:E; [|reflexivity].
    apply Qle_bool_iff in E. rewrite Hr in E. exfalso.
    apply (Qle_not_lt _ _ E).
    eapply Qle_lt_trans with (y := inject_Z (2 ^ 53)).
    - unfold Qle. cbn [Qnum Qden inject_Z]. lia.
    - vm_compute. reflexivity. }
  destruct d as [|p|p].
  - exists 0%Q. split; reflexivity.
  - destruct (Hpos p ltac:(lia)) as (Hov & Hr).
    exists (round_pos (inject_Z (Z.pos p))). split; [|exact Hr].
    cbv beta iota zeta delta [round64 Qnum inject_Z].
    fold (inject_Z (Z.pos p)). rewrite Hov. reflexivity.
  - destruct (Hpos p ltac:(lia)) as (Hov & Hr).
    exists (- round_pos (inject_Z (Z.pos p)))%Q. split.
    + cbv beta iota zeta delta [round64 Qnum inject_Z].
      change (- (Z.neg p # 1))%Q with (inject_Z (Z.pos p)).
      rewrite Hov. reflexivity.
    + rewrite Hr. reflexivity.
Qed.

Lemma Qopp_involutive_eq (q : Q) : (- - q)%Q = q.
Proof.
  destruct q as [n d]. unfold Qopp. cbn. rewrite Z.opp_involutive.
  reflexivity.
Qed.

(** Rounding is symmetric. *)
Lemma round64_opp (q : Q) : round64 (- q) = fneg (round64 q).
Proof.
  destruct q as [[|p|p] d].
  - reflexivity.
  - change (- (Z.pos p # d))%Q with (Z.neg p # d).
    cbv beta iota zeta delta [round64 Qnum].
    change (- (Z.neg p # d))%Q with (Z.pos p # d).
    destruct (Qle_bool _ _); reflexivity.
  - change (- (Z.neg p # d))%Q with (Z.pos p # d).
    cbv beta iota zeta delta [round64 Qnum].
    change (- (Z.neg p # d))%Q with (Z.pos p # d).
    destruct (Qle_bool _ _); cbn [fneg negb]; [reflexivity|].
    rewrite Qopp_involutive_eq. reflexivity.
Qed.

Lemma on_grid_min (q : Q) :
  NumberDefs.on_grid q -> (0 < q)%Q -> (pow2 (-1074) <= q)%Q.
Proof.
  intros [k Hk] Hq. rewrite Hk in Hq |- *.
  assert (0 < k) as Hkpos.
  { destruct (Z_lt_le_dec 0 k) as [H|H]; [exact H|]. exfalso.
    apply (Qlt_not_le _ _ Hq).
    assert (0 == 0 * pow2 (-1074))%Q as -> by ring.
    apply Qmult_le_compat_r; [|apply Qlt_le_weak, pow2_pos].
    unfold Qle. cbn. lia. }
  rewrite <- (Qmult_1_l (pow2 (-1074))) at 1.
  apply Qmult_le_compat_r; [|apply Qlt_le_weak, pow2_pos].
  unfold Qle. cbn. lia.
Qed.

Lemma on_grid_opp (q : Q) : NumberDefs.on_grid q -> NumberDefs.on_grid (- q).
Proof.
  intros [k Hk]. exists (- k). rewrite Hk, inject_Z_opp. ring.
Qed.

Lemma on_grid_int (z : Z) : NumberDefs.on_grid (inject_Z z).
Proof.
  exists (z * 2 ^ 1074). rewrite inject_Z_mult.
  assert (inject_Z (2 ^ 1074) * pow2 (-1074) == 1)%Q as H
    by (vm_compute; reflexivity).
  rewrite <- Qmult_assoc, H. ring.
Qed.

Lemma on_grid_plus (p q : Q) :
  NumberDefs.on_grid p -> NumberDefs.on_grid q -> NumberDefs.on_grid (p + q).
Proof.
  intros [k Hk] [m Hm]. exists (k + m). rewrite Hk, Hm, inject_Z_plus. ring.
Qed.

Lemma on_grid_eq (p q : Q) :
  (p == q)%Q -> NumberDefs.on_grid p -> NumberDefs.on_grid q.
Proof. intros E [k Hk]. exists k. rewrite <- E. exact Hk. Qed.

(** Rounding a binary64 sum keeps its sign. *)
Lemma round64_sign (q : Q) :
  NumberDefs.on_grid q -> NumberDefs.same_sign (round64 q) q.
Proof.
  intros Hg. unfold NumberDefs.same_sign.
  destruct q as [[|p|p] d]; cbv beta iota zeta delta [round64 Qnum].
  - assert (~ (0 < 0 # d)%Q) by (unfold Qlt; cbn; lia).
    assert (~ (0 # d < 0)%Q) by (unfold Qlt; cbn; lia).
    assert (~ (0 < 0)%Q) by (unfold Qlt; cbn; lia).
    tauto.
  - assert (0 < Z.pos p # d)%Q as Hq by (unfold Qlt; cbn; lia).
    pose proof (round_pos_pos _ (on_grid_min _ Hg Hq)) as Hr.
    destruct (Qle_bool _ _); [exact Hq|].
    assert (~ (Z.pos p # d < 0)%Q) by (unfold Qlt; cbn; lia).
    assert (~ (round_pos (Z.pos p # d) < 0)%Q)
      by (apply Qle_not_lt, Qlt_le_weak; exact Hr).
    tauto.
  - assert (Z.neg p # d < 0)%Q as Hq by (unfold Qlt; cbn; lia).
    assert (0 < - (Z.neg p # d))%Q as Hq' by (unfold Qlt; cbn; lia).
    pose proof (round_pos_pos _ (on_grid_min _ (on_grid_opp _ Hg) Hq'))
      as Hr.
    destruct (Qle_bool _ _); [exact Hq|].
    assert (~ (0 < Z.neg p # d)%Q) by (unfold Qlt; cbn; lia).
    assert (- round_pos (- (Z.neg p # d)) < 0)%Q as Hneg.
    { apply Qopp_lt_compat in Hr. exact Hr. }
    assert (~ (0 < - round_pos (- (Z.neg p # d)))%Q)
      by (apply Qle_not_lt, Qlt_le_weak; exact Hneg).
    tauto.
Qed.

Lemma lt_num (a b : json) (x y : Q) :
  to_num a = Some x -> to_num b = Some y -> lt a b = Ok (Qltb x y).
Proof.
  intros Ha Hb. unfold lt. rewrite Ha, Hb.
  destruct a; try discriminate Ha; reflexivity.
Qed.

Lemma gt_num (a b : json) (x y : Q) :
  to_num a = Some x -> to_num b = Some y -> gt a b = Ok (Qltb y x).
Proof. intros Ha Hb. unfold gt. apply lt_num; assumption. Qed.

Lemma for_each_app {S A} (body : S -> A -> result S) (l1 l2 : list A) (s : S) :
  for_each body (l1 ++ l2) s = for_each body l1 s ≫= for_each body l2.
Proof.
  revert s. induction l1 as [|a l1 IH]; intros s; [reflexivity|].
  simpl. destruct (body s a) as [s'|e]; [|reflexivity].
  rewrite !bind_Ok. apply IH.
Qed.

(** A property kept by every iteration holds when the loop ends. *)
Lemma for_each_inv {S A} (body : S -> A -> result S) (P : list A -> S -> Prop)
    (s0 : S) :
  P [] s0 ->
  (forall l a s s', P l s -> body s a = Ok s' -> P (l ++ [a])%list s') ->
  forall l s', for_each body l s0 = Ok s' -> P l s'.
Proof.
  intros H0 Hstep l. induction l as [|a l IH] using rev_ind; intros s'.
  - intros [= <-]. exact H0.
  - rewrite for_each_app.
    destruct (for_each body l s0) as [s|e] eqn:E; [|discriminate].
    rewrite bind_Ok. cbn [for_each].
    destruct (body s a) as [s''|e] eqn:Eb; [|discriminate].
    rewrite bind_Ok. intros [= <-]. eapply Hstep; eauto.
Qed.

(** A loop whose body never raises ends normally. *)
Lemma for_each_total {S A} (body : S -> A -> result S) (l : list A) (s : S) :
  (forall s a, exists s', body s a = Ok s') ->
  exists s', for_each body l s = Ok s'.
Proof.
  intros Hbody. revert s. induction l as [|a l IH]; intros s.
  - eexists; reflexivity.
  - cbn [for_each]. destruct (Hbody s a) as [s' ->]. rewrite bind_Ok.
    apply IH.
Qed.

End PyFacts.

(** * The two parts of an importer's [main]

    [main] ends normally exactly when the fill ends normally and the
    summary raises nothing, and then returns the state the fill left. *)

Module MainFacts.

Import Py PyFacts.

Lemma nflverse_main_parts (float_repr : Q -> string) (games : list dict)
    (sched : list Nflverse.sched_row) (st : Nflverse.fill_state) :
  Nflverse.main float_repr games sched = Ok st <->
  Nflverse.fill_games float_repr games sched = Ok st /\
  Nflverse.summary st = Ok tt.
Proof.
  unfold Nflverse.main.
  destruct (Nflverse.fill_games float_repr games sched) as [s|e];
    [rewrite bind_Ok|rewrite bind_Raise].
  - destruct (Nflverse.summary s) as [[]|e] eqn:Es;
      [rewrite bind_Ok|rewrite bind_Raise].
    + split; [intros [= <-]; split; [reflexivity|exact Es]
             |intros [[= <-] _]; reflexivity].
    + split; [discriminate|].
      intros [[= <-] H]. rewrite H in Es. discriminate.
  - split; [discriminate|intros [[=] _]].
Qed.

Lemma nflverse_summary_parts (st : Nflverse.fill_state) :
  Nflverse.summary st = Ok tt <->
  Nflverse.coverage (Nflverse.games st) = Ok tt /\
  (Nflverse.by_season st = ∅ \/ sorted_keys (Nflverse.by_season st) = Ok tt) /\
  Nflverse.spot_check (Nflverse.games st) = Ok tt.
Proof.
  unfold Nflverse.summary.
  destruct (Nflverse.coverage (Nflverse.games st)) as [[]|e];
    [rewrite bind_Ok|rewrite bind_Raise; split; [discriminate|intros [[=] _]]].
  case_bool_decide as Hb.
  - rewrite bind_Ok. split; [intros H; repeat split; auto|intros (_ & _ & H); exact H].
  - destruct (sorted_keys (Nflverse.by_season st)) as [[]|e];
      [rewrite bind_Ok|rewrite bind_Raise].
    + split; [intros H; repeat split; auto|intros (_ & _ & H); exact H].
    + split; [discriminate|intros (_ & [H|[=]] & _); contradiction].
Qed.

Section WithRuntime.

Variable int_of : string -> option Z.
Variable float_of : string -> option Q.
Variable iso_date_of : string -> option string.

Lemma spreadspoke_main_parts (games : list dict)
    (ss_rows : list Spreadspoke.csv_row) (st : Spreadspoke.fill_state) :
  Spreadspoke.main int_of float_of iso_date_of games ss_rows = Ok st <->
  Spreadspoke.fill_games int_of float_of iso_date_of games ss_rows = Ok st /\
  Spreadspoke.summary st = Ok tt.
Proof.
  unfold Spreadspoke.main.
  destruct (Spreadspoke.fill_games int_of float_of iso_date_of games ss_rows)
    as [s|e]; [rewrite bind_Ok|rewrite bind_Raise].
  - destruct (Spreadspoke.summary s) as [[]|e] eqn:Es;
      [rewrite bind_Ok|rewrite bind_Raise].
    + split; [intros [= <-]; split; [reflexivity|exact Es]
             |intros [[= <-] _]; reflexivity].
    + split; [discriminate|].
      intros [[= <-] H]. rewrite H in Es. discriminate.
  - split; [discriminate|intros [[=] _]].
Qed.

End WithRuntime.

Lemma spreadspoke_summary_parts (st : Spreadspoke.fill_state) :
  Spreadspoke.summary st = Ok tt <->
  Spreadspoke.coverage (Spreadspoke.games st) = Ok tt /\
  (Spreadspoke.by_season st = ∅ \/
   sorted_keys (Spreadspoke.by_season st) = Ok tt) /\
  Spreadspoke.spot_check (Spreadspoke.games st) = Ok tt.
Proof.
  unfold Spreadspoke.summary.
  destruct (Spreadspoke.coverage (Spreadspoke.games st)) as [[]|e];
    [rewrite bind_Ok|rewrite bind_Raise; split; [discriminate|intros [[=] _]]].
  case_bool_decide as Hb.
  - rewrite bind_Ok. split; [intros H; repeat split; auto|intros (_ & _ & H); exact H].
  - destruct (sorted_keys (Spreadspoke.by_season st)) as [[]|e];
      [rewrite bind_Ok|rewrite bind_Raise].
    + split; [intros H; repeat split; auto|intros (_ & _ & H); exact H].
    + split; [discriminate|intros (_ & [H|[=]] & _); contradiction].
Qed.

End MainFacts.

(** ** The outcome calculator *)

Module Outcome.
Import Py PyFacts NumberDefs.

Lemma sub_ints (a b : json) (x y : Z) :
  as_int a = Some x -> as_int b = Some y ->
  sub (Val a) (Val b) = Ok (Val (JInt (x - y))).
Proof.
  intros Ha Hb. unfold sub, arith.
  rewrite (as_int_number _ _ Ha), (as_int_number _ _ Hb). reflexivity.
Qed.

Lemma add_ints (d : Z) (b : json) (y : Z) :
  as_int b = Some y ->
  add (Val (JInt d)) (Val b) = Ok (Val (JInt (d + y))).
Proof.
  intros Hb. unfold add, arith. rewrite (as_int_number _ _ Hb).
  destruct b; try discriminate Hb; reflexivity.
Qed.

(** An integer that binary64 holds, plus a float. *)
Lemma add_int_float (d : Z) (z : Q) :
  Z.abs d <= 2 ^ 53 ->
  exists r, (r == inject_Z d)%Q /\
            add (Val (JInt d)) (Val (JFloat z))
              = Ok (value_of (round64 (r + z))).
Proof.
  intros Hd. destruct (round64_int d Hd) as (r & Hr & Er).
  exists r. split; [exact Er|].
  unfold add, arith. cbn [number_of to_float]. rewrite Hr. reflexivity.
Qed.

(** How a computed float compares with zero. *)
Lemma value_sign (x : float) (q : Q) :
  same_sign x q ->
  gt_value (value_of x) (Val (JInt 0)) = Ok (Qltb 0 q) /\
  lt_value (value_of x) (Val (JInt 0)) = Ok (Qltb q 0).
Proof.
  unfold same_sign. destruct x as [r | [] |]; cbn [value_of].
  - intros [Hpos Hneg]. unfold gt_value, lt_value.
    rewrite (lt_num (JInt 0) (JFloat r) 0 r), (lt_num (JFloat r) (JInt 0) r 0)
      by reflexivity.
    split; f_equal.
    + destruct (Qltb 0 q) eqn:E.
      * apply Qltb_lt. apply Hpos. apply Qltb_lt. exact E.
      * apply Bool.not_true_iff_false. intros H. apply Qltb_lt in H.
        apply Hpos in H. apply Qltb_lt in H. congruence.
    + destruct (Qltb q 0) eqn:E.
      * apply Qltb_lt. apply Hneg. apply Qltb_lt. exact E.
      * apply Bool.not_true_iff_false. intros H. apply Qltb_lt in H.
        apply Hneg in H. apply Qltb_lt in H. congruence.
  - intros Hq. unfold gt_value, lt_value. cbn.
    assert (Qltb 0 q = false) as -> by (apply Qltb_ge; lra).
    assert (Qltb q 0 = true) as -> by (apply Qltb_lt; exact Hq).
    split; reflexivity.
  - intros Hq. unfold gt_value, lt_value. cbn.
    assert (Qltb 0 q = true) as -> by (apply Qltb_lt; exact Hq).
    assert (Qltb q 0 = false) as -> by (apply Qltb_ge; lra).
    split; reflexivity.
  - intros [].
Qed.

(** The three signs of the margin, as the script tests them, on integer
    scores: with an integer spread the margin is computed exactly; with a
    float spread it is rounded, and has the sign of the exact margin when
    the difference of the scores is an integer that binary64 holds. *)
Lemma spread_result_of_margin (home_score away_score spread : json)
    (h a : Z) (s : Q) :
  as_int home_score = Some h -> as_int away_score = Some a ->
  to_num spread = Some s ->
  (as_int spread = None -> Z.abs (h - a) <= 2 ^ 53 /\ on_grid s) ->
  Nflverse.calculate_spread_result home_score away_score spread =
    Ok (JStr (if Qltb 0 (inject_Z h - inject_Z a + s) then "COVERED"
              else if Qltb (inject_Z h - inject_Z a + s) 0 then "LOST"
              else "PUSH")).
Proof.
  intros Hh Ha Hs Hfloat. unfold Nflverse.calculate_spread_result.
  assert (is_none home_score = false) as -> by (destruct home_score; easy).
  assert (is_none away_score = false) as -> by (destruct away_score; easy).
  assert (is_none spread = false) as -> by (destruct spread; easy).
  cbn [orb]. rewrite (sub_ints _ _ _ _ Hh Ha), bind_Ok.
  set (q := (inject_Z h - inject_Z a + s)%Q).
  assert (exists margin,
            add (Val (JInt (h - a))) (Val spread) = Ok margin /\
            gt_value margin (Val (JInt 0)) = Ok (Qltb 0 q) /\
            lt_value margin (Val (JInt 0)) = Ok (Qltb q 0))
    as (margin & -> & Hgt & Hlt).
  { destruct (as_int spread) as [k|] eqn:Ek.
    - exists (Val (JInt (h - a + k))). split; [apply add_ints; exact Ek|].
      assert (s = inject_Z k) as ->
        by (apply as_int_num in Ek; congruence).
      assert (inject_Z (h - a + k) == q)%Q as Eq.
      { subst q. rewrite inject_Z_plus. unfold Z.sub.
        rewrite inject_Z_plus, inject_Z_opp. ring. }
      unfold gt_value, lt_value.
      rewrite (lt_num (JInt 0) (JInt (h - a + k)) 0 (inject_Z (h - a + k))),
        (lt_num (JInt (h - a + k)) (JInt 0) (inject_Z (h - a + k)) 0)
        by reflexivity.
      split; f_equal; apply Qltb_congr; (exact Eq || reflexivity).
    - destruct (Hfloat eq_refl) as [Hd Hg].
      rewrite (as_int_none_num _ _ Ek Hs).
      destruct (add_int_float (h - a) s Hd) as (r & Er & ->).
      eexists. split; [reflexivity|]. apply value_sign.
      assert (r + s == q)%Q as Eq.
      { subst q. rewrite Er. unfold Z.sub.
        rewrite inject_Z_plus, inject_Z_opp. ring. }
      assert (on_grid (r + s)) as Hgrid.
      { apply on_grid_plus; [|exact Hg].
        apply (on_grid_eq (inject_Z (h - a))); [symmetry; exact Er|].
        apply on_grid_int. }
      pose proof (round64_sign _ Hgrid) as Hsign.
      unfold same_sign in *.
      destruct (round64 (r + s)) as [r' | [] |].
      + rewrite <- Eq. exact Hsign.
      + rewrite <- Eq. exact Hsign.
      + rewrite <- Eq. exact Hsign.
      + exact Hsign. }
  rewrite bind_Ok, Hgt, bind_Ok, Hlt.
  destruct (Qltb 0 q); [reflexivity|]. rewrite bind_Ok.
  destruct (Qltb q 0); reflexivity.
Qed.

(** C3, amended.  [calculate_spread_result] is the same function in both
    importers; it returns [None] as soon as a score or the spread is
    [None]; and on integer scores it returns COVERED, LOST or PUSH as the
    margin [(home_score - away_score) + spread] is positive, negative or
    zero, for every integer spread, and for every float spread when the
    difference of the scores is at most 2^53 in size, so that its
    conversion to [float] is exact. *)
Theorem spread_result_spec (home_score away_score spread : json) :
  Nflverse.calculate_spread_result = Spreadspoke.calculate_spread_result /\
  (home_score = JNull \/ away_score = JNull \/ spread = JNull ->
   Nflverse.calculate_spread_result home_score away_score spread = Ok JNull) /\
  (forall (h a : Z) (s : Q),
     as_int home_score = Some h -> as_int away_score = Some a ->
     to_num spread = Some s ->
     (as_int spread = None -> Z.abs (h - a) <= 2 ^ 53 /\ on_grid s) ->
     let margin := (inject_Z h - inject_Z a + s)%Q in
     (0 < margin ->
      Nflverse.calculate_spread_result home_score away_score spread
        = Ok (JStr "COVERED"))%Q /\
     (margin < 0 ->
      Nflverse.calculate_spread_result home_score away_score spread
        = Ok (JStr "LOST"))%Q /\
     (margin == 0 ->
      Nflverse.calculate_spread_result home_score away_score spread
        = Ok (JStr "PUSH"))%Q).
Proof.
  split; [reflexivity|]. split.
  - intros H. unfold Nflverse.calculate_spread_result.
    destruct H as [-> | [-> | ->]]; simpl.
    + destruct (is_none spread); reflexivity.
    + destruct (is_none spread), (is_none home_score); reflexivity.
    + reflexivity.
  - intros h a s Hh Ha Hs Hfloat margin.
    rewrite (spread_result_of_margin _ _ _ h a s Hh Ha Hs Hfloat).
    fold margin.
    repeat split; intros Hm.
    + apply Qltb_lt in Hm. rewrite Hm. reflexivity.
    + assert (Qltb 0 margin = false) as -> by (apply Qltb_ge; lra).
      apply Qltb_lt in Hm. rewrite Hm. reflexivity.
    + assert (Qltb 0 margin = false) as -> by (apply Qltb_ge; lra).
      assert (Qltb margin 0 = false) as -> by (apply Qltb_ge; lra).
      reflexivity.
Qed.

(** The divisional game of the specification: 27-24 with a home spread of
    -2.5 gives a margin of 0.5, COVERED. *)
Lemma spread_result_spec_witness :
  Spreadspoke.calculate_spread_result (JInt 27) (JInt 24) (JFloat (-2.5))
    = Ok (JStr "COVERED").
Proof.
  destruct (spread_result_spec (JInt 27) (JInt 24) (JFloat (-2.5)))
    as (<- & _ & H).
  destruct (H 27 24 (-2.5)%Q eq_refl eq_refl eq_refl) as (Hpos & _ & _).
  - intros _. split; [vm_compute; discriminate|].
    exists (-5 * 2 ^ 1073). vm_compute. reflexivity.
  - apply Hpos. reflexivity.
Defined.

(** C3 as stated fails on scores that binary64 does not hold: the
    difference 2^53 + 1 is converted to the float 2^53, the spread -2^53
    brings the margin to 0.0, and the result is PUSH, while the margin of
    the formula is 1. *)
Lemma spread_result_counterexample :
  Nflverse.calculate_spread_result
    (JInt 9007199254740993) (JInt 0) (JFloat (-9007199254740992))
    = Ok (JStr "PUSH") /\
  (0 < inject_Z 9007199254740993 - inject_Z 0 + -9007199254740992)%Q /\
  Spreadspoke.calculate_spread_result
    (JInt 9007199254740993) (JInt 0) (JFloat (-9007199254740992))
    = Ok (JStr "PUSH").
Proof. repeat split; vm_compute; reflexivity. Qed.

(** Scores that are floats are subtracted as floats, and the difference
    is rounded before the spread is added. *)
Example float_scores_rounded :
  Nflverse.calculate_spread_result
    (JFloat 10000000000000000) (JFloat 1) (JFloat (-10000000000000000))
    = Ok (JStr "PUSH") /\
  (10000000000000000 - 1 + -10000000000000000 < 0)%Q.
Proof. split; vm_compute; reflexivity. Qed.

End Outcome.

(** ** The join key *)

Module JoinKey.
Import Py Normalize JoinKeyDefs.

Lemma playoff_week_lookup (w : Z) : PLAYOFF_WEEK_MAP !! w = playoff_label w.
Proof.
  unfold PLAYOFF_WEEK_MAP, playoff_label. cbn [list_to_map foldr uncurry].
  rewrite !lookup_insert, lookup_empty.
  repeat case_decide; simpl in *; subst; try reflexivity;
    repeat match goal with
           | |- context [?a =? ?b] =>
               destruct (Z.eqb_spec a b); try congruence; try lia
           end; reflexivity.
Qed.

Section WithRepr.

Variable float_repr : Q -> string.

(** C7. In the postseason the week of the join key is the label of the
    round (18 WildCard, 19 Division, 20 ConfChamp, 21 and 22 SuperBowl)
    and a week without a label is printed as it is; outside the postseason
    the week is always printed as it is. *)
Theorem week_key_spec (season_type week : json) :
  week_key float_repr season_type week =
    if eq_str season_type "POST"
    then match to_int week ≫= playoff_label with
         | Some label => label
         | None => Py.str float_repr week
         end
    else Py.str float_repr week.
Proof.
  unfold week_key. destruct (eq_str season_type "POST"); [|reflexivity].
  destruct (to_int week) as [w|]; [|reflexivity].
  cbn [mbind option_bind]. rewrite playoff_week_lookup.
  destruct (playoff_label w); reflexivity.
Qed.

End WithRepr.

(** The five labelled weeks; a postseason week without a label and a
    regular-season week are printed as decimal numerals. *)
Example week_key_labels (float_repr : Q -> string) :
  map (week_key float_repr (JStr "POST")) [JInt 18; JInt 19; JInt 20; JInt 21; JInt 22]
    = ["WildCard"; "Division"; "ConfChamp"; "SuperBowl"; "SuperBowl"]
  /\ week_key float_repr (JStr "POST") (JInt 23) = "23"
  /\ week_key float_repr (JStr "REG") (JInt 18) = "18".
Proof. repeat split. Qed.

End JoinKey.

(** ** The line convention of the Spreadspoke importer *)

Module LineConvention.
Import Py PyFacts Spreadspoke LineDefs.

Lemma eqb_false_ne (s t : string) : s <> t -> String.eqb s t = false.
Proof. intros H. apply String.eqb_neq. exact H. Qed.

(** What [home_spread] answers, case by case. *)
Lemma home_spread_pick (row : csv_row) (home_name home_canonical : string)
    (spread_fav : Q) :
  strip (cell row "team_favorite_id") = "PICK"
  \/ strip (cell row "team_favorite_id") = "" ->
  home_spread row home_name home_canonical spread_fav = Ok (Some 0%Q).
Proof.
  intros H. unfold home_spread.
  destruct H as [-> | ->]; reflexivity.
Qed.

Lemma home_spread_inv (row : csv_row) (home_name home_canonical : string)
    (spread_fav s : Q) :
  SPREADSPOKE_NAME_TO_CANONICAL !! home_name = Some home_canonical ->
  home_spread row home_name home_canonical spread_fav = Ok (Some s) ->
  (named_favorite row = None /\ s = 0%Q) \/
  (named_favorite row = Some home_canonical /\ s = (- spread_fav)%Q) \/
  (named_favorite row = Some (away_franchise row) /\ s = spread_fav).
Proof.
  intros Hhome. unfold home_spread, named_favorite, away_franchise.
  destruct (String.eqb _ "PICK" || String.eqb _ "") eqn:Epick.
  { intros [= <-]. left. split; reflexivity. }
  destruct (SPREADSPOKE_ABBREV_MAP !! _) as [f|]; [|discriminate].
  destruct (String.eqb f ""); [discriminate|].
  unfold item, cell.
  destruct (row !! "team_away") as [away_name|]; [|discriminate].
  rewrite bind_Ok. cbn [default from_option id].
  destruct (String.eqb_spec f home_canonical) as [->|Hh].
  { intros [= <-]. right. left. split; reflexivity. }
  case_bool_decide as Ha.
  { intros [= <-]. right. right. rewrite <- Ha. split; reflexivity. }
  rewrite Hhome. cbn [default from_option id].
  destruct (String.eqb_spec f home_canonical) as [->|_]; [contradiction|].
  destruct (String.eqb_spec f
              (default away_name (SPREADSPOKE_NAME_TO_CANONICAL !! away_name)))
    as [->|_]; [|discriminate].
  intros [= <-]. right. right. split; reflexivity.
Qed.

Lemma home_spread_neither (row : csv_row) (home_name home_canonical : string)
    (spread_fav : Q) (away_name : string) :
  SPREADSPOKE_NAME_TO_CANONICAL !! home_name = Some home_canonical ->
  row !! "team_away" = Some away_name ->
  neither_side row home_canonical ->
  home_spread row home_name home_canonical spread_fav = Ok None.
Proof.
  intros Hhome Haway (Hp & He & Hf). unfold home_spread.
  rewrite (eqb_false_ne _ _ Hp), (eqb_false_ne _ _ He). cbn [orb].
  destruct (SPREADSPOKE_ABBREV_MAP !! _) as [f|]; [|reflexivity].
  destruct (Hf f eq_refl) as [Hh Ha].
  destruct (String.eqb f ""); [reflexivity|].
  unfold item. rewrite Haway, bind_Ok.
  unfold away_franchise, cell in Ha. rewrite Haway in Ha.
  cbn [default from_option id] in Ha.
  rewrite Hhome. cbn [default from_option id].
  rewrite (eqb_false_ne _ _ Hh), (eqb_false_ne _ _ Ha).
  case_bool_decide as Hc; [|reflexivity].
  rewrite <- Hc in Ha. cbn [default from_option id] in Ha. contradiction.
Qed.

Section WithRuntime.

Variable int_of : string -> option Z.
Variable float_of : string -> option Q.
Variable iso_date_of : string -> option string.

Abbreviation row_entry := (Spreadspoke.row_entry int_of float_of iso_date_of).
Abbreviation build_index := (Spreadspoke.build_index int_of float_of iso_date_of).
Abbreviation main := (Spreadspoke.main int_of float_of iso_date_of).
Abbreviation reaches_side := (LineDefs.reaches_side int_of float_of iso_date_of).

(** An indexed row went through [home_spread]. *)
Lemma row_entry_inv (row : csv_row) (date_str home_canonical : string)
    (e : entry) :
  row_entry row = Ok (Some (date_str, home_canonical, e)) ->
  exists home_name spread_text spread_fav s,
    row !! "team_home" = Some home_name /\
    SPREADSPOKE_NAME_TO_CANONICAL !! home_name = Some home_canonical /\
    row !! "spread_favorite" = Some spread_text /\
    float_of spread_text = Some spread_fav /\
    home_spread row home_name home_canonical spread_fav = Ok (Some s) /\
    spread e = JFloat s.
Proof.
  unfold Spreadspoke.row_entry, item, parse.
  destruct (row !! "schedule_season") as [season_text|]; [|discriminate].
  rewrite bind_Ok.
  destruct (int_of season_text); [|discriminate]. rewrite bind_Ok.
  destruct (row !! "team_home") as [home_name|]; [|discriminate].
  rewrite bind_Ok.
  destruct (SPREADSPOKE_NAME_TO_CANONICAL !! home_name) as [hc|] eqn:Ehome;
    [|discriminate].
  destruct (String.eqb hc ""); [discriminate|].
  destruct (row !! "schedule_date") as [date_text|]; [|discriminate].
  rewrite bind_Ok.
  destruct (iso_date_of date_text) as [d|]; [|discriminate].
  destruct (row !! "spread_favorite") as [spread_text|] eqn:Espread;
    [|discriminate].
  rewrite bind_Ok.
  destruct (float_of spread_text) as [spread_fav|] eqn:Efloat; [|discriminate].
  rewrite bind_Ok.
  match goal with
  | |- (?ou ≫= _) = _ -> _ => destruct ou as [ou_line|]; [|discriminate]
  end.
  rewrite bind_Ok.
  destruct (home_spread row home_name hc spread_fav) as [[s|]|] eqn:Es;
    try discriminate.
  rewrite bind_Ok. intros [= <- <- <-].
  exists home_name, spread_text, spread_fav, s.
  repeat split; assumption || reflexivity.
Qed.

(** A row that reaches the choice of a side writes the spread that
    [home_spread] answers, or nothing. *)
Lemma row_entry_reaches (row : csv_row) (home_name home_canonical : string)
    (spread_fav : Q) :
  reaches_side row home_name home_canonical spread_fav ->
  exists date_str ou_line,
    row_entry row =
      home_spread row home_name home_canonical spread_fav
        ≫= fun hs : option Q =>
      match hs with
      | None => Ok None
      | Some hs =>
          Ok (Some (date_str, home_canonical, Entry (JFloat hs) ou_line))
      end.
Proof.
  intros ((season_text & season & Hs1 & Hs2) & Hhome & Hcanon & Hne
          & (date_text & date_str & Hd1 & Hd2)
          & (spread_text & Hf1 & Hf2) & Hou).
  unfold Spreadspoke.row_entry, item, parse.
  rewrite Hs1, bind_Ok, Hs2, bind_Ok, Hhome, bind_Ok, Hcanon.
  rewrite (eqb_false_ne _ _ Hne).
  rewrite Hd1, bind_Ok, Hd2, Hf1, bind_Ok, Hf2, bind_Ok.
  destruct Hou as [Hou | [ou Hou]].
  - rewrite Hou. cbn [String.eqb negb]. rewrite bind_Ok.
    exists date_str, JNull. reflexivity.
  - destruct (String.eqb (strip (cell row "over_under_line")) "") eqn:E.
    + cbn [negb]. rewrite bind_Ok. exists date_str, JNull. reflexivity.
    + cbn [negb]. unfold cell in Hou.
      destruct (row !! "over_under_line") as [ou_text|] eqn:Eou.
      * cbn [default from_option id] in Hou.
        rewrite bind_Ok, Hou, !bind_Ok.
        exists date_str, (JFloat ou). reflexivity.
      * unfold cell in E. rewrite Eou in E. discriminate E.
Qed.

(** C10. A row whose favourite is "PICK" or empty gets the home spread 0.0,
    whatever its [spread_favorite] cell holds: [home_spread] answers 0 for
    every magnitude, and the entry the row writes carries 0. *)
Theorem pick_spread_zero (row : csv_row) :
  cell row "team_favorite_id" = "PICK" \/ cell row "team_favorite_id" = "" ->
  (forall home_name home_canonical spread_fav,
     home_spread row home_name home_canonical spread_fav = Ok (Some 0%Q)) /\
  (forall date_str home_canonical e,
     row_entry row = Ok (Some (date_str, home_canonical, e)) ->
     spread e = JFloat 0).
Proof.
  intros H.
  assert (strip (cell row "team_favorite_id") = "PICK"
          \/ strip (cell row "team_favorite_id") = "") as Hs.
  { destruct H as [-> | ->]; [left | right]; reflexivity. }
  split.
  - intros. apply home_spread_pick. exact Hs.
  - intros date_str home_canonical e He.
    destruct (row_entry_inv _ _ _ _ He)
      as (home_name & spread_text & spread_fav & s & _ & _ & _ & _ & Hhs & ->).
    rewrite (home_spread_pick _ _ _ _ Hs) in Hhs. congruence.
Qed.

(** C6, amended.  For a pick, and for a favourite whose spread is strictly
    negative, the sign of the home spread written by the row names the
    favourite of the row again: positive for the home franchise, negative
    for the away franchise, zero for no favourite. *)
Theorem favorite_round_trip (row : csv_row) (date_str home_canonical : string)
    (e : entry) (spread_fav : Q) :
  row_entry row = Ok (Some (date_str, home_canonical, e)) ->
  float_of (cell row "spread_favorite") = Some spread_fav ->
  named_favorite row = None \/ (spread_fav < 0)%Q ->
  exists s, spread e = JFloat s /\
            favored s home_canonical (away_franchise row) = named_favorite row.
Proof.
  intros He Hf Hneg.
  destruct (row_entry_inv _ _ _ _ He)
    as (home_name & spread_text & m & s & _ & Hhome & Hcell & Hm & Hhs & Hs).
  unfold cell in Hf. rewrite Hcell in Hf. cbn [default from_option id] in Hf.
  assert (m = spread_fav) as -> by congruence.
  exists s. split; [exact Hs|].
  unfold favored.
  destruct (home_spread_inv _ _ _ _ _ Hhome Hhs)
    as [[-> ->] | [[Hfav ->] | [Hfav ->]]].
  - reflexivity.
  - rewrite Hfav in *. destruct Hneg as [Hnone | Hneg]; [discriminate Hnone|].
    assert (Qltb 0 (- spread_fav) = true) as -> by (apply Qltb_lt; lra).
    reflexivity.
  - rewrite Hfav in *. destruct Hneg as [Hnone | Hneg]; [discriminate Hnone|].
    assert (Qltb 0 spread_fav = false) as -> by (apply Qltb_ge; lra).
    assert (Qltb spread_fav 0 = true) as -> by (apply Qltb_lt; lra).
    reflexivity.
Qed.

Lemma index_row_nothing (ss_index : index) (row : csv_row) :
  row_entry row = Ok None ->
  Spreadspoke.index_row int_of float_of iso_date_of ss_index row = Ok ss_index.
Proof. intros H. unfold Spreadspoke.index_row. rewrite H. reflexivity. Qed.

Lemma build_index_without (l1 l2 : list csv_row) (row : csv_row) :
  row_entry row = Ok None ->
  build_index (l1 ++ row :: l2) = build_index (l1 ++ l2).
Proof.
  intros H. unfold Spreadspoke.build_index.
  rewrite !list.filter_app, list.filter_cons.
  case_decide; [|reflexivity].
  rewrite !for_each_app.
  destruct (for_each _ (filter _ l1) ∅) as [idx|err]; [|reflexivity].
  rewrite !bind_Ok. cbn [for_each].
  rewrite (index_row_nothing _ _ H), bind_Ok. reflexivity.
Qed.

(** C4, amended. A row whose favourite is neither team of its game is
    passed over in silence: it writes no index entry and raises nothing,
    and the whole run (the filled games and every counter) is the run
    without the row. *)
Theorem neither_side_skipped (row : csv_row) (home_name home_canonical : string)
    (spread_fav : Q) (away_name : string) :
  reaches_side row home_name home_canonical spread_fav ->
  row !! "team_away" = Some away_name ->
  neither_side row home_canonical ->
  row_entry row = Ok None /\
  forall (games : list dict) (before after : list csv_row),
    main games (before ++ row :: after) = main games (before ++ after).
Proof.
  intros Hreach Haway Hneither.
  assert (row_entry row = Ok None) as Hnone.
  { destruct (row_entry_reaches _ _ _ _ Hreach) as (d & ou & ->).
    destruct Hreach as (_ & _ & Hcanon & _).
    rewrite (home_spread_neither _ _ _ _ _ Hcanon Haway Hneither).
    reflexivity. }
  split; [exact Hnone|].
  intros games before after. unfold Spreadspoke.main, Spreadspoke.fill_games.
  rewrite (build_index_without _ _ _ Hnone). reflexivity.
Qed.

End WithRuntime.

Abbreviation run_row :=
  (Spreadspoke.row_entry Parse.decimal_int Parse.decimal_float Parse.mdY_to_iso).
Abbreviation run :=
  (Spreadspoke.main Parse.decimal_int Parse.decimal_float Parse.mdY_to_iso).

Example home_favorite_entry :
  run_row miami_by_3_5
    = Ok (Some ("1980-09-07", "Miami Dolphins",
                Entry (JFloat 3.5) (JFloat 41.5))).
Proof. vm_compute. reflexivity. Qed.

Example away_favorite_entry :
  run_row buffalo_by_3_5
    = Ok (Some ("1980-09-07", "Miami Dolphins",
                Entry (JFloat (-3.5)) (JFloat 41.5))).
Proof. vm_compute. reflexivity. Qed.

Lemma pick_spread_zero_witness :
  cell pick_row "team_favorite_id" = "PICK" /\
  home_spread pick_row "Miami Dolphins" "Miami Dolphins" (-3.5) = Ok (Some 0%Q) /\
  run_row pick_row
    = Ok (Some ("1980-09-07", "Miami Dolphins", Entry (JFloat 0) (JFloat 41.5))).
Proof.
  split; [reflexivity|].
  destruct (pick_spread_zero Parse.decimal_int Parse.decimal_float
              Parse.mdY_to_iso pick_row (or_introl eq_refl)) as [H _].
  split; [apply H | vm_compute; reflexivity].
Defined.

Lemma favorite_round_trip_witness :
  exists s, spread (Entry (JFloat 3.5) (JFloat 41.5)) = JFloat s /\
            favored s "Miami Dolphins" (away_franchise miami_by_3_5)
              = named_favorite miami_by_3_5.
Proof.
  apply (favorite_round_trip Parse.decimal_int Parse.decimal_float
           Parse.mdY_to_iso miami_by_3_5 "1980-09-07" "Miami Dolphins"
           (Entry (JFloat 3.5) (JFloat 41.5)) (-3.5)%Q).
  - vm_compute. reflexivity.
  - vm_compute. reflexivity.
  - right. reflexivity.
Defined.

(** C6 as stated fails at a spread of zero against a named favourite: the
    row names Miami, the spread it writes is 0, and the sign of 0 names no
    favourite. *)
Lemma favorite_round_trip_counterexample :
  named_favorite miami_by_0 = Some "Miami Dolphins" /\
  Parse.decimal_float (cell miami_by_0 "spread_favorite") = Some 0%Q /\
  (0 <= 0)%Q /\
  run_row miami_by_0
    = Ok (Some ("1980-09-07", "Miami Dolphins", Entry (JFloat (- 0)) (JFloat 41.5))) /\
  favored (- 0) "Miami Dolphins" (away_franchise miami_by_0) = None /\
  favored (- 0) "Miami Dolphins" (away_franchise miami_by_0)
    <> named_favorite miami_by_0.
Proof.
  repeat split; try (vm_compute; reflexivity); try discriminate.
Qed.

Lemma dallas_reaches_side :
  reaches_side Parse.decimal_int Parse.decimal_float Parse.mdY_to_iso
    dallas_row "Miami Dolphins" "Miami Dolphins" (-3.5)%Q.
Proof.
  repeat split.
  - exists "1980", 1980. split; vm_compute; reflexivity.
  - discriminate.
  - exists "9/7/1980", "1980-09-07". split; vm_compute; reflexivity.
  - exists "-3.5". split; vm_compute; reflexivity.
  - right. exists 41.5%Q. vm_compute. reflexivity.
Defined.

Lemma dallas_neither_side : neither_side dallas_row "Miami Dolphins".
Proof.
  unfold neither_side.
  replace (strip (cell dallas_row "team_favorite_id")) with "DAL"
    by (vm_compute; reflexivity).
  repeat split; try discriminate.
  - intros ->. vm_compute in H. discriminate H.
  - intros ->. vm_compute in H. discriminate H.
Defined.

Lemma neither_side_skipped_witness :
  run_row dallas_row = Ok None /\
  run [miami_game] ([] ++ dallas_row :: []) = run [miami_game] ([] ++ []).
Proof.
  destruct (neither_side_skipped Parse.decimal_int Parse.decimal_float
              Parse.mdY_to_iso dallas_row "Miami Dolphins" "Miami Dolphins"
              (-3.5)%Q "Buffalo Bills" dallas_reaches_side eq_refl
              dallas_neither_side) as [H1 H2].
  split; [exact H1 | apply H2].
Defined.

(** C4 as stated fails: the row whose favourite is Dallas raises nothing
    and is reported nowhere.  The run ends normally, the game keeps its
    empty betting fields, and the final state (games and counters) is the
    one of the run on no row at all. *)
Lemma ambiguous_favorite_counterexample :
  neither_side dallas_row "Miami Dolphins" /\
  run [miami_game] [dallas_row]
    = Ok (FillState [miami_game] 0 1 0 ∅) /\
  run [miami_game] [dallas_row] = run [miami_game] [].
Proof.
  split; [exact dallas_neither_side|].
  split; vm_compute; reflexivity.
Qed.

End LineConvention.

(** ** The join of player rows with games *)

Module Join.
Import Py PyFacts Normalize JoinDefs.

(** *** The loop raises nothing on well-typed games *)

Lemma game_result_total (ts os_ : json) :
  num_or_null ts = true -> num_or_null os_ = true ->
  exists r, game_result ts os_ = Ok r.
Proof.
  intros Ht Ho. unfold game_result.
  destruct (is_none ts) eqn:Et; [eexists; reflexivity|].
  destruct (is_none os_) eqn:Eo; [eexists; reflexivity|].
  cbn [negb andb].
  assert (exists x, to_num ts = Some x) as [x Hx]
    by (destruct ts; try discriminate; eexists; reflexivity).
  assert (exists y, to_num os_ = Some y) as [y Hy]
    by (destruct os_; try discriminate; eexists; reflexivity).
  rewrite (gt_num _ _ _ _ Hx Hy), bind_Ok.
  destruct (Qltb y x); [eexists; reflexivity|].
  rewrite (lt_num _ _ _ _ Hx Hy), bind_Ok.
  destruct (Qltb x y); eexists; reflexivity.
Qed.

Lemma team_spread_total (raw_spread : json) (is_home : bool) :
  num_or_null raw_spread = true ->
  exists sp, team_spread raw_spread is_home = Ok sp.
Proof.
  intros H. unfold team_spread.
  destruct raw_spread, is_home; try discriminate; eexists; reflexivity.
Qed.

Lemma home_or_away_total (team_canonical : string) (game : option dict) :
  (forall g, game = Some g -> game_ok g) ->
  exists b, home_or_away team_canonical game = Ok b.
Proof.
  intros Hok. unfold home_or_away.
  destruct game as [g|]; [|eexists; reflexivity].
  destruct (Hok g eq_refl) as (Hh & Ha & _).
  destruct (dict_truthy g); [|eexists; reflexivity].
  destruct (get_or g "homeTeamCanonical" (JStr "")) as [| | | |h];
    try discriminate Hh.
  destruct (get_or g "awayTeamCanonical" (JStr "")) as [| | | |a];
    try discriminate Ha.
  destruct (eq_str (JStr h) team_canonical); [eexists; reflexivity|].
  destruct (eq_str (JStr a) team_canonical); [eexists; reflexivity|].
  cbn [lower_of]. rewrite bind_Ok.
  destruct (contains _ (lower h)); [eexists; reflexivity|].
  rewrite bind_Ok.
  destruct (contains _ (lower a)); eexists; reflexivity.
Qed.

(** *** What the two branches write *)

Ltac lookup_inserts :=
  repeat first
    [ rewrite lookup_insert_eq
    | rewrite lookup_insert_ne by (discriminate || congruence) ].

Ltac split_not_elem H :=
  repeat (apply not_elem_of_cons in H;
          let H1 := fresh "Hne" in destruct H as [H1 H]).

Lemma with_game_context_spec (g : dict) (is_home : bool) (t r : dict) :
  with_game_context g is_home t = Ok r ->
  drawn_from g is_home r /\
  (forall k, k ∉ context_fields -> r !! k = t !! k).
Proof.
  unfold with_game_context, drawn_from.
  assert (forall (d : dict) a b x y,
            a <> b -> get (<[b := y]> (<[a := x]> d)) a = x) as Hget1.
  { intros. unfold get. rewrite lookup_insert_ne, lookup_insert_eq by auto.
    reflexivity. }
  assert (forall (d : dict) b y, get (<[b := y]> d) b = y) as Hget2.
  { intros. unfold get. rewrite lookup_insert_eq. reflexivity. }
  destruct is_home.
  - rewrite Hget1, Hget2 by discriminate.
    destruct (game_result _ _) as [res|]; [|discriminate]. rewrite bind_Ok.
    destruct (team_spread _ _) as [sp|]; [|discriminate]. rewrite bind_Ok.
    intros [= <-]. split.
    + exists res, sp. split; [reflexivity|]. split; [reflexivity|].
      unfold context_of. repeat constructor; cbn [fst snd]; lookup_inserts;
        reflexivity.
    + intros k Hk. unfold context_fields in Hk. split_not_elem Hk.
      lookup_inserts. reflexivity.
  - rewrite Hget1, Hget2 by discriminate.
    destruct (game_result _ _) as [res|]; [|discriminate]. rewrite bind_Ok.
    destruct (team_spread _ _) as [sp|]; [|discriminate]. rewrite bind_Ok.
    intros [= <-]. split.
    + exists res, sp. split; [reflexivity|]. split; [reflexivity|].
      unfold context_of. repeat constructor; cbn [fst snd]; lookup_inserts;
        reflexivity.
    + intros k Hk. unfold context_fields in Hk. split_not_elem Hk.
      lookup_inserts. reflexivity.
Qed.

Lemma with_game_context_total (g : dict) (is_home : bool) (t : dict) :
  game_ok g -> exists r, with_game_context g is_home t = Ok r.
Proof.
  intros (_ & _ & Hhs & Has & Hsp). unfold with_game_context.
  assert (forall (d : dict) a b x y,
            a <> b -> get (<[b := y]> (<[a := x]> d)) a = x) as Hget1.
  { intros. unfold get. rewrite lookup_insert_ne, lookup_insert_eq by auto.
    reflexivity. }
  assert (forall (d : dict) b y, get (<[b := y]> d) b = y) as Hget2.
  { intros. unfold get. rewrite lookup_insert_eq. reflexivity. }
  destruct (team_spread_total (get g "spread") is_home Hsp) as [sp Esp].
  destruct is_home; rewrite Hget1, Hget2 by discriminate.
  - destruct (game_result_total _ _ Hhs Has) as [res ->].
    rewrite bind_Ok, Esp, bind_Ok. eexists; reflexivity.
  - destruct (game_result_total _ _ Has Hhs) as [res ->].
    rewrite bind_Ok, Esp, bind_Ok. eexists; reflexivity.
Qed.

Lemma without_game_context_spec (season_type : json) (t : dict) :
  Forall (fun k => without_game_context season_type t !! k =
                   Some (if String.eqb k "isPlayoff"
                         then JBool (eq_str season_type "POST")
                         else JNull))
         context_fields /\
  (forall k, k ∉ context_fields ->
             without_game_context season_type t !! k = t !! k).
Proof.
  unfold without_game_context. split.
  - unfold context_fields. repeat constructor; lookup_inserts; reflexivity.
  - intros k Hk. unfold context_fields in Hk. split_not_elem Hk.
    lookup_inserts. reflexivity.
Qed.

(** *** One iteration *)

Section WithRepr.

Variable float_repr : Q -> string.

Abbreviation str := (Py.str float_repr).
Abbreviation step := (Normalize.step float_repr).
Abbreviation main := (Normalize.main float_repr).
Abbreviation index_games := (Normalize.index_games float_repr).
Abbreviation player_part := (JoinDefs.player_part float_repr).
Abbreviation game_of := (JoinDefs.game_of float_repr).

Lemma index_games_values (P : dict -> Prop) (games : list dict)
    (acc : gmap string dict) :
  (forall k g, acc !! k = Some g -> P g) ->
  Forall P games ->
  forall k g, foldl (index_game float_repr) acc games !! k = Some g -> P g.
Proof.
  intros Hacc Hall. revert acc Hacc.
  induction Hall as [|g0 games Hg0 _ IH]; intros acc Hacc; [exact Hacc|].
  cbn [foldl]. apply IH. intros k g. unfold index_game.
  destruct (_ || _); [apply Hacc|].
  rewrite !lookup_insert. repeat case_decide; try congruence. apply Hacc.
Qed.

Lemma index_games_elem (games : list dict) (k : string) (g : dict) :
  index_games games !! k = Some g -> g ∈ games.
Proof.
  apply (index_games_values (fun g => g ∈ games)).
  - intros k' g'. rewrite lookup_empty. discriminate.
  - apply list.Forall_forall. auto.
Qed.

Lemma game_of_indexed (game_by_key : gmap string dict) (stat : dict)
    (team_canonical : string) (g : dict) :
  game_of game_by_key stat team_canonical = Some g ->
  exists k, game_by_key !! k = Some g.
Proof.
  unfold game_of, find_game.
  destruct (game_truthy _); intros H; eexists; exact H.
Qed.

Lemma step_skipped (meta_by_id : gmap pykey dict)
    (snap_by_key game_by_key : gmap string dict) (st : state) (stat : dict) :
  emitted stat = false ->
  step meta_by_id snap_by_key game_by_key st stat = Ok (skip_unmatched st).
Proof.
  unfold emitted, Normalize.step.
  destruct (missing_identity stat); [reflexivity|].
  destruct (team_canonical_of stat); [|reflexivity].
  cbn [negb andb]. intros H. apply bool_decide_eq_false in H.
  exfalso. apply H. eexists; reflexivity.
Qed.

Lemma emitted_inv (stat : dict) :
  emitted stat = true ->
  missing_identity stat = false /\
  exists team_canonical, team_canonical_of stat = Some team_canonical.
Proof.
  unfold emitted. destruct (missing_identity stat); [discriminate|].
  cbn [negb andb]. intros H. apply bool_decide_eq_true in H.
  destruct H as [tc H]. split; [reflexivity|]. exists tc. exact H.
Qed.

(** An emitted row ends in exactly one of the two branches. *)
Lemma step_emitted (meta_by_id : gmap pykey dict)
    (snap_by_key game_by_key : gmap string dict) (st st' : state)
    (stat : dict) (team_canonical : string) :
  missing_identity stat = false ->
  team_canonical_of stat = Some team_canonical ->
  step meta_by_id snap_by_key game_by_key st stat = Ok st' ->
  let t := player_part meta_by_id snap_by_key stat team_canonical in
  (exists g b r,
     game_of game_by_key stat team_canonical = Some g /\
     home_or_away team_canonical (Some g) = Ok (Some b) /\
     with_game_context g b t = Ok r /\
     st' = State (results st ++ [r]) (S (matched st)) (unmatched st)
                 (unmatched_examples st)) \/
  (results st' =
     (results st ++ [without_game_context (get stat "season_type") t])%list /\
   matched st' = matched st /\
   unmatched st' = S (unmatched st)).
Proof.
  intros Hid Htc. unfold Normalize.step. rewrite Hid, Htc.
  fold (game_of game_by_key stat team_canonical).
  fold (player_part meta_by_id snap_by_key stat team_canonical).
  destruct (home_or_away team_canonical _) as [is_home|] eqn:Eh;
    [|discriminate].
  rewrite bind_Ok. intros Hstep.
  destruct (game_of game_by_key stat team_canonical) as [g|] eqn:Eg;
    [|right; injection Hstep as <-; auto].
  destruct is_home as [b|]; [|right; injection Hstep as <-; auto].
  destruct (dict_truthy g); [|right; injection Hstep as <-; auto].
  destruct (with_game_context g b _) as [r|] eqn:Er; [|discriminate].
  rewrite bind_Ok in Hstep. injection Hstep as <-.
  left. exists g, b, r. auto.
Qed.

Lemma step_total (meta_by_id : gmap pykey dict)
    (snap_by_key game_by_key : gmap string dict) (st : state) (stat : dict) :
  (forall k g, game_by_key !! k = Some g -> game_ok g) ->
  exists st', step meta_by_id snap_by_key game_by_key st stat = Ok st'.
Proof.
  intros Hok. unfold Normalize.step.
  destruct (missing_identity stat); [eexists; reflexivity|].
  destruct (team_canonical_of stat) as [tc|]; [|eexists; reflexivity].
  fold (game_of game_by_key stat tc).
  assert (forall g, game_of game_by_key stat tc = Some g -> game_ok g) as Hg.
  { intros g Hgame. destruct (game_of_indexed _ _ _ _ Hgame) as [k Hk].
    eapply Hok; eauto. }
  destruct (home_or_away_total tc _ Hg) as [is_home ->]. rewrite bind_Ok.
  destruct (game_of game_by_key stat tc) as [g|]; [|eexists; reflexivity].
  destruct is_home as [b|]; [|eexists; reflexivity].
  destruct (dict_truthy g); [|eexists; reflexivity].
  destruct (with_game_context_total g b
              (with_player_context float_repr meta_by_id snap_by_key stat tc
                 (opponent_canonical (get stat "opponent_team"))
                 (trim_stat_row stat)) (Hg g eq_refl)) as [r ->].
  rewrite bind_Ok. eexists; reflexivity.
Qed.

Lemma trimmed_season_type (stat : dict) :
  trim_stat_row stat !! "season_type" = Some (get stat "season_type").
Proof.
  unfold trim_stat_row, KEEP_STATS. cbn [foldl]. lookup_inserts. reflexivity.
Qed.

Lemma player_part_season_type (meta_by_id : gmap pykey dict)
    (snap_by_key : gmap string dict) (stat : dict) (team_canonical : string) :
  player_part meta_by_id snap_by_key stat team_canonical !! "season_type"
    = Some (get stat "season_type").
Proof.
  unfold player_part, with_player_context. lookup_inserts.
  apply trimmed_season_type.
Qed.

Lemma player_part_opponent (meta_by_id : gmap pykey dict)
    (snap_by_key : gmap string dict) (stat : dict) (team_canonical : string) :
  player_part meta_by_id snap_by_key stat team_canonical !! "opponentCanonical"
    = Some (opponent_canonical (get stat "opponent_team")).
Proof.
  unfold player_part, with_player_context. lookup_inserts. reflexivity.
Qed.

Lemma not_context_field (k : string) :
  k = "season_type" \/ k = "opponentCanonical" -> k ∉ context_fields.
Proof.
  intros [-> | ->]; unfold context_fields;
    repeat (apply not_elem_of_cons; split; [discriminate|]);
    apply not_elem_of_nil.
Qed.

(** A row without game context. *)
Lemma without_game_context_null (meta_by_id : gmap pykey dict)
    (snap_by_key : gmap string dict) (stat : dict) (team_canonical : string) :
  null_but_playoff
    (without_game_context (get stat "season_type")
       (player_part meta_by_id snap_by_key stat team_canonical)).
Proof.
  unfold null_but_playoff.
  destruct (without_game_context_spec (get stat "season_type")
              (player_part meta_by_id snap_by_key stat team_canonical))
    as [Hfields Hother].
  assert (get (without_game_context (get stat "season_type")
                 (player_part meta_by_id snap_by_key stat team_canonical))
              "season_type" = get stat "season_type") as ->.
  { unfold get at 1.
    rewrite Hother, player_part_season_type
      by (apply not_context_field; left; reflexivity).
    reflexivity. }
  exact Hfields.
Qed.

(** *** The whole loop *)

Lemma indexed_games_ok (games : list dict) :
  Forall game_ok games ->
  forall k g, index_games games !! k = Some g -> game_ok g.
Proof.
  intros Hall. apply (index_games_values game_ok); [|exact Hall].
  intros k g. rewrite lookup_empty. discriminate.
Qed.

(** On well-typed games [main] ends normally. *)
Lemma main_total (stats metadata snaps games : list dict) :
  Forall game_ok games ->
  exists st, main stats metadata snaps games = Ok st.
Proof.
  intros Hall. unfold Normalize.main. apply for_each_total.
  intros st stat. apply step_total. apply indexed_games_ok. exact Hall.
Qed.

Lemma main_counts (stats metadata snaps games : list dict) (st : state) :
  main stats metadata snaps games = Ok st ->
  length (results st) = length (filter (fun s => emitted s = true) stats) /\
  (matched st + unmatched st = length stats)%nat /\
  (matched st <= length (results st))%nat.
Proof.
  unfold Normalize.main.
  apply (for_each_inv _
    (fun l st =>
       length (results st) = length (filter (fun s => emitted s = true) l) /\
       (matched st + unmatched st = length l)%nat /\
       (matched st <= length (results st))%nat)).
  - repeat split; reflexivity.
  - intros l stat s s' (Hres & Hcount & Hle) Hstep.
    rewrite list.filter_app, !length_app. cbn [length].
    destruct (emitted stat) eqn:Eem.
    + destruct (emitted_inv _ Eem) as (Hid & tc & Htc).
      rewrite filter_cons_True, filter_nil by exact Eem. cbn [length].
      destruct (step_emitted _ _ _ _ _ _ _ Hid Htc Hstep)
        as [(g & b & r & _ & _ & _ & ->) | (Hr & Hm & Hu)].
      * cbn [results matched unmatched]. rewrite length_app. cbn [length].
        repeat split; lia.
      * rewrite Hr, Hm, Hu, length_app. cbn [length]. repeat split; lia.
    + rewrite (step_skipped _ _ _ _ _ Eem) in Hstep. injection Hstep as <-.
      rewrite filter_cons_False, filter_nil by (rewrite Eem; discriminate).
      cbn [length skip_unmatched results matched unmatched].
      repeat split; lia.
Qed.

(** The record written with the context of a game has a boolean for
    [isHome]; the record written without has a null there, and nulls in
    every other context field but [isPlayoff]. *)
Lemma with_context_marked (g : dict) (is_home : bool) (t r : dict) :
  with_game_context g is_home t = Ok r -> no_game_context r = false.
Proof.
  intros Hr. destruct (with_game_context_spec _ _ _ _ Hr) as [Hd _].
  destruct Hd as (res & sp & _ & _ & Hall).
  assert (("isHome", JBool is_home) ∈ context_of g is_home res sp) as Hin
    by (unfold context_of; repeat constructor).
  pose proof (proj1 (list.Forall_forall _ _) Hall _ Hin) as Hk.
  cbn [fst snd] in Hk. unfold no_game_context. rewrite Hk. reflexivity.
Qed.

Lemma without_context_marked (season_type : json) (t : dict) :
  no_game_context (without_game_context season_type t) = true.
Proof.
  destruct (without_game_context_spec season_type t) as [Hall _].
  assert ("isHome" ∈ context_fields) as Hin
    by (unfold context_fields; repeat constructor).
  pose proof (proj1 (list.Forall_forall _ _) Hall _ Hin) as Hk.
  cbn in Hk. unfold no_game_context. rewrite Hk. reflexivity.
Qed.

(** The two counters against the records: every record written with game
    context was counted matched, every record written without was counted
    unmatched, and so was every row that was not written. *)
Lemma main_partition (stats metadata snaps games : list dict) (st : state) :
  main stats metadata snaps games = Ok st ->
  matched st
    = length (filter (fun r => no_game_context r = false) (results st)) /\
  unmatched st
    = (length (filter (fun s => emitted s = false) stats)
       + length (filter (fun r => no_game_context r = true) (results st)))%nat /\
  Forall (fun r => no_game_context r = true -> null_but_playoff r)
         (results st).
Proof.
  unfold Normalize.main.
  apply (for_each_inv _
    (fun l st =>
       matched st
         = length (filter (fun r => no_game_context r = false) (results st)) /\
       unmatched st
         = (length (filter (fun s => emitted s = false) l)
            + length (filter (fun r => no_game_context r = true)
                        (results st)))%nat /\
       Forall (fun r => no_game_context r = true -> null_but_playoff r)
              (results st))).
  - repeat split. constructor.
  - intros l stat s s' (Hm & Hu & Hnull) Hstep.
    rewrite (list.filter_app _ l). rewrite !length_app.
    destruct (emitted stat) eqn:Eem.
    + destruct (emitted_inv _ Eem) as (Hid & tc & Htc).
      rewrite (filter_cons_False (fun s => emitted s = false))
        by (rewrite Eem; discriminate).
      rewrite filter_nil. cbn [length].
      destruct (step_emitted _ _ _ _ _ _ _ Hid Htc Hstep)
        as [(g & b & r & _ & _ & Hr & ->) | (Hr & Hmm & Huu)].
      * cbn [results matched unmatched].
        pose proof (with_context_marked _ _ _ _ Hr) as Hmark.
        rewrite !list.filter_app, !length_app.
        rewrite (filter_cons_True (fun r => no_game_context r = false))
          by exact Hmark.
        rewrite (filter_cons_False (fun r => no_game_context r = true))
          by (rewrite Hmark; discriminate).
        rewrite !filter_nil. cbn [length]. repeat split; try lia.
        apply Forall_app. split; [exact Hnull|].
        constructor; [|constructor]. rewrite Hmark. discriminate.
      * rewrite Hr, Hmm, Huu.
        pose proof (without_context_marked (get stat "season_type")
                      (player_part (index_metadata metadata)
                         (index_snaps float_repr snaps) stat tc)) as Hmark.
        rewrite !list.filter_app, !length_app.
        rewrite (filter_cons_False (fun r => no_game_context r = false))
          by (rewrite Hmark; discriminate).
        rewrite (filter_cons_True (fun r => no_game_context r = true))
          by exact Hmark.
        rewrite !filter_nil. cbn [length]. repeat split; try lia.
        apply Forall_app. split; [exact Hnull|].
        constructor; [|constructor]. intros _.
        apply without_game_context_null.
    + rewrite (step_skipped _ _ _ _ _ Eem) in Hstep. injection Hstep as <-.
      rewrite (filter_cons_True (fun s => emitted s = false)) by exact Eem.
      rewrite filter_nil.
      cbn [length skip_unmatched results matched unmatched].
      repeat split; try assumption; lia.
Qed.

(** C1, amended.  The loop writes one record for each input row that has
    a player id, a season, a week and a team code with an alias, with or
    without game context; a row that fails one of these two guards is
    counted unmatched and is not written.  A record written without game
    context has explicit nulls there and is counted unmatched, a record
    written with game context is counted matched: [unmatched] is the
    number of rows not written plus the number of records without game
    context, and [matched] the number of records with it.  So every input
    row is counted once, as matched or as unmatched, and the number of
    records written is the number of rows that pass the guards.  On a feed
    of well-typed games the loop raises nothing and ends with such a
    state. *)
Theorem join_counts (stats metadata snaps games : list dict) :
  (forall st,
     main stats metadata snaps games = Ok st ->
     length (results st) = length (filter (fun s => emitted s = true) stats) /\
     (matched st + unmatched st = length stats)%nat /\
     (length stats - length (results st) <= unmatched st)%nat /\
     matched st
       = length (filter (fun r => no_game_context r = false) (results st)) /\
     unmatched st
       = (length (filter (fun s => emitted s = false) stats)
          + length (filter (fun r => no_game_context r = true)
                      (results st)))%nat /\
     Forall (fun r => no_game_context r = true -> null_but_playoff r)
            (results st)) /\
  (Forall game_ok games ->
   exists st, main stats metadata snaps games = Ok st).
Proof.
  split.
  - intros st Hst. destruct (main_counts _ _ _ _ _ Hst) as (H1 & H2 & H3).
    destruct (main_partition _ _ _ _ _ Hst) as (H4 & H5 & H6).
    repeat split; try assumption. lia.
  - apply main_total.
Qed.

(** C8, amended. In every record written, the nineteen game-context
    fields are all drawn from one game of the feed, seen from one side, or
    they are all explicit nulls except [isPlayoff], which then tells
    whether the row itself is a postseason row. *)
Theorem context_from_one_game (stats metadata snaps games : list dict)
    (st : state) :
  main stats metadata snaps games = Ok st ->
  Forall (fun r => (exists g is_home, g ∈ games /\ drawn_from g is_home r)
                   \/ null_but_playoff r)
         (results st).
Proof.
  unfold Normalize.main.
  apply (for_each_inv _
    (fun (_ : list dict) st =>
       Forall (fun r => (exists g is_home, g ∈ games /\ drawn_from g is_home r)
                        \/ null_but_playoff r)
              (results st))).
  - constructor.
  - intros l stat s s' Hres Hstep.
    destruct (emitted stat) eqn:Eem.
    + destruct (emitted_inv _ Eem) as (Hid & tc & Htc).
      destruct (step_emitted _ _ _ _ _ _ _ Hid Htc Hstep)
        as [(g & b & r & Hg & _ & Hr & ->) | (Hr & _ & _)].
      * cbn [results]. apply Forall_app. split; [exact Hres|].
        constructor; [|constructor]. left. exists g, b. split.
        -- destruct (game_of_indexed _ _ _ _ Hg) as [k Hk].
           eapply index_games_elem; eauto.
        -- apply (with_game_context_spec _ _ _ _ Hr).
      * rewrite Hr. apply Forall_app. split; [exact Hres|].
        constructor; [|constructor]. right.
        apply without_game_context_null.
    + rewrite (step_skipped _ _ _ _ _ Eem) in Hstep. injection Hstep as <-.
      exact Hres.
Qed.

(** A row that finds a game and a side is counted as matched, however the
    side was decided. *)
Lemma step_matched (meta_by_id : gmap pykey dict)
    (snap_by_key game_by_key : gmap string dict) (st st' : state)
    (stat : dict) (team_canonical : string) (g : dict) (b : bool) :
  missing_identity stat = false ->
  team_canonical_of stat = Some team_canonical ->
  game_of game_by_key stat team_canonical = Some g ->
  home_or_away team_canonical (Some g) = Ok (Some b) ->
  step meta_by_id snap_by_key game_by_key st stat = Ok st' ->
  exists r,
    st' = State (results st ++ [r]) (S (matched st)) (unmatched st)
                (unmatched_examples st).
Proof.
  intros Hid Htc Hg Hside. unfold Normalize.step. rewrite Hid, Htc.
  fold (game_of game_by_key stat team_canonical). rewrite Hg, Hside, bind_Ok.
  assert (dict_truthy g = true) as ->.
  { unfold home_or_away in Hside. destruct (dict_truthy g); [reflexivity|].
    discriminate Hside. }
  destruct (with_game_context g b _) as [r|]; [|discriminate].
  rewrite bind_Ok. intros [= <-]. exists r. reflexivity.
Qed.

(** C5, amended. A join whose side is decided by containment of the
    lowered names, the team being equal to neither name of the game, adds
    one to [matched], the counter of the joins decided by equality, and
    leaves [unmatched] and its samples as they were: the loop has no
    counter of its own for such joins. *)
Theorem fuzzy_counted_as_matched (meta_by_id : gmap pykey dict)
    (snap_by_key game_by_key : gmap string dict) (st st' : state)
    (stat : dict) (team_canonical : string) (g : dict) (b : bool) :
  missing_identity stat = false ->
  team_canonical_of stat = Some team_canonical ->
  game_of game_by_key stat team_canonical = Some g ->
  eq_str (get_or g "homeTeamCanonical" (JStr "")) team_canonical = false ->
  eq_str (get_or g "awayTeamCanonical" (JStr "")) team_canonical = false ->
  home_or_away team_canonical (Some g) = Ok (Some b) ->
  step meta_by_id snap_by_key game_by_key st stat = Ok st' ->
  matched st' = S (matched st) /\
  unmatched st' = unmatched st /\
  unmatched_examples st' = unmatched_examples st /\
  length (results st') = S (length (results st)).
Proof.
  intros Hid Htc Hg _ _ Hside Hstep.
  destruct (step_matched _ _ _ _ _ _ _ _ _ Hid Htc Hg Hside Hstep) as [r ->].
  cbn [matched unmatched unmatched_examples results].
  rewrite length_app. cbn [length]. repeat split. lia.
Qed.


End WithRepr.

Abbreviation run := (Normalize.main Parse.decimal_repr).

Ltac by_computation := vm_compute; reflexivity.

Lemma rams_game_ok : Forall game_ok [rams_game].
Proof. repeat constructor; by_computation. Defined.

Lemma rams_game_capitals_ok : Forall game_ok [rams_game_capitals].
Proof. repeat constructor; by_computation. Defined.

(** The row joins its game by the primary key and by equality of names:
    one record, one match, seen from the home side. *)
Example rams_row_matched :
  report_of (run [rams_stat] [] [] [rams_game])
    = Some (1%nat, 1%nat, 0%nat, []) /\
  map (field_of (run [rams_stat] [] [] [rams_game]) 0)
      ["isHome"; "teamScore"; "opponentScore"; "gameResult"; "spread";
       "opponentCanonical"]
    = [Some (JBool true); Some (JInt 27); Some (JInt 24); Some (JStr "W");
       Some (JFloat 3.5); Some (JStr "Seattle Seahawks")].
Proof. split; by_computation. Qed.

Lemma join_counts_witness :
  exists st,
    run [rams_stat; unknown_team_stat; week_six_stat] [] [] [rams_game]
      = Ok st /\
    length (results st)
      = length (filter (fun s => emitted s = true)
                  [rams_stat; unknown_team_stat; week_six_stat]) /\
    (matched st + unmatched st = 3)%nat /\
    (3 - length (results st) <= unmatched st)%nat /\
    matched st
      = length (filter (fun r => no_game_context r = false) (results st)) /\
    unmatched st
      = (length (filter (fun s => emitted s = false)
                   [rams_stat; unknown_team_stat; week_six_stat])
         + length (filter (fun r => no_game_context r = true)
                     (results st)))%nat /\
    Forall (fun r => no_game_context r = true -> null_but_playoff r)
           (results st).
Proof.
  destruct (join_counts Parse.decimal_repr
              [rams_stat; unknown_team_stat; week_six_stat] [] []
              [rams_game]) as [Hcounts Htotal].
  destruct (Htotal rams_game_ok) as [st Hst].
  exists st. split; [exact Hst|]. exact (Hcounts st Hst).
Defined.

(** One row joined, one row without alias dropped, one row written
    without game: two records, one match, two unmatched. *)
Example three_rows_counted :
  report_of (run [rams_stat; unknown_team_stat; week_six_stat] [] []
               [rams_game])
    = Some (2%nat, 1%nat, 2%nat,
            ["  Cooper Kupp (LA) season=2024 week=6 type=REG"]) /\
  field_of (run [rams_stat; unknown_team_stat; week_six_stat] [] []
              [rams_game]) 1 "isHome" = Some JNull.
Proof. split; by_computation. Qed.

(** C1 as stated fails on a row whose team code has no alias and on a row
    without player id: two rows go in, both are counted unmatched, and no
    record comes out. *)
Lemma join_counts_counterexample :
  length [unknown_team_stat; anonymous_stat] = 2%nat /\
  report_of (run [unknown_team_stat; anonymous_stat] [] [] [rams_game])
    = Some (0%nat, 0%nat, 2%nat, []).
Proof. split; by_computation. Qed.

Lemma context_from_one_game_witness :
  exists st,
    run [rams_stat; unknown_opponent_stat] [] [] [rams_game] = Ok st /\
    Forall (fun r => (exists g is_home,
                        g ∈ [rams_game] /\ drawn_from g is_home r)
                     \/ null_but_playoff r)
           (results st).
Proof.
  destruct (main_total Parse.decimal_repr [rams_stat; unknown_opponent_stat]
              [] [] [rams_game] rams_game_ok) as [st E].
  exists st. split; [exact E|].
  exact (context_from_one_game Parse.decimal_repr _ _ _ _ _ E).
Defined.

(** The run of the one row over an empty feed of games. *)
Example row_without_game :
  report_of (run [rams_stat] [] [] [])
    = Some (1%nat, 0%nat, 1%nat,
            ["  Cooper Kupp (LA) season=2024 week=5 type=REG"]) /\
  field_of (run [rams_stat] [] [] []) 0 "isPlayoff" = Some (JBool false) /\
  field_of (run [rams_stat] [] [] []) 0 "teamScore" = Some JNull.
Proof. repeat split; by_computation. Qed.

(** C8 as stated fails on a row without game: its [isPlayoff] field is the
    boolean [False], not a null, although no game was there to draw it
    from. *)
Lemma context_from_one_game_counterexample :
  exists st r,
    run [rams_stat] [] [] [] = Ok st /\ results st !! 0%nat = Some r /\
    r !! "isPlayoff" = Some (JBool false) /\
    r !! "teamScore" = Some JNull /\
    ~ ((exists g is_home, g ∈ [] /\ drawn_from g is_home r) \/ all_null r).
Proof.
  destruct (main_total Parse.decimal_repr [rams_stat] [] [] [] (Forall_nil _))
    as [st E].
  destruct row_without_game as (_ & Hp & Hs).
  rewrite E in Hp, Hs. cbn [field_of] in Hp, Hs.
  destruct (results st !! 0%nat) as [r|] eqn:Er; [|discriminate Hp].
  cbn in Hp, Hs.
  exists st, r. repeat split; try assumption.
  intros [(g & b & Hin & _) | Hnull].
  - apply elem_of_nil in Hin. exact Hin.
  - assert ("isPlayoff" ∈ context_fields) as Hin
      by (unfold context_fields; repeat constructor).
    pose proof (proj1 (list.Forall_forall _ _) Hnull _ Hin) as Hnone.
    cbv beta in Hnone. rewrite Hp in Hnone. discriminate Hnone.
Qed.

(** The capitals keep the primary key from matching; the opponent's key
    finds the game, and the side is decided by containment. *)
Example rams_row_fuzzy :
  let game_by_key := Normalize.index_games Parse.decimal_repr [rams_game_capitals] in
  missing_identity rams_stat = false /\
  team_canonical_of rams_stat = Some "Los Angeles Rams" /\
  game_by_key !! "2024-5-Los Angeles Rams" = None /\
  game_of Parse.decimal_repr game_by_key rams_stat "Los Angeles Rams"
    = Some rams_game_capitals /\
  eq_str (get_or rams_game_capitals "homeTeamCanonical" (JStr ""))
         "Los Angeles Rams" = false /\
  eq_str (get_or rams_game_capitals "awayTeamCanonical" (JStr ""))
         "Los Angeles Rams" = false /\
  home_or_away "Los Angeles Rams" (Some rams_game_capitals) = Ok (Some true).
Proof. repeat split; by_computation. Qed.

Lemma fuzzy_counted_as_matched_witness :
  exists st',
    Normalize.step Parse.decimal_repr ∅ ∅
      (Normalize.index_games Parse.decimal_repr [rams_game_capitals])
      init rams_stat = Ok st' /\
    matched st' = 1%nat /\ unmatched st' = 0%nat /\
    unmatched_examples st' = [] /\ length (results st') = 1%nat.
Proof.
  destruct (step_total Parse.decimal_repr ∅ ∅
              (Normalize.index_games Parse.decimal_repr [rams_game_capitals])
              init rams_stat
              (indexed_games_ok Parse.decimal_repr _ rams_game_capitals_ok))
    as [st' E].
  destruct rams_row_fuzzy as (Hid & Htc & _ & Hg & Hh & Ha & Hside).
  exists st'. split; [exact E|].
  exact (fuzzy_counted_as_matched Parse.decimal_repr _ _ _ _ _ _ _ _ _
           Hid Htc Hg Hh Ha Hside E).
Defined.

(** C5 as stated fails: the summary of a run whose only join was decided
    by containment is the summary of the run whose only join was decided by
    equality.  One match is counted in both, and nothing tells them
    apart. *)
Lemma fuzzy_counter_counterexample :
  home_or_away "Los Angeles Rams" (Some rams_game_capitals) = Ok (Some true) /\
  eq_str (get_or rams_game_capitals "homeTeamCanonical" (JStr ""))
         "Los Angeles Rams" = false /\
  eq_str (get_or rams_game "homeTeamCanonical" (JStr ""))
         "Los Angeles Rams" = true /\
  report_of (run [rams_stat] [] [] [rams_game_capitals])
    = Some (1%nat, 1%nat, 0%nat, []) /\
  report_of (run [rams_stat] [] [] [rams_game_capitals])
    = report_of (run [rams_stat] [] [] [rams_game]).
Proof. repeat split; by_computation. Qed.


(** The raw abbreviation in the record and in the fallback key; and the
    row of an unknown team, which is only counted. *)
Example unknown_opponent_row :
  field_of (run [unknown_opponent_stat] [] [] []) 0 "opponentCanonical"
    = Some (JStr "QQ") /\
  game_key_opp Parse.decimal_repr (JInt 2024) "5"
    (opponent_canonical (JStr "QQ")) = "2024-5-QQ" /\
  report_of (run [unknown_team_stat] [] [] [rams_game])
    = Some (0%nat, 0%nat, 1%nat, []).
Proof. repeat split; by_computation. Qed.

End Join.

(** ** The only-fill policy of the two importers *)

Module OnlyFill.
Import Py PyFacts FillDefs.

Section WithRepr.

Variable float_repr : Q -> string.

(** A game that has a spread is left as it is by the nflverse importer. *)
Lemma nflverse_keeps_spread (nflverse_index : Nflverse.index) (game : dict) :
  get game "spread" <> JNull ->
  Nflverse.fill_game float_repr nflverse_index game
    = Ok (game, Nflverse.AlreadyHas).
Proof.
  intros H. unfold Nflverse.fill_game.
  destruct (get game "spread"); try reflexivity. contradiction.
Qed.

(** A game filled by the nflverse importer has a spread from then on, so
    a second run leaves it as it is. *)
Lemma nflverse_filled_has_spread (nflverse_index : Nflverse.index)
    (game game' : dict) :
  Nflverse.fill_game float_repr nflverse_index game = Ok (game', Nflverse.Filled) ->
  get game' "spread" <> JNull.
Proof.
  unfold Nflverse.fill_game.
  destruct (negb (is_none (get game "spread"))); [discriminate|].
  destruct (_ || _); [discriminate|].
  destruct (Nflverse.index_get _ _ _ _) as [m|]; [|discriminate].
  destruct (is_none (Nflverse.entry_spread_line m)) eqn:Enone;
    [discriminate|]. cbn [negb].
  destruct (Nflverse.calculate_spread_result _ _ _) as [sr|]; [|discriminate].
  rewrite bind_Ok.
  destruct (Nflverse.calculate_ou_result _ _ _) as [our|]; [|discriminate].
  rewrite bind_Ok. intros [= <-]. unfold get.
  rewrite !lookup_insert_ne, lookup_insert_eq by discriminate.
  cbn [default from_option id]. intros Heq. rewrite Heq in Enone.
  discriminate Enone.
Qed.

End WithRepr.

(** A game filled by the Spreadspoke importer has a spread from then on. *)
Lemma spreadspoke_filled_has_spread (int_of : string -> option Z)
    (float_of : string -> option Q) (iso_date_of : string -> option string)
    (ss_rows : list Spreadspoke.csv_row) (ss_index : Spreadspoke.index)
    (game game' : dict) :
  Spreadspoke.build_index int_of float_of iso_date_of ss_rows = Ok ss_index ->
  Spreadspoke.fill_game ss_index game = Ok (game', Spreadspoke.Filled) ->
  exists s, get game' "spread" = JFloat s.
Proof.
  intros Hbuild.
  assert (forall k m, ss_index !! k = Some m ->
                      exists s, Spreadspoke.spread m = JFloat s) as Hidx.
  { revert Hbuild. unfold Spreadspoke.build_index.
    apply (for_each_inv _
      (fun (_ : list Spreadspoke.csv_row) (idx : Spreadspoke.index) =>
         forall k m, idx !! k = Some m ->
                     exists s, Spreadspoke.spread m = JFloat s)).
    - intros k m. rewrite lookup_empty. discriminate.
    - intros l row idx idx' IH. unfold Spreadspoke.index_row.
      destruct (Spreadspoke.row_entry _ _ _ row) as [[[[d h] v]|]|] eqn:Erow;
        try discriminate; rewrite bind_Ok; intros [= <-]; [|exact IH].
      intros k m. rewrite lookup_insert. case_decide; [|apply IH].
      intros [= <-].
      destruct (LineConvention.row_entry_inv _ _ _ _ _ _ _ Erow)
        as (_ & _ & _ & s & _ & _ & _ & _ & _ & Hs).
      exists s. exact Hs. }
  unfold Spreadspoke.fill_game.
  destruct (negb (is_none (get game "spread"))); [discriminate|].
  destruct (_ || _); [discriminate|].
  destruct (Spreadspoke.index_get _ _ _) as [m|] eqn:Eget; [|discriminate].
  destruct (Spreadspoke.calculate_spread_result _ _ _) as [sr|]; [|discriminate].
  rewrite bind_Ok.
  destruct (Spreadspoke.calculate_ou_result _ _ _) as [our|]; [|discriminate].
  rewrite bind_Ok. intros [= <-]. unfold get.
  rewrite !lookup_insert_ne, lookup_insert_eq by discriminate.
  cbn [default from_option id].
  unfold Spreadspoke.index_get in Eget.
  destruct (get_or game "gameDate" _); try discriminate.
  destruct (get_or game "homeTeamCanonical" _); try discriminate.
  eapply Hidx; eauto.
Qed.

(** A game that has a spread is left as it is by the Spreadspoke
    importer. *)
Lemma spreadspoke_keeps_spread (ss_index : Spreadspoke.index) (game : dict) :
  get game "spread" <> JNull ->
  Spreadspoke.fill_game ss_index game = Ok (game, Spreadspoke.AlreadyHas).
Proof.
  intros H. unfold Spreadspoke.fill_game.
  destruct (get game "spread"); try reflexivity. contradiction.
Qed.

(** C2: the importers test the spread alone.  A game without spread that
    has a total gets its total (and the result of the total) written over
    by the importer, in both scripts. *)
Theorem total_written_over :
  (get bills_game "spread" = JNull /\
   get bills_game "overUnder" = JFloat 44.5 /\
   get bills_game "ouResult" = JStr "UNDER" /\
   map (nflverse_field
          (Nflverse.main Parse.decimal_repr [bills_game] [bills_sched_row]) 0)
       ["spread"; "overUnder"; "spreadResult"; "ouResult"]
     = [Some (JFloat 6.5); Some (JFloat 39.5);
        Some (JStr "COVERED"); Some (JStr "OVER")]) /\
  (get miami_game_with_total "spread" = JNull /\
   get miami_game_with_total "overUnder" = JFloat 40 /\
   map (spreadspoke_field
          (Spreadspoke.main Parse.decimal_int Parse.decimal_float
             Parse.mdY_to_iso [miami_game_with_total]
             [LineDefs.miami_by_3_5]) 0)
       ["spread"; "overUnder"; "spreadResult"; "ouResult"]
     = [Some (JFloat 3.5); Some (JFloat 41.5);
        Some (JStr "LOST"); Some (JStr "UNDER")]).
Proof. repeat split; vm_compute; reflexivity. Qed.

End OnlyFill.

(** ** Runs on concrete input *)

Module RunFacts.
Import Py.

(** A run that computes to a result has one. *)
Lemma computed_ok {A} (r : result A) :
  match r with Ok _ => True | Raise _ => False end -> exists a, r = Ok a.
Proof.
  destruct r as [a|e]; [intros _; exists a; reflexivity | intros []].
Defined.

Lemma computed_inr {E A} (r : E + A) :
  match r with inr _ => True | inl _ => False end -> exists a, r = inr a.
Proof.
  destruct r as [e|a]; [intros [] | intros _; exists a; reflexivity].
Defined.

End RunFacts.

(** ** More on the outcome formulas *)

Module OutcomeMore.
Import Py PyFacts NumberDefs OutcomeMoreDefs.

Lemma not_none_of_num (v : json) (q : Q) : to_num v = Some q -> is_none v = false.
Proof. destruct v; try discriminate; reflexivity. Qed.

Lemma add_is_arith (a b : value) (n : number) :
  number_of a = Some n -> add a b = arith Z.add fadd a b.
Proof. destruct a as [[]| |]; try discriminate; reflexivity. Qed.

(** The three outcomes of the total, as the script tests them, on integer
    scores: their sum is an [int], and an [int] is compared with the line
    exactly. *)
Lemma ou_result_of_total (home_score away_score over_under : json)
    (h a : Z) (t : Q) :
  as_int home_score = Some h -> as_int away_score = Some a ->
  to_num over_under = Some t ->
  Nflverse.calculate_ou_result home_score away_score over_under =
    Ok (JStr (if Qltb t (inject_Z (h + a)) then "OVER"
              else if Qltb (inject_Z (h + a)) t then "UNDER" else "PUSH")).
Proof.
  intros Hh Ha Ht. unfold Nflverse.calculate_ou_result.
  rewrite (not_none_of_num _ _ (as_int_num _ _ Hh)),
    (not_none_of_num _ _ (as_int_num _ _ Ha)), (not_none_of_num _ _ Ht).
  cbn [orb].
  rewrite (add_is_arith _ _ _ (as_int_number _ _ Hh)). unfold arith.
  rewrite (as_int_number _ _ Hh), (as_int_number _ _ Ha), bind_Ok.
  unfold gt_value, lt_value.
  rewrite (lt_num over_under (JInt (h + a)) t (inject_Z (h + a)) Ht eq_refl).
  rewrite (lt_num (JInt (h + a)) over_under (inject_Z (h + a)) t eq_refl Ht).
  rewrite bind_Ok.
  destruct (Qltb t (inject_Z (h + a))); [reflexivity|]. rewrite bind_Ok.
  destruct (Qltb (inject_Z (h + a)) t); reflexivity.
Qed.

(** X14. [calculate_ou_result] is the same function in both importers; it
    returns [None] as soon as a score or the total is [None], and on
    integer scores it returns OVER, UNDER or PUSH as the sum of the two
    scores is above, below or equal to the total, whatever number the
    total is. *)
Theorem ou_result_spec (home_score away_score over_under : json) :
  Nflverse.calculate_ou_result = Spreadspoke.calculate_ou_result /\
  (home_score = JNull \/ away_score = JNull \/ over_under = JNull ->
   Nflverse.calculate_ou_result home_score away_score over_under = Ok JNull) /\
  (forall (h a : Z) (t : Q),
     as_int home_score = Some h -> as_int away_score = Some a ->
     to_num over_under = Some t ->
     (t < inject_Z (h + a) ->
      Nflverse.calculate_ou_result home_score away_score over_under
        = Ok (JStr "OVER"))%Q /\
     (inject_Z (h + a) < t ->
      Nflverse.calculate_ou_result home_score away_score over_under
        = Ok (JStr "UNDER"))%Q /\
     (inject_Z (h + a) == t ->
      Nflverse.calculate_ou_result home_score away_score over_under
        = Ok (JStr "PUSH"))%Q).
Proof.
  split; [reflexivity|]. split.
  - intros H. unfold Nflverse.calculate_ou_result.
    destruct H as [-> | [-> | ->]]; cbn [is_none].
    + destruct (is_none over_under); reflexivity.
    + destruct (is_none over_under), (is_none home_score); reflexivity.
    + reflexivity.
  - intros h a t Hh Ha Ht.
    rewrite (ou_result_of_total _ _ _ h a t Hh Ha Ht).
    repeat split; intros Hm.
    + apply Qltb_lt in Hm. rewrite Hm. reflexivity.
    + assert (Qltb t (inject_Z (h + a)) = false) as ->
        by (apply Qltb_ge; lra).
      apply Qltb_lt in Hm. rewrite Hm. reflexivity.
    + assert (Qltb t (inject_Z (h + a)) = false) as ->
        by (apply Qltb_ge; lra).
      assert (Qltb (inject_Z (h + a)) t = false) as ->
        by (apply Qltb_ge; lra).
      reflexivity.
Qed.

Lemma ou_result_spec_witness :
  Spreadspoke.calculate_ou_result (JInt 27) (JInt 24) (JFloat 48.5)
    = Ok (JStr "OVER").
Proof.
  destruct (ou_result_spec (JInt 27) (JInt 24) (JFloat 48.5)) as (<- & _ & H).
  destruct (H 27 24 48.5%Q eq_refl eq_refl eq_refl) as (Hover & _ & _).
  apply Hover. reflexivity.
Defined.

(** Scores that are floats are added as floats: 1e16 + 1.0 is 1e16, and
    the total that is one above the line is a PUSH.  Two strings are
    concatenated and compared as strings. *)
Example float_total_rounded :
  Nflverse.calculate_ou_result
    (JFloat 10000000000000000) (JFloat 1) (JFloat 10000000000000000)
    = Ok (JStr "PUSH") /\
  Nflverse.calculate_ou_result (JStr "a") (JStr "b") (JStr "ab")
    = Ok (JStr "PUSH").
Proof. split; vm_compute; reflexivity. Qed.

(** *** The other side *)

Lemma Qplus_opp_eq (p q : Q) : (- p + - q)%Q = (- (p + q))%Q.
Proof.
  destruct p as [pn pd], q as [qn qd]. unfold Qplus, Qopp.
  cbn [Qnum Qden]. f_equal. ring.
Qed.

Lemma Qplus_comm_eq (p q : Q) : (p + q)%Q = (q + p)%Q.
Proof.
  destruct p as [pn pd], q as [qn qd]. unfold Qplus. cbn [Qnum Qden].
  f_equal; [ring | apply Pos.mul_comm].
Qed.

Lemma fneg_involutive (x : float) : fneg (fneg x) = x.
Proof.
  destruct x as [q | [] |]; cbn [fneg negb]; try reflexivity.
  rewrite Qopp_involutive_eq. reflexivity.
Qed.

Lemma fadd_comm (x y : float) : fadd x y = fadd y x.
Proof.
  destruct x as [p | [] |], y as [q | [] |]; cbn [fadd Bool.eqb];
    try reflexivity.
  rewrite Qplus_comm_eq. reflexivity.
Qed.

Lemma fneg_fadd (x y : float) : fadd (fneg x) (fneg y) = fneg (fadd x y).
Proof.
  destruct x as [p | [] |], y as [q | [] |]; cbn [fadd fneg negb Bool.eqb];
    try reflexivity.
  rewrite Qplus_opp_eq. apply round64_opp.
Qed.

Lemma fsub_swap (x y : float) : fsub y x = fneg (fsub x y).
Proof.
  unfold fsub. rewrite <- fneg_fadd, fneg_involutive. apply fadd_comm.
Qed.

Lemma value_of_fneg (x : float) : value_of (fneg x) = vneg (value_of x).
Proof. destruct x as [q | [] |]; reflexivity. Qed.

Lemma to_float_nneg (n : number) :
  to_float (nneg n) = (x ← to_float n; Ok (fneg x)).
Proof.
  destruct n as [z | x]; [|reflexivity]. cbn [nneg to_float].
  change (inject_Z (- z)) with (- inject_Z z)%Q. rewrite round64_opp.
  destruct (round64 (inject_Z z)) as [q | [] |]; reflexivity.
Qed.

Lemma number_of_vneg (v : value) :
  number_of (vneg v) = nneg <$> number_of v.
Proof. destruct v as [[| [] | | |] | |]; reflexivity. Qed.

Lemma number_of_neg (s s' : json) :
  neg s = Ok s' ->
  exists n, number_of (Val s) = Some n /\ number_of (Val s') = Some (nneg n).
Proof.
  destruct s as [| [] | z | q | t]; try discriminate; intros [= <-];
    eexists; split; reflexivity.
Qed.

(** [b - a] is the opposite of [a - b]. *)
Lemma sub_swap (a b d : value) : sub a b = Ok d -> sub b a = Ok (vneg d).
Proof.
  unfold sub, arith.
  destruct (number_of a) as [[x | x]|], (number_of b) as [[y | y]|];
    try discriminate.
  - intros [= <-]. cbn [vneg]. do 3 f_equal. lia.
  - destruct (to_float (Int x)) as [x'|]; [|discriminate].
    change (to_float (Flt y)) with (Ok y). rewrite !bind_Ok. intros [= <-].
    rewrite fsub_swap, value_of_fneg. reflexivity.
  - change (to_float (Flt x)) with (Ok x).
    destruct (to_float (Int y)) as [y'|]; [|discriminate].
    rewrite !bind_Ok. intros [= <-].
    rewrite fsub_swap, value_of_fneg. reflexivity.
  - change (to_float (Flt x)) with (Ok x).
    change (to_float (Flt y)) with (Ok y). rewrite !bind_Ok. intros [= <-].
    rewrite fsub_swap, value_of_fneg. reflexivity.
Qed.

(** [(- d) + (- s)] is the opposite of [d + s]. *)
Lemma add_opposites (d m : value) (s s' : json) :
  neg s = Ok s' -> add d (Val s) = Ok m ->
  add (vneg d) (Val s') = Ok (vneg m).
Proof.
  intros Hneg Hadd.
  destruct (number_of_neg _ _ Hneg) as (ns & Hs & Hs').
  destruct (number_of d) as [nd|] eqn:Hd.
  - rewrite (add_is_arith _ _ _ Hd) in Hadd.
    assert (number_of (vneg d) = Some (nneg nd)) as Hd'
      by (rewrite number_of_vneg, Hd; reflexivity).
    rewrite (add_is_arith _ _ _ Hd'). unfold arith in *.
    rewrite Hd, Hs in Hadd. rewrite Hd', Hs'.
    destruct nd as [x | x], ns as [y | y]; cbn [nneg].
    + injection Hadd as <-. cbn [vneg]. do 3 f_equal. lia.
    + change (Flt (fneg y)) with (nneg (Flt y)).
      change (Int (- x)) with (nneg (Int x)). rewrite !to_float_nneg.
      destruct (to_float (Int x)) as [x'|]; [|discriminate].
      destruct (to_float (Flt y)) as [y'|]; [|discriminate].
      rewrite !bind_Ok in *. injection Hadd as <-.
      rewrite fneg_fadd, value_of_fneg. reflexivity.
    + change (Flt (fneg x)) with (nneg (Flt x)).
      change (Int (- y)) with (nneg (Int y)). rewrite !to_float_nneg.
      destruct (to_float (Flt x)) as [x'|]; [|discriminate].
      destruct (to_float (Int y)) as [y'|]; [|discriminate].
      rewrite !bind_Ok in *. injection Hadd as <-.
      rewrite fneg_fadd, value_of_fneg. reflexivity.
    + cbn [to_float] in *. rewrite !bind_Ok in *. injection Hadd as <-.
      rewrite fneg_fadd, value_of_fneg. reflexivity.
  - exfalso. unfold add, arith in Hadd. rewrite Hd in Hadd.
    destruct d as [[]| |]; try discriminate Hd;
      destruct s; try discriminate Hneg; discriminate Hadd.
Qed.

Lemma Qltb_opp_l (q : Q) : Qltb 0 (- q) = Qltb q 0.
Proof.
  destruct (Qltb q 0) eqn:E.
  - apply Qltb_lt. apply Qltb_lt in E. lra.
  - apply Qltb_ge. apply Qltb_ge in E. lra.
Qed.

Lemma Qltb_opp_r (q : Q) : Qltb (- q) 0 = Qltb 0 q.
Proof.
  destruct (Qltb 0 q) eqn:E.
  - apply Qltb_lt. apply Qltb_lt in E. lra.
  - apply Qltb_ge. apply Qltb_ge in E. lra.
Qed.

Lemma gt_vneg (m : value) :
  gt_value (vneg m) (Val (JInt 0)) = lt_value m (Val (JInt 0)).
Proof.
  destruct m as [[| [] | z | q | t] | [] |]; try reflexivity;
    unfold gt_value, lt_value, vneg, lt; cbn [to_num]; f_equal.
  - change (inject_Z (- z)) with (- inject_Z z)%Q. apply Qltb_opp_l.
  - apply Qltb_opp_l.
Qed.

Lemma lt_vneg (m : value) :
  lt_value (vneg m) (Val (JInt 0)) = gt_value m (Val (JInt 0)).
Proof.
  destruct m as [[| [] | z | q | t] | [] |]; try reflexivity;
    unfold gt_value, lt_value, vneg, lt; cbn [to_num]; f_equal.
  - change (inject_Z (- z)) with (- inject_Z z)%Q. apply Qltb_opp_r.
  - apply Qltb_opp_r.
Qed.

(** What is above zero is not below it. *)
Lemma gt_not_lt (m : value) :
  gt_value m (Val (JInt 0)) = Ok true -> lt_value m (Val (JInt 0)) = Ok false.
Proof.
  destruct m as [[| [] | z | q | t] | [] |]; try discriminate;
    try reflexivity;
    unfold gt_value, lt_value, lt; cbn [to_num]; intros [= H]; f_equal;
    apply Qltb_lt in H; apply Qltb_ge; lra.
Qed.

(** X15. The spread formula is symmetric in the two sides: whenever it
    returns for a game, it returns for the game with the scores swapped and
    the spread negated, COVERED and LOST change places, and PUSH and the
    null of a missing score or of a missing spread stay.  Rounding does
    not disturb this: it is symmetric itself. *)
Theorem spread_result_mirror (home_score away_score spread opposite r : json) :
  opposite_line spread opposite ->
  Nflverse.calculate_spread_result home_score away_score spread = Ok r ->
  Nflverse.calculate_spread_result away_score home_score opposite
    = Ok (flip_cover r).
Proof.
  intros [Hneg | [-> ->]]; unfold Nflverse.calculate_spread_result;
    [|cbn [is_none orb]; intros [= <-]; reflexivity].
  assert (is_none spread = false) as ->
    by (destruct spread; try discriminate Hneg; reflexivity).
  assert (is_none opposite = false) as ->
    by (destruct spread as [| [] | | |]; try discriminate Hneg;
        injection Hneg as <-; reflexivity).
  cbn [orb]. rewrite (Bool.orb_comm (is_none away_score)).
  destruct (is_none home_score || is_none away_score);
    [intros [= <-]; reflexivity|].
  destruct (sub (Val home_score) (Val away_score)) as [d|] eqn:Hd;
    [|discriminate].
  rewrite (sub_swap _ _ _ Hd), !bind_Ok.
  destruct (add d (Val spread)) as [m|] eqn:Hm; [|discriminate].
  rewrite (add_opposites _ _ _ _ Hneg Hm), !bind_Ok.
  rewrite gt_vneg, lt_vneg.
  destruct (gt_value m (Val (JInt 0))) as [[]|] eqn:Hgt; try discriminate.
  - rewrite (gt_not_lt _ Hgt), !bind_Ok. intros [= <-]. reflexivity.
  - rewrite bind_Ok.
    destruct (lt_value m (Val (JInt 0))) as [[]|]; try discriminate;
      rewrite !bind_Ok; intros [= <-]; reflexivity.
Qed.

Lemma spread_result_mirror_witness :
  Nflverse.calculate_spread_result (JInt 24) (JInt 27) (JFloat 2.5)
    = Ok (flip_cover (JStr "COVERED")).
Proof.
  apply (spread_result_mirror (JInt 27) (JInt 24) (JFloat (-2.5))).
  - left. vm_compute. reflexivity.
  - vm_compute. reflexivity.
Defined.

(** A game without home score from its two sides. *)
Example missing_score_mirrored :
  Nflverse.calculate_spread_result JNull (JInt 24) (JFloat (-2.5)) = Ok JNull /\
  Nflverse.calculate_spread_result (JInt 24) JNull (JFloat 2.5) = Ok JNull.
Proof. split; reflexivity. Qed.

Example missing_spread_mirrored :
  opposite_line JNull JNull /\
  Nflverse.calculate_spread_result (JInt 27) (JInt 24) JNull = Ok JNull /\
  Nflverse.calculate_spread_result (JInt 24) (JInt 27) JNull = Ok JNull.
Proof. split; [right; split; reflexivity|split; reflexivity]. Qed.

(** *** When the formulas raise nothing *)

Lemma number_of_value_of (x : float) : number_of (value_of x) = Some (Flt x).
Proof. destruct x as [q | [] |]; reflexivity. Qed.

Lemma to_float_small (n : number) : small n -> exists x, to_float n = Ok x.
Proof.
  destruct n as [z | x]; [|eexists; reflexivity].
  intros Hz. destruct (round64_int z Hz) as (r & Hr & _).
  exists (Finite r). cbn [to_float]. rewrite Hr. reflexivity.
Qed.

Lemma arith_total fz ff (a b : value) (na nb : number) :
  number_of a = Some na -> number_of b = Some nb -> small na -> small nb ->
  exists v n,
    arith fz ff a b = Ok v /\ number_of v = Some n /\
    match na, nb with
    | Int x, Int y => n = Int (fz x y)
    | _, _ => small n
    end.
Proof.
  intros Ha Hb Hsa Hsb. unfold arith. rewrite Ha, Hb.
  destruct (to_float_small _ Hsa) as [x' Hx].
  destruct (to_float_small _ Hsb) as [y' Hy].
  destruct na as [x | x], nb as [y | y].
  - eexists _, _. repeat split; reflexivity.
  - rewrite Hx, Hy, !bind_Ok. eexists _, _.
    split; [reflexivity|]. split; [apply number_of_value_of | exact I].
  - rewrite Hx, Hy, !bind_Ok. eexists _, _.
    split; [reflexivity|]. split; [apply number_of_value_of | exact I].
  - rewrite Hx, Hy, !bind_Ok. eexists _, _.
    split; [reflexivity|]. split; [apply number_of_value_of | exact I].
Qed.

Lemma lt_value_total (a b : value) (na nb : number) :
  number_of a = Some na -> number_of b = Some nb ->
  exists r, lt_value a b = Ok r.
Proof.
  intros Ha Hb. unfold lt_value.
  destruct a as [x| |], b as [y| |]; rewrite ?Ha, ?Hb;
    try (eexists; reflexivity).
  assert (exists p, to_num x = Some p) as [p Hp]
    by (destruct x as [| [] | | |]; try discriminate Ha; eexists; reflexivity).
  assert (exists q, to_num y = Some q) as [q Hq]
    by (destruct y as [| [] | | |]; try discriminate Hb; eexists; reflexivity).
  rewrite (lt_num _ _ _ _ Hp Hq). eexists; reflexivity.
Qed.

Lemma ordinary_number (v : json) :
  ordinary_or_null v -> is_none v = false ->
  exists n, number_of (Val v) = Some n /\
            match n with Int z => Z.abs z <= 2 ^ 52 | Flt _ => True end.
Proof.
  intros [-> | [[q ->] | (z & Hz & Hb)]] Hn.
  - discriminate.
  - eexists. split; [reflexivity | exact I].
  - exists (Int z). split; [apply as_int_number; exact Hz | exact Hb].
Qed.

Lemma small_of_ordinary (n : number) :
  match n with Int z => Z.abs z <= 2 ^ 52 | Flt _ => True end -> small n.
Proof.
  destruct n as [z|x]; [|auto]. unfold small.
  assert (2 ^ 52 <= 2 ^ 53) by (apply Z.pow_le_mono_r; lia). lia.
Qed.

(** On scores and lines that are null, floats or integers of ordinary
    size the formulas raise nothing. *)
Lemma spread_result_total (home_score away_score spread : json) :
  ordinary_or_null home_score -> ordinary_or_null away_score ->
  ordinary_or_null spread ->
  exists r, Nflverse.calculate_spread_result home_score away_score spread = Ok r.
Proof.
  intros Hh Ha Hs. unfold Nflverse.calculate_spread_result.
  destruct (is_none spread || is_none home_score || is_none away_score) eqn:E;
    [eexists; reflexivity|].
  apply Bool.orb_false_elim in E. destruct E as [E Ea].
  apply Bool.orb_false_elim in E. destruct E as [Es Eh].
  destruct (ordinary_number _ Hh Eh) as (nh & Hnh & Hbh).
  destruct (ordinary_number _ Ha Ea) as (na & Hna & Hba).
  destruct (ordinary_number _ Hs Es) as (ns & Hns & Hbs).
  destruct (arith_total Z.sub fsub _ _ _ _ Hnh Hna
              (small_of_ordinary _ Hbh) (small_of_ordinary _ Hba))
    as (d & nd & Hd & Hnd & Hkind).
  fold (sub (Val home_score) (Val away_score)) in Hd.
  rewrite Hd, bind_Ok.
  assert (small nd) as Hsd.
  { destruct nh as [x|x], na as [y|y]; try exact Hkind.
    subst nd. unfold small.
    assert (2 ^ 53 = 2 * 2 ^ 52) as -> by reflexivity. lia. }
  rewrite (add_is_arith _ _ _ Hnd).
  destruct (arith_total Z.add fadd _ _ _ _ Hnd Hns Hsd
              (small_of_ordinary _ Hbs)) as (m & nm & -> & Hnm & _).
  rewrite bind_Ok. unfold gt_value.
  destruct (lt_value_total (Val (JInt 0)) m _ _ eq_refl Hnm) as [g ->].
  rewrite bind_Ok. destruct g; [eexists; reflexivity|].
  destruct (lt_value_total m (Val (JInt 0)) _ _ Hnm eq_refl) as [l ->].
  rewrite bind_Ok. destruct l; eexists; reflexivity.
Qed.

Lemma ou_result_total (home_score away_score over_under : json) :
  ordinary_or_null home_score -> ordinary_or_null away_score ->
  ordinary_or_null over_under ->
  exists r, Nflverse.calculate_ou_result home_score away_score over_under = Ok r.
Proof.
  intros Hh Ha Hs. unfold Nflverse.calculate_ou_result.
  destruct (is_none over_under || is_none home_score || is_none away_score)
    eqn:E; [eexists; reflexivity|].
  apply Bool.orb_false_elim in E. destruct E as [E Ea].
  apply Bool.orb_false_elim in E. destruct E as [Es Eh].
  destruct (ordinary_number _ Hh Eh) as (nh & Hnh & Hbh).
  destruct (ordinary_number _ Ha Ea) as (na & Hna & Hba).
  destruct (ordinary_number _ Hs Es) as (ns & Hns & Hbs).
  rewrite (add_is_arith _ _ _ Hnh).
  destruct (arith_total Z.add fadd _ _ _ _ Hnh Hna
              (small_of_ordinary _ Hbh) (small_of_ordinary _ Hba))
    as (t & nt & -> & Hnt & _).
  rewrite bind_Ok. unfold gt_value.
  destruct (lt_value_total (Val over_under) t _ _ Hns Hnt) as [g ->].
  rewrite bind_Ok. destruct g; [eexists; reflexivity|].
  destruct (lt_value_total t (Val over_under) _ _ Hnt Hns) as [l ->].
  rewrite bind_Ok. destruct l; eexists; reflexivity.
Qed.

(** An integer score beyond binary64 cannot be added to a float line. *)
Example huge_score_overflows :
  Nflverse.calculate_spread_result (JInt (2 ^ 1024)) (JInt 0) (JFloat 0.5)
    = Raise OverflowError.
Proof. vm_compute. reflexivity. Qed.

End OutcomeMore.

(** ** More on the join: what is kept of a row, and the lookup tables *)

Module JoinMore.
Import Py PyFacts Normalize JoinDefs JoinMoreDefs Join.

(** A dict comprehension over a list of keys. *)
Lemma comprehension_lookup (f : string -> json) (l : list string)
    (acc : dict) (k : string) :
  foldl (fun acc k => <[k := f k]> acc) acc l !! k =
    if bool_decide (k ∈ l) then Some (f k) else acc !! k.
Proof.
  revert acc. induction l as [|x l IH]; intros acc.
  - rewrite bool_decide_eq_false_2 by apply not_elem_of_nil. reflexivity.
  - cbn [foldl]. rewrite IH.
    destruct (decide (k ∈ l)) as [Hin | Hnot].
    + rewrite !bool_decide_eq_true_2; auto. apply elem_of_cons. auto.
    + rewrite (bool_decide_eq_false_2 _ Hnot). rewrite lookup_insert.
      destruct (decide (x = k)) as [-> | Hne].
      * rewrite bool_decide_eq_true_2 by (apply elem_of_cons; auto).
        reflexivity.
      * rewrite bool_decide_eq_false_2; [reflexivity|].
        intros Hin. apply elem_of_cons in Hin. destruct Hin; congruence.
Qed.

(** X1. [trim_stat_row] keeps exactly the columns of [KEEP_STATS]: each of
    them is in the result, with the value of the row or an explicit null
    when the row lacks it, and no other column of the row is. *)
Theorem trim_stat_row_lookup (row : dict) (k : string) :
  trim_stat_row row !! k =
    if bool_decide (k ∈ KEEP_STATS) then Some (get row k) else None.
Proof.
  unfold trim_stat_row. rewrite comprehension_lookup, lookup_empty.
  reflexivity.
Qed.

Lemma keep_stats_not_added : Forall (fun k => k ∉ added_fields) KEEP_STATS.
Proof. apply (bool_decide_unpack _). vm_compute. exact I. Qed.

Section WithRepr.

Variable float_repr : Q -> string.

Abbreviation main := (Normalize.main float_repr).
Abbreviation step := (Normalize.step float_repr).
Abbreviation player_part := (JoinDefs.player_part float_repr).
Abbreviation written_from := (JoinMoreDefs.written_from float_repr).
Abbreviation index_games := (Normalize.index_games float_repr).
Abbreviation home_key := (JoinMoreDefs.home_key float_repr).
Abbreviation away_key := (JoinMoreDefs.away_key float_repr).

(** Outside the keys it adds, the loop leaves the trimmed row as it is. *)
Lemma player_part_other (meta_by_id : gmap pykey dict)
    (snap_by_key : gmap string dict) (stat : dict) (team_canonical : string)
    (k : string) :
  k ∉ (metadata_fields ++ name_fields ++ snap_fields)%list ->
  player_part meta_by_id snap_by_key stat team_canonical !! k
    = trim_stat_row stat !! k.
Proof.
  intros Hk. unfold metadata_fields, name_fields, snap_fields in Hk.
  cbn [app] in Hk. split_not_elem Hk.
  unfold JoinDefs.player_part, with_player_context. lookup_inserts.
  reflexivity.
Qed.

Lemma written_from_other (meta_by_id : gmap pykey dict)
    (snap_by_key game_by_key : gmap string dict) (stat r : dict) (k : string) :
  written_from meta_by_id snap_by_key game_by_key stat r ->
  k ∉ context_fields ->
  exists team_canonical,
    team_canonical_of stat = Some team_canonical /\
    r !! k = player_part meta_by_id snap_by_key stat team_canonical !! k.
Proof.
  intros (tc & Htc & [(g & b & Hr) | ->]) Hk; exists tc; split; auto.
  - apply (with_game_context_spec _ _ _ _ Hr). exact Hk.
  - apply without_game_context_spec. exact Hk.
Qed.

(** The records written are, in order, those of the rows that pass the
    guards. *)
Lemma main_written_from (stats metadata snaps games : list dict) (st : state) :
  main stats metadata snaps games = Ok st ->
  Forall2 (written_from (index_metadata metadata)
             (index_snaps float_repr snaps) (index_games games))
          (filter (fun s => emitted s = true) stats) (results st).
Proof.
  unfold Normalize.main.
  apply (for_each_inv _
    (fun l st =>
       Forall2 (written_from (index_metadata metadata)
                  (index_snaps float_repr snaps) (index_games games))
               (filter (fun s => emitted s = true) l) (results st))).
  - rewrite filter_nil. constructor.
  - intros l stat s s' IH Hstep. rewrite list.filter_app.
    destruct (emitted stat) eqn:Eem.
    + destruct (emitted_inv _ Eem) as (Hid & tc & Htc).
      rewrite filter_cons_True, filter_nil by exact Eem.
      destruct (step_emitted _ _ _ _ _ _ _ _ Hid Htc Hstep)
        as [(g & b & r & _ & _ & Hr & ->) | (Hr & _ & _)].
      * cbn [results]. apply Forall2_app; [exact IH|].
        constructor; [|constructor]. exists tc. split; [exact Htc|].
        left. exists g, b. exact Hr.
      * rewrite Hr. apply Forall2_app; [exact IH|].
        constructor; [|constructor]. exists tc. split; [exact Htc|].
        right. reflexivity.
    + rewrite (step_skipped _ _ _ _ _ _ Eem) in Hstep. injection Hstep as <-.
      rewrite filter_cons_False, filter_nil, app_nil_r
        by (rewrite Eem; discriminate).
      exact IH.
Qed.

(** X2. The statistics of a row pass through the join unchanged and in
    order: the records written are, one for one and in the order of the
    input, those of the rows that pass the guards, and each carries every
    column of [KEEP_STATS] with the value of its row (null when the row
    lacks the column).  No key added by the join overwrites one. *)
Theorem stat_columns_pass_through (stats metadata snaps games : list dict)
    (st : state) :
  main stats metadata snaps games = Ok st ->
  Forall2 (fun stat r => forall k, k ∈ KEEP_STATS -> r !! k = Some (get stat k))
          (filter (fun s => emitted s = true) stats) (results st).
Proof.
  intros Hmain.
  eapply list.Forall2_impl; [exact (main_written_from _ _ _ _ _ Hmain)|].
  intros stat r Hw k Hk. cbv beta.
  pose proof (proj1 (list.Forall_forall _ _) keep_stats_not_added k Hk) as Hadd.
  unfold added_fields in Hadd.
  rewrite !not_elem_of_app in Hadd. destruct Hadd as (Hm & Hn & Hs & Hc).
  destruct (written_from_other _ _ _ _ _ k Hw Hc) as (tc & _ & ->).
  rewrite player_part_other
    by (rewrite !not_elem_of_app; auto).
  rewrite trim_stat_row_lookup, bool_decide_eq_true_2 by exact Hk.
  reflexivity.
Qed.

(** How an iteration leaves the four variables of the loop. *)
Lemma step_shape (meta_by_id : gmap pykey dict)
    (snap_by_key game_by_key : gmap string dict) (st st' : state)
    (stat : dict) :
  step meta_by_id snap_by_key game_by_key st stat = Ok st' ->
  st' = skip_unmatched st \/
  (exists r, st' = State (results st ++ [r]) (S (matched st)) (unmatched st)
                         (unmatched_examples st)) \/
  (exists r, st' = State (results st ++ [r]) (matched st) (S (unmatched st))
                         (if (length (unmatched_examples st) <? 10)%nat
                          then unmatched_examples st
                               ++ [unmatched_example float_repr stat]
                          else unmatched_examples st)).
Proof.
  unfold Normalize.step.
  destruct (missing_identity stat); [intros [= <-]; auto|].
  destruct (team_canonical_of stat) as [tc|]; [|intros [= <-]; auto].
  destruct (home_or_away tc _) as [is_home|]; [|discriminate].
  rewrite bind_Ok.
  destruct (find_game _ _ _ _ _ _) as [g|];
    [|intros [= <-]; right; right; eexists; reflexivity].
  destruct is_home as [b|];
    [|intros [= <-]; right; right; eexists; reflexivity].
  destruct (dict_truthy g);
    [|intros [= <-]; right; right; eexists; reflexivity].
  destruct (with_game_context g b _) as [r|]; [|discriminate].
  rewrite bind_Ok. intros [= <-]. right. left. eexists; reflexivity.
Qed.

(** X3. The sample of unmatched rows is bounded: [main] keeps one line for
    each of the first ten rows it writes without game context and none
    after, so the sample has as many lines as there are such rows, and ten
    at most.  Rows dropped by the guards leave no line. *)
Theorem unmatched_sample_length (stats metadata snaps games : list dict)
    (st : state) :
  main stats metadata snaps games = Ok st ->
  length (unmatched_examples st)
    = Nat.min 10 (length (results st) - matched st) /\
  (length (unmatched_examples st) <= 10)%nat.
Proof.
  intros Hmain.
  assert (length (unmatched_examples st)
            = Nat.min 10 (length (results st) - matched st) /\
          (matched st <= length (results st))%nat) as [H _]; [|lia].
  revert Hmain. unfold Normalize.main.
  apply (for_each_inv _
    (fun (_ : list dict) st =>
       length (unmatched_examples st)
         = Nat.min 10 (length (results st) - matched st) /\
       (matched st <= length (results st))%nat)).
  - split; reflexivity.
  - intros l stat s s' [Hlen Hle] Hstep.
    destruct (step_shape _ _ _ _ _ _ Hstep)
      as [-> | [(r & ->) | (r & ->)]];
      cbn [skip_unmatched results matched unmatched_examples];
      rewrite ?length_app; cbn [length]; [lia | lia |].
    destruct (Nat.ltb_spec (length (unmatched_examples s)) 10);
      rewrite ?length_app; cbn [length]; lia.
Qed.

(** X4. The game index: a game enters [game_by_key] when its season and
    its two team names are present, under its home key and under its away
    key; what a key finds is always such a game of the feed, and the last
    game of the feed is found under both of its keys. *)
Theorem game_index_lookup (games : list dict) :
  (forall k g,
     index_games games !! k = Some g ->
     g ∈ games /\ indexable g = true /\ (k = home_key g \/ k = away_key g)) /\
  (forall g,
     g ∈ games -> indexable g = true ->
     is_Some (index_games games !! home_key g) /\
     is_Some (index_games games !! away_key g)) /\
  (forall before g,
     games = (before ++ [g])%list -> indexable g = true ->
     index_games games !! home_key g = Some g /\
     index_games games !! away_key g = Some g).
Proof.
  assert (forall idx g,
            index_game float_repr idx g =
              if indexable g
              then <[away_key g := g]> (<[home_key g := g]> idx)
              else idx) as Hstep.
  { intros idx g. unfold index_game, indexable.
    destruct (truthy (get g "season")), (truthy (get g "homeTeamCanonical")),
      (truthy (get g "awayTeamCanonical")); reflexivity. }
  split; [|split].
  - induction games as [|x l IH] using rev_ind; intros k g.
    + unfold Normalize.index_games. cbn [foldl]. rewrite lookup_empty.
      discriminate.
    + unfold Normalize.index_games. rewrite foldl_snoc, Hstep.
      fold (index_games l).
      assert (index_games l !! k = Some g ->
              g ∈ (l ++ [x])%list /\ indexable g = true /\
              (k = home_key g \/ k = away_key g)) as Hold.
      { intros H. destruct (IH _ _ H) as (Hin & Hok & Hk).
        repeat split; auto. apply elem_of_app. auto. }
      destruct (indexable x) eqn:Ex; [|exact Hold].
      rewrite !lookup_insert. repeat case_decide; subst; auto;
        intros [= <-]; (split; [apply elem_of_app; right; apply elem_of_cons; auto|]);
        auto.
  - induction games as [|x l IH] using rev_ind; intros g Hin Hok.
    + apply elem_of_nil in Hin. contradiction.
    + unfold Normalize.index_games. rewrite foldl_snoc, Hstep.
      fold (index_games l).
      apply elem_of_app in Hin. destruct Hin as [Hin | Hin].
      * destruct (IH g Hin Hok) as [Hh Ha].
        destruct (indexable x); [|auto].
        rewrite !lookup_insert. repeat case_decide; eauto.
      * apply elem_of_cons in Hin. destruct Hin as [-> | Hin];
          [|apply elem_of_nil in Hin; contradiction].
        rewrite Hok, !lookup_insert. repeat case_decide; eauto; congruence.
  - intros before g -> Hok.
    unfold Normalize.index_games. rewrite foldl_snoc, Hstep, Hok.
    rewrite !lookup_insert. repeat case_decide; auto; congruence.
Qed.

(** X5. The metadata table is keyed by [gsis_id] and a later row of the
    feed replaces an earlier one: a key finds the last row that carries
    it, and nothing when no row does.  Rows without id are left out. *)
Theorem metadata_index_lookup (metadata : list dict) (k : pykey) :
  index_metadata metadata !! k =
    list.last (filter (fun m => truthy (get m "gsis_id") = true /\
                                key_of (get m "gsis_id") = k) metadata).
Proof.
  induction metadata as [|m l IH] using rev_ind; [reflexivity|].
  unfold index_metadata. rewrite foldl_snoc. fold (index_metadata l).
  rewrite list.filter_app, filter_cons, filter_nil.
  destruct (truthy (get m "gsis_id")) eqn:Et.
  - rewrite lookup_insert. case_decide as Hk.
    + rewrite decide_True by auto. rewrite last_snoc. reflexivity.
    + rewrite decide_False by (intros [_ ?]; auto).
      rewrite app_nil_r. exact IH.
  - rewrite decide_False by (intros [? _]; discriminate).
    rewrite app_nil_r. exact IH.
Qed.

(** X6. Every record written carries the seven fields of the player
    metadata: each is read from the last metadata row with the id of the
    player, and is an explicit null when there is no such row or the row
    lacks the column; [draftRound] is always null. *)
Theorem metadata_merged (stats metadata snaps games : list dict) (st : state) :
  main stats metadata snaps games = Ok st ->
  Forall2 (fun stat r =>
             let meta := metadata_of metadata (get stat "player_id") in
             r !! "birthDate" = Some (get meta "birth_date") /\
             r !! "college" = Some (get meta "college") /\
             r !! "draftYear" = Some (get meta "entry_year") /\
             r !! "draftRound" = Some JNull /\
             r !! "draftPick" = Some (get meta "draft_number") /\
             r !! "yearsExp" = Some (get meta "years_exp") /\
             r !! "jerseyNumber" = Some (get meta "jersey_number"))
          (filter (fun s => emitted s = true) stats) (results st).
Proof.
  intros Hmain.
  eapply list.Forall2_impl; [exact (main_written_from _ _ _ _ _ Hmain)|].
  intros stat r Hw. cbv beta zeta.
  assert (forall k, k ∈ metadata_fields -> k ∉ context_fields) as Hctx.
  { intros k Hk.
    assert (Forall (fun k => k ∉ context_fields) metadata_fields) as Hall
      by (apply (bool_decide_unpack _); vm_compute; exact I).
    exact (proj1 (list.Forall_forall _ _) Hall k Hk). }
  assert (forall k, k ∈ metadata_fields ->
            exists tc, r !! k = player_part (index_metadata metadata)
                                  (index_snaps float_repr snaps) stat tc !! k)
    as Hr.
  { intros k Hk. destruct (written_from_other _ _ _ _ _ k Hw (Hctx k Hk))
      as (tc & _ & H). exists tc. exact H. }
  unfold metadata_of. rewrite <- metadata_index_lookup.
  repeat split;
    match goal with
    | |- r !! ?k = _ =>
        let H := fresh in
        destruct (Hr k) as [tc H];
        [unfold metadata_fields; repeat constructor|];
        rewrite H; unfold JoinDefs.player_part, with_player_context;
        lookup_inserts; reflexivity
    end.
Qed.

(** X7. Every record written names its team: [teamCanonical] is the alias
    of the team code of the row, never a null, and [opponentCanonical] is
    the alias of the opponent's code, or that code itself when it has no
    alias. *)
Theorem canonical_names_written (stats metadata snaps games : list dict)
    (st : state) :
  main stats metadata snaps games = Ok st ->
  Forall2 (fun stat r =>
             exists name,
               lookup_str TEAM_ABBREV_MAP (get stat "team") = Some name /\
               r !! "teamCanonical" = Some (JStr name) /\
               r !! "opponentCanonical" =
                 Some (match lookup_str TEAM_ABBREV_MAP (get stat "opponent_team") with
                       | Some opp => JStr opp
                       | None => get stat "opponent_team"
                       end))
          (filter (fun s => emitted s = true) stats) (results st).
Proof.
  intros Hmain.
  eapply list.Forall2_impl; [exact (main_written_from _ _ _ _ _ Hmain)|].
  intros stat r Hw. cbv beta.
  assert ("teamCanonical" ∉ context_fields) as H1
    by (apply (bool_decide_unpack _); vm_compute; exact I).
  assert ("opponentCanonical" ∉ context_fields) as H2
    by (apply (bool_decide_unpack _); vm_compute; exact I).
  destruct (written_from_other _ _ _ _ _ _ Hw H1) as (tc & Htc & Ht).
  destruct (written_from_other _ _ _ _ _ _ Hw H2) as (tc' & Htc' & Ho).
  assert (tc' = tc) as -> by congruence.
  exists tc. split; [|split].
  - unfold team_canonical_of in Htc.
    destruct (lookup_str TEAM_ABBREV_MAP (get stat "team")) as [name|];
      [|discriminate].
    destruct (String.eqb name ""); congruence.
  - rewrite Ht. unfold JoinDefs.player_part, with_player_context.
    lookup_inserts. reflexivity.
  - rewrite Ho. apply player_part_opponent.
Qed.

End WithRepr.

Ltac in_list :=
  repeat first [ apply list_elem_of_here | apply list_elem_of_further ].

(** [<] never holds both ways. *)
Lemma lt_asym (a b : json) : lt a b = Ok true -> lt b a = Ok true -> False.
Proof.
  unfold lt.
  destruct a as [| x | x | x | x], b as [| y | y | y | y];
    cbn [to_num]; try discriminate;
    try (intros [= H1] [= H2]; apply Qltb_lt in H1, H2; lra).
  intros [= H1] [= H2]. rewrite String.compare_antisym in H2.
  destruct (String.compare x y); discriminate.
Qed.

(** X8. The two sides of a game mirror each other: in the record written
    from the home side and in the one written from the away side the
    scores are swapped, a win on one side is a loss on the other and a tie
    is a tie, the spreads are opposite numbers (or both null), and the
    total is the same. *)
Theorem sides_mirror (g : dict) (t_home t_away r_home r_away : dict) :
  with_game_context g true t_home = Ok r_home ->
  with_game_context g false t_away = Ok r_away ->
  r_home !! "teamScore" = r_away !! "opponentScore" /\
  r_home !! "opponentScore" = r_away !! "teamScore" /\
  get r_away "gameResult" = flip_result (get r_home "gameResult") /\
  r_home !! "overUnder" = r_away !! "overUnder" /\
  (get g "spread" = JNull ->
   get r_home "spread" = JNull /\ get r_away "spread" = JNull) /\
  (forall q, to_num (get g "spread") = Some q ->
     to_num (get r_home "spread") = Some q /\
     exists q', to_num (get r_away "spread") = Some q' /\ (q' == - q)%Q).
Proof.
  intros Hh Ha.
  destruct (with_game_context_spec _ _ _ _ Hh)
    as [(res & sp & Hres & Hsp & Hf) _].
  destruct (with_game_context_spec _ _ _ _ Ha)
    as [(res' & sp' & Hres' & Hsp' & Hf') _].
  pose proof (proj1 (list.Forall_forall _ _) Hf) as Hhome.
  pose proof (proj1 (list.Forall_forall _ _) Hf') as Haway.
  assert (forall k v, (k, v) ∈ context_of g true res sp ->
                      r_home !! k = Some v) as Hhome'
    by (intros k v Hin; exact (Hhome _ Hin)).
  assert (forall k v, (k, v) ∈ context_of g false res' sp' ->
                      r_away !! k = Some v) as Haway'
    by (intros k v Hin; exact (Haway _ Hin)).
  assert (r_home !! "teamScore" = Some (get g "homeScore")) as E1
    by (apply Hhome'; unfold context_of; in_list).
  assert (r_home !! "opponentScore" = Some (get g "awayScore")) as E2
    by (apply Hhome'; unfold context_of; in_list).
  assert (r_away !! "teamScore" = Some (get g "awayScore")) as E3
    by (apply Haway'; unfold context_of; in_list).
  assert (r_away !! "opponentScore" = Some (get g "homeScore")) as E4
    by (apply Haway'; unfold context_of; in_list).
  assert (r_home !! "gameResult" = Some res) as E5
    by (apply Hhome'; unfold context_of; in_list).
  assert (r_away !! "gameResult" = Some res') as E6
    by (apply Haway'; unfold context_of; in_list).
  assert (r_home !! "spread" = Some sp) as E7
    by (apply Hhome'; unfold context_of; in_list).
  assert (r_away !! "spread" = Some sp') as E8
    by (apply Haway'; unfold context_of; in_list).
  assert (r_home !! "overUnder" = Some (get g "overUnder")) as E9
    by (apply Hhome'; unfold context_of; in_list).
  assert (r_away !! "overUnder" = Some (get g "overUnder")) as E10
    by (apply Haway'; unfold context_of; in_list).
  assert (get r_home "gameResult" = res) as ->
    by (unfold get; rewrite E5; reflexivity).
  assert (get r_away "gameResult" = res') as ->
    by (unfold get; rewrite E6; reflexivity).
  assert (get r_home "spread" = sp) as ->
    by (unfold get; rewrite E7; reflexivity).
  assert (get r_away "spread" = sp') as ->
    by (unfold get; rewrite E8; reflexivity).
  rewrite E1, E2, E3, E4, E9, E10.
  split; [reflexivity|]. split; [reflexivity|]. split; [|split; [reflexivity|]].
  - revert Hres Hres'. unfold game_result, gt.
    destruct (is_none (get g "homeScore")) eqn:N1;
      destruct (is_none (get g "awayScore")) eqn:N2; cbn [negb andb];
      try (intros [= <-] [= <-]; reflexivity).
    destruct (lt (get g "awayScore") (get g "homeScore")) as [[|]|] eqn:L1;
      destruct (lt (get g "homeScore") (get g "awayScore")) as [[|]|] eqn:L2;
      rewrite ?bind_Ok, ?bind_Raise, ?L1, ?L2, ?bind_Ok, ?bind_Raise;
      try discriminate;
      try (intros [= <-] [= <-]; reflexivity).
    exfalso. exact (lt_asym _ _ L1 L2).
  - revert Hsp Hsp'. unfold team_spread.
    destruct (get g "spread") as [| x | x | x | x];
      cbn [is_none negb neg]; try discriminate; intros [= <-] [= <-];
      (split; [intros Hnull; try discriminate Hnull; auto|]);
      intros q Hq; try discriminate Hq; (split; [exact Hq|]);
      cbn [to_num] in *; injection Hq as <-;
      eexists; (split; [reflexivity|]).
    + destruct x; reflexivity.
    + rewrite inject_Z_opp. reflexivity.
    + reflexivity.
Qed.

Lemma stat_columns_pass_through_witness :
  exists st,
    run [rams_stat; unknown_team_stat] [kupp_metadata] [] [rams_game] = Ok st /\
    Forall2 (fun stat r =>
               forall k, k ∈ KEEP_STATS -> r !! k = Some (get stat k))
            (filter (fun s => emitted s = true) [rams_stat; unknown_team_stat])
            (results st).
Proof.
  destruct (main_total Parse.decimal_repr [rams_stat; unknown_team_stat]
              [kupp_metadata] [] [rams_game] rams_game_ok) as [st E].
  exists st. split; [exact E|].
  exact (stat_columns_pass_through Parse.decimal_repr _ _ _ _ _ E).
Defined.

Lemma unmatched_sample_length_witness :
  exists st,
    run [rams_stat; unknown_opponent_stat; anonymous_stat] [] [] [] = Ok st /\
    length (unmatched_examples st)
      = Nat.min 10 (length (results st) - matched st) /\
    (length (unmatched_examples st) <= 10)%nat.
Proof.
  destruct (main_total Parse.decimal_repr
              [rams_stat; unknown_opponent_stat; anonymous_stat] [] [] []
              (Forall_nil _)) as [st E].
  exists st. split; [exact E|].
  exact (unmatched_sample_length Parse.decimal_repr _ _ _ _ _ E).
Defined.

Lemma game_index_lookup_witness :
  Normalize.index_games Parse.decimal_repr [rams_game_capitals; rams_game]
    !! home_key Parse.decimal_repr rams_game = Some rams_game /\
  Normalize.index_games Parse.decimal_repr [rams_game_capitals; rams_game]
    !! away_key Parse.decimal_repr rams_game = Some rams_game.
Proof.
  destruct (game_index_lookup Parse.decimal_repr
              [rams_game_capitals; rams_game]) as (_ & _ & Hlast).
  apply (Hlast [rams_game_capitals] rams_game); [reflexivity | by_computation].
Defined.

Lemma metadata_merged_witness :
  exists st,
    run [rams_stat] [kupp_metadata_old; kupp_metadata] [] [rams_game] = Ok st /\
    Forall2 (fun stat r =>
               let meta := metadata_of [kupp_metadata_old; kupp_metadata]
                             (get stat "player_id") in
               r !! "birthDate" = Some (get meta "birth_date") /\
               r !! "college" = Some (get meta "college") /\
               r !! "draftYear" = Some (get meta "entry_year") /\
               r !! "draftRound" = Some JNull /\
               r !! "draftPick" = Some (get meta "draft_number") /\
               r !! "yearsExp" = Some (get meta "years_exp") /\
               r !! "jerseyNumber" = Some (get meta "jersey_number"))
            (filter (fun s => emitted s = true) [rams_stat]) (results st).
Proof.
  destruct (main_total Parse.decimal_repr [rams_stat]
              [kupp_metadata_old; kupp_metadata] [] [rams_game] rams_game_ok)
    as [st E].
  exists st. split; [exact E|].
  exact (metadata_merged Parse.decimal_repr _ _ _ _ _ E).
Defined.

(** The later of the two metadata rows is the one that is read. *)
Example later_metadata_row_read :
  field_of (run [rams_stat] [kupp_metadata_old; kupp_metadata] [] [rams_game])
    0 "yearsExp" = Some (JInt 7) /\
  field_of (run [rams_stat] [] [] [rams_game]) 0 "yearsExp" = Some JNull.
Proof. split; by_computation. Qed.

Lemma canonical_names_written_witness :
  exists st,
    run [rams_stat; unknown_opponent_stat] [] [] [rams_game] = Ok st /\
    Forall2 (fun stat r =>
               exists name,
                 lookup_str TEAM_ABBREV_MAP (get stat "team") = Some name /\
                 r !! "teamCanonical" = Some (JStr name) /\
                 r !! "opponentCanonical" =
                   Some (match lookup_str TEAM_ABBREV_MAP
                                 (get stat "opponent_team") with
                         | Some opp => JStr opp
                         | None => get stat "opponent_team"
                         end))
            (filter (fun s => emitted s = true)
                    [rams_stat; unknown_opponent_stat]) (results st).
Proof.
  destruct (main_total Parse.decimal_repr [rams_stat; unknown_opponent_stat]
              [] [] [rams_game] rams_game_ok) as [st E].
  exists st. split; [exact E|].
  exact (canonical_names_written Parse.decimal_repr _ _ _ _ _ E).
Defined.

Lemma sides_mirror_witness :
  exists r_home r_away,
    with_game_context rams_game true ∅ = Ok r_home /\
    with_game_context rams_game false ∅ = Ok r_away /\
    r_home !! "teamScore" = r_away !! "opponentScore" /\
    r_home !! "opponentScore" = r_away !! "teamScore" /\
    get r_away "gameResult" = flip_result (get r_home "gameResult") /\
    r_home !! "overUnder" = r_away !! "overUnder" /\
    (get rams_game "spread" = JNull ->
     get r_home "spread" = JNull /\ get r_away "spread" = JNull) /\
    (forall q, to_num (get rams_game "spread") = Some q ->
       to_num (get r_home "spread") = Some q /\
       exists q', to_num (get r_away "spread") = Some q' /\ (q' == - q)%Q).
Proof.
  pose proof (Forall_inv rams_game_ok) as Hok.
  destruct (with_game_context_total rams_game true ∅ Hok) as [r_home Eh].
  destruct (with_game_context_total rams_game false ∅ Hok) as [r_away Ea].
  exists r_home, r_away. split; [exact Eh|]. split; [exact Ea|].
  exact (sides_mirror rams_game ∅ ∅ r_home r_away Eh Ea).
Defined.

(** The game of the examples from its two sides. *)
Example rams_game_two_sides :
  (r ← with_game_context rams_game true ∅;
   Ok (map (get r) ["teamScore"; "opponentScore"; "gameResult"; "spread"]))
    = Ok [JInt 27; JInt 24; JStr "W"; JFloat 3.5] /\
  (r ← with_game_context rams_game false ∅;
   Ok (map (get r) ["teamScore"; "opponentScore"; "gameResult"]))
    = Ok [JInt 24; JInt 27; JStr "L"].
Proof. split; by_computation. Qed.

End JoinMore.

(** ** More on the fill loop of the nflverse importer *)

Module NflverseFill.
Import Py PyFacts FillMoreDefs Nflverse.

Lemma season_total_bump (by_season : gmap pykey nat) (k : pykey) :
  season_total (<[k := S (default 0%nat (by_season !! k))]> by_season)
    = S (season_total by_season).
Proof.
  unfold season_total.
  assert (forall z1 z2 y : nat, (z1 + (z2 + y) = z2 + (z1 + y))%nat) as Hcomm
    by (intros; lia).
  destruct (by_season !! k) as [n|] eqn:E; cbn [default from_option id].
  - rewrite <- insert_delete_eq.
    rewrite map_fold_insert_L; [|intros; apply Hcomm|apply lookup_delete_eq].
    rewrite (map_fold_delete_L _ _ k n by_season);
      [simpl; lia|intros; apply Hcomm|exact E].
  - rewrite map_fold_insert_L; [simpl; lia|intros; apply Hcomm|exact E].
Qed.

Section WithRepr.

Variable float_repr : Q -> string.

Abbreviation fill_game := (Nflverse.fill_game float_repr).
Abbreviation fill_step := (Nflverse.fill_step float_repr).
Abbreviation main := (Nflverse.main float_repr).

(** The four ways an iteration ends. *)
Lemma fill_game_inv (nflverse_index : index) (game game' : dict) (o : outcome) :
  fill_game nflverse_index game = Ok (game', o) ->
  match o with
  | Filled =>
      is_none (get game "spread") = true /\
      exists m sr our,
        is_none (entry_spread_line m) = false /\
        calculate_spread_result (get game "homeScore") (get game "awayScore")
          (entry_spread_line m) = Ok sr /\
        calculate_ou_result (get game "homeScore") (get game "awayScore")
          (entry_total_line m) = Ok our /\
        game' = <["ouResult" := our]> (<["spreadResult" := sr]>
                  (<["overUnder" := entry_total_line m]>
                     (<["spread" := entry_spread_line m]> game)))
  | AlreadyHas => is_none (get game "spread") = false /\ game' = game
  | Skipped | NotFound => is_none (get game "spread") = true /\ game' = game
  end.
Proof.
  unfold Nflverse.fill_game.
  destruct (is_none (get game "spread")) eqn:Enone; cbn [negb];
    [|intros [= <- <-]; auto].
  destruct (_ || _); [intros [= <- <-]; auto|].
  destruct (index_get _ _ _ _) as [m|]; [|intros [= <- <-]; auto].
  destruct (is_none (entry_spread_line m)) eqn:Em; cbn [negb];
    [intros [= <- <-]; auto|].
  assert (forall (d : dict) k, k <> "spread" -> k <> "overUnder" ->
            get (<["overUnder" := entry_total_line m]>
                   (<["spread" := entry_spread_line m]> d)) k = get d k) as Hget.
  { intros d k H1 H2. unfold get. rewrite !lookup_insert_ne by congruence.
    reflexivity. }
  assert (forall (d : dict) v k, k <> "spreadResult" ->
            get (<["spreadResult" := v]> d) k = get d k) as Hget'.
  { intros d v k H1. unfold get. rewrite lookup_insert_ne by congruence.
    reflexivity. }
  rewrite !Hget by discriminate.
  destruct (calculate_spread_result _ _ _) as [sr|] eqn:Esr; [|discriminate].
  rewrite bind_Ok, !Hget', !Hget by discriminate.
  destruct (calculate_ou_result _ _ _) as [our|] eqn:Eou; [|discriminate].
  rewrite bind_Ok. intros [= <- <-]. split; [reflexivity|].
  exists m, sr, our. auto.
Qed.

Lemma fill_game_only_filled (nflverse_index : index) (game game' : dict)
    (o : outcome) :
  fill_game nflverse_index game = Ok (game', o) -> only_filled game game'.
Proof.
  intros H. apply fill_game_inv in H. unfold only_filled.
  destruct o.
  - destruct H as [_ ->]. auto.
  - destruct H as [_ ->]. auto.
  - destruct H as (Hnone & m & sr & our & _ & _ & _ & ->). split.
    + intros k Hk. unfold fill_fields in Hk.
      repeat (apply not_elem_of_cons in Hk; destruct Hk as [? Hk]).
      rewrite !lookup_insert_ne by congruence. reflexivity.
    + rewrite Hnone. discriminate.
  - destruct H as [_ ->]. auto.
Qed.

Lemma fill_step_inv (nflverse_index : index) (st st' : fill_state)
    (game : dict) :
  fill_step nflverse_index st game = Ok st' ->
  exists game' o,
    fill_game nflverse_index game = Ok (game', o) /\
    st' = count st game' o (get game "season").
Proof.
  unfold Nflverse.fill_step.
  destruct (fill_game nflverse_index game) as [[game' o]|]; [|discriminate].
  rewrite bind_Ok. intros [= <-]. exists game', o. auto.
Qed.

Lemma games_count (st : fill_state) (game : dict) (o : outcome) (season : json) :
  games (count st game o season) = (games st ++ [game])%list.
Proof. destruct o; reflexivity. Qed.

(** X9. The nflverse importer writes nothing but the four betting fields:
    it returns the games in their order, one for one, a game that has a
    spread comes back as it was, and in every other game each key other
    than [spread], [overUnder], [spreadResult] and [ouResult] keeps its
    value. *)
Theorem nflverse_only_fills (games_in : list dict) (sched : list sched_row)
    (st : fill_state) :
  main games_in sched = Ok st ->
  Forall2 only_filled games_in (games st).
Proof.
  intros Hfill. apply MainFacts.nflverse_main_parts in Hfill.
  destruct Hfill as [Hfill _]. revert Hfill. unfold Nflverse.fill_games.
  apply (for_each_inv _ (fun l st => Forall2 only_filled l (games st))).
  - constructor.
  - intros l g s s' IH Hstep.
    destruct (fill_step_inv _ _ _ _ Hstep) as (g' & o & Hg & ->).
    rewrite games_count. apply Forall2_app; [exact IH|].
    constructor; [|constructor]. exact (fill_game_only_filled _ _ _ _ Hg).
Qed.

(** X10. The counters of the nflverse importer add up: [already_has] is
    the number of games that came with a spread, every game it fills has a
    spread afterwards, so the number of games without spread goes down by
    exactly [filled], and [filled + not_found] never exceeds the number of
    games that came without one. *)
Theorem nflverse_counters (games_in : list dict) (sched : list sched_row)
    (st : fill_state) :
  main games_in sched = Ok st ->
  (already_has st + count_missing games_in = length games_in)%nat /\
  (count_missing (games st) + filled st = count_missing games_in)%nat /\
  (filled st + not_found st <= count_missing games_in)%nat.
Proof.
  intros Hfill. apply MainFacts.nflverse_main_parts in Hfill.
  destruct Hfill as [Hfill _]. revert Hfill. unfold Nflverse.fill_games.
  apply (for_each_inv _
    (fun l st =>
       (already_has st + count_missing l = length l)%nat /\
       (count_missing (games st) + filled st = count_missing l)%nat /\
       (filled st + not_found st <= count_missing l)%nat)).
  - repeat split; cbn; lia.
  - intros l g s s' (H1 & H2 & H3) Hstep.
    destruct (fill_step_inv _ _ _ _ Hstep) as (g' & o & Hg & ->).
    apply fill_game_inv in Hg. rewrite games_count.
    unfold count_missing in *.
    rewrite !list.filter_app, !length_app, !filter_cons, !filter_nil.
    destruct o.
    + destruct Hg as [Hn ->]. rewrite Hn.
      rewrite !decide_False by discriminate.
      cbn [count already_has filled not_found length]. lia.
    + destruct Hg as [Hn ->]. rewrite Hn.
      rewrite !decide_True by reflexivity.
      cbn [count already_has filled not_found length]. lia.
    + destruct Hg as (Hn & m & sr & our & Hm & _ & _ & ->). rewrite Hn.
      assert (is_none (get (<["ouResult" := our]> (<["spreadResult" := sr]>
                (<["overUnder" := entry_total_line m]>
                   (<["spread" := entry_spread_line m]> g)))) "spread")
              = false) as ->.
      { unfold get. rewrite !lookup_insert_ne, lookup_insert_eq by discriminate.
        exact Hm. }
      rewrite decide_True, decide_False by (reflexivity || discriminate).
      cbn [count already_has filled not_found length]. lia.
    + destruct Hg as [Hn ->]. rewrite Hn.
      rewrite !decide_True by reflexivity.
      cbn [count already_has filled not_found length]. lia.
Qed.

(** X11. The per-season breakdown of the nflverse importer sums to
    [filled]. *)
Theorem nflverse_by_season_total (games_in : list dict)
    (sched : list sched_row) (st : fill_state) :
  main games_in sched = Ok st ->
  season_total (by_season st) = filled st.
Proof.
  intros Hfill. apply MainFacts.nflverse_main_parts in Hfill.
  destruct Hfill as [Hfill _]. revert Hfill. unfold Nflverse.fill_games.
  apply (for_each_inv _
    (fun (_ : list dict) st => season_total (by_season st) = filled st)).
  - reflexivity.
  - intros l g s s' IH Hstep.
    destruct (fill_step_inv _ _ _ _ Hstep) as (g' & o & _ & ->).
    destruct o; cbn [count by_season filled]; try exact IH.
    rewrite season_total_bump, IH. reflexivity.
Qed.

(** X12. A game filled by the nflverse importer carries results that agree
    with its own fields: [spreadResult] and [ouResult] are what the two
    formulas give on the scores, the spread and the total the game now
    has. *)
Theorem nflverse_results_consistent (games_in : list dict)
    (sched : list sched_row) (st : fill_state) :
  main games_in sched = Ok st ->
  Forall2 (fun g g' =>
             is_none (get g "spread") = true ->
             is_none (get g' "spread") = false ->
             calculate_spread_result (get g' "homeScore") (get g' "awayScore")
               (get g' "spread") = Ok (get g' "spreadResult") /\
             calculate_ou_result (get g' "homeScore") (get g' "awayScore")
               (get g' "overUnder") = Ok (get g' "ouResult"))
          games_in (games st).
Proof.
  intros Hfill. apply MainFacts.nflverse_main_parts in Hfill.
  destruct Hfill as [Hfill _]. revert Hfill. unfold Nflverse.fill_games.
  apply (for_each_inv _
    (fun l st =>
       Forall2 (fun g g' =>
             is_none (get g "spread") = true ->
             is_none (get g' "spread") = false ->
             calculate_spread_result (get g' "homeScore") (get g' "awayScore")
               (get g' "spread") = Ok (get g' "spreadResult") /\
             calculate_ou_result (get g' "homeScore") (get g' "awayScore")
               (get g' "overUnder") = Ok (get g' "ouResult"))
          l (games st))).
  - constructor.
  - intros l g s s' IH Hstep.
    destruct (fill_step_inv _ _ _ _ Hstep) as (g' & o & Hg & ->).
    rewrite games_count. apply Forall2_app; [exact IH|].
    constructor; [|constructor]. intros Hnone Hsome.
    apply fill_game_inv in Hg. destruct o.
    + destruct Hg as [_ ->]. congruence.
    + destruct Hg as [_ ->]. congruence.
    + destruct Hg as (_ & m & sr & our & _ & Hsr & Hou & ->).
      unfold get.
      repeat first [ rewrite lookup_insert_eq
                   | rewrite lookup_insert_ne by discriminate ].
      cbn [default from_option id].
      fold (get g "homeScore"). fold (get g "awayScore"). auto.
    + destruct Hg as [_ ->]. congruence.
Qed.

(** A second look at a game the loop has left: nothing more is filled. *)
Lemma fill_game_again (nflverse_index : index) (game game' : dict)
    (o : outcome) :
  fill_game nflverse_index game = Ok (game', o) ->
  fill_game nflverse_index game'
    = Ok (game', match o with Filled => AlreadyHas | _ => o end).
Proof.
  intros H. pose proof (fill_game_inv _ _ _ _ H) as Hinv. destruct o.
  - destruct Hinv as [_ ->]. exact H.
  - destruct Hinv as [_ ->]. exact H.
  - destruct Hinv as (_ & m & sr & our & Hm & _ & _ & ->).
    unfold Nflverse.fill_game.
    assert (get (<["ouResult" := our]> (<["spreadResult" := sr]>
                (<["overUnder" := entry_total_line m]>
                   (<["spread" := entry_spread_line m]> game)))) "spread"
            = entry_spread_line m) as ->.
    { unfold get. rewrite !lookup_insert_ne, lookup_insert_eq by discriminate.
      reflexivity. }
    rewrite Hm. reflexivity.
  - destruct Hinv as [_ ->]. exact H.
Qed.

Lemma fill_run_again (nflverse_index : index) (l : list dict)
    (st0 st : fill_state) :
  for_each (fill_step nflverse_index) l st0 = Ok st ->
  exists outs nf nn na,
    games st = (games st0 ++ outs)%list /\
    filled st = (filled st0 + nf)%nat /\
    not_found st = (not_found st0 + nn)%nat /\
    already_has st = (already_has st0 + na)%nat /\
    forall st0',
      exists st',
        for_each (fill_step nflverse_index) outs st0' = Ok st' /\
        games st' = (games st0' ++ outs)%list /\
        filled st' = filled st0' /\
        not_found st' = (not_found st0' + nn)%nat /\
        already_has st' = (already_has st0' + na + nf)%nat /\
        by_season st' = by_season st0'.
Proof.
  revert st0. induction l as [|g l IH]; intros st0.
  - intros [= <-]. exists [], 0%nat, 0%nat, 0%nat.
    rewrite app_nil_r. repeat split; try lia.
    intros st0'. exists st0'. rewrite app_nil_r. repeat split; lia.
  - cbn [for_each].
    destruct (fill_step nflverse_index st0 g) as [s1|] eqn:Estep;
      [|discriminate].
    rewrite bind_Ok. intros Hrest.
    destruct (fill_step_inv _ _ _ _ Estep) as (g' & o & Hg & ->).
    destruct (IH _ Hrest) as (outs & nf & nn & na & Hgames & Hf & Hn & Ha & Hagain).
    rewrite games_count in Hgames.
    exists (g' :: outs),
      (match o with Filled => S nf | _ => nf end),
      (match o with NotFound => S nn | _ => nn end),
      (match o with AlreadyHas => S na | _ => na end).
    split; [rewrite Hgames, <- app_assoc; reflexivity|].
    split; [rewrite Hf; destruct o; cbn [count filled]; lia|].
    split; [rewrite Hn; destruct o; cbn [count not_found]; lia|].
    split; [rewrite Ha; destruct o; cbn [count already_has]; lia|].
    intros st0'. cbn [for_each].
    assert (fill_step nflverse_index st0' g'
            = Ok (count st0' g' match o with Filled => AlreadyHas | _ => o end
                        (get g' "season"))) as ->.
    { unfold Nflverse.fill_step.
      rewrite (fill_game_again _ _ _ _ Hg), bind_Ok. reflexivity. }
    rewrite bind_Ok.
    destruct (Hagain (count st0' g'
                        match o with Filled => AlreadyHas | _ => o end
                        (get g' "season")))
      as (st' & Hrun & Hg' & Hf' & Hn' & Ha' & Hb').
    exists st'. split; [exact Hrun|].
    rewrite Hg', Hf', Hn', Ha', Hb', games_count, <- app_assoc.
    destruct o; cbn [count filled not_found already_has by_season];
      repeat split; lia.
Qed.

(** X13. Running the nflverse importer again on its own output, with the
    same schedule, changes nothing: when the first run ends normally, the
    second does too, its summary and spot check included, returns the
    same games and fills none; the games the first run filled are counted
    as already having a spread. *)
Theorem nflverse_rerun (games_in : list dict) (sched : list sched_row)
    (st : fill_state) :
  main games_in sched = Ok st ->
  exists st',
    main (games st) sched = Ok st' /\
    games st' = games st /\
    filled st' = 0%nat /\
    not_found st' = not_found st /\
    already_has st' = (already_has st + filled st)%nat.
Proof.
  intros Hmain. apply MainFacts.nflverse_main_parts in Hmain.
  destruct Hmain as [Hrun Hsum].
  apply MainFacts.nflverse_summary_parts in Hsum.
  destruct Hsum as (Hcov & _ & Hspot).
  unfold Nflverse.fill_games in Hrun.
  destruct (fill_run_again _ _ _ _ Hrun)
    as (outs & nf & nn & na & Hgames & Hf & Hn & Ha & Hagain).
  cbn in Hgames, Hf, Hn, Ha.
  destruct (Hagain fill_init)
    as (st' & Hrun' & Hg' & Hf' & Hn' & Ha' & Hb').
  cbn in Hg', Hf', Hn', Ha', Hb'.
  exists st'. split.
  - apply MainFacts.nflverse_main_parts. split.
    + unfold Nflverse.fill_games. rewrite Hgames. exact Hrun'.
    + apply MainFacts.nflverse_summary_parts.
      rewrite Hg', <- Hgames. repeat split; auto.
  - rewrite Hg', Hf', Hn', Ha', Hf, Hn, Ha, Hgames. repeat split.
Qed.

(** X16. The nflverse index is keyed by season, week label and home team,
    and a later schedule row replaces an earlier one: a key finds the lines
    of the last row of the schedule that has it.  A row whose home team has
    no alias, or whose game type is neither "REG" nor one of the four
    postseason types, is under no key. *)
Theorem nflverse_index_lookup (sched : list sched_row)
    (k : pykey * string * string) :
  Nflverse.build_index float_repr sched !! k =
    (fun row => Entry (spread_line row) (total_line row))
      <$> list.last (filter (fun row => sched_key float_repr row = Some k) sched).
Proof.
  assert (forall idx row,
            Nflverse.index_row float_repr idx row =
              match sched_key float_repr row with
              | Some k => <[k := Entry (spread_line row) (total_line row)]> idx
              | None => idx
              end) as Hrow.
  { intros idx row. unfold Nflverse.index_row, sched_key.
    destruct (lookup_str TEAM_ABBREV_MAP (home_team row)) as [h|];
      [|reflexivity].
    destruct (String.eqb h ""); [reflexivity|].
    destruct (if eq_str (game_type row) "REG" then _ else _); reflexivity. }
  induction sched as [|row l IH] using rev_ind; [reflexivity|].
  unfold Nflverse.build_index. rewrite foldl_snoc, Hrow.
  fold (Nflverse.build_index float_repr l).
  rewrite list.filter_app, filter_cons, filter_nil.
  destruct (sched_key float_repr row) as [k'|] eqn:Ek.
  - rewrite lookup_insert. case_decide as Hk.
    + subst k'. rewrite decide_True by reflexivity. rewrite last_snoc.
      reflexivity.
    + rewrite decide_False by congruence. rewrite app_nil_r. exact IH.
  - rewrite decide_False by discriminate. rewrite app_nil_r. exact IH.
Qed.

(** X17. When the nflverse importer fills: a game without spread, with a
    season, a week and a home team, whose scores are null, floats or
    integers of ordinary size (at most 2^52, so that no conversion to
    [float] overflows), is filled exactly when the index has an entry with
    a spread for its season, week and home team; it then gets the spread
    and the total of that entry.  Otherwise it is counted as not found and
    left as it is. *)
Theorem nflverse_fill_decision (nflverse_index : index) (game : dict)
    (home : string) :
  is_none (get game "spread") = true ->
  truthy (get game "season") = true ->
  Py.str float_repr (get_or game "week" (JStr "")) <> "" ->
  get_or game "homeTeamCanonical" (JStr "") = JStr home -> home <> "" ->
  NumberDefs.ordinary_or_null (get game "homeScore") ->
  NumberDefs.ordinary_or_null (get game "awayScore") ->
  match nflverse_index !! (key_of (get game "season"),
                           Py.str float_repr (get_or game "week" (JStr "")),
                           home) with
  | Some m =>
      if is_none (entry_spread_line m)
      then fill_game nflverse_index game = Ok (game, NotFound)
      else
        NumberDefs.ordinary_or_null (entry_spread_line m) ->
        NumberDefs.ordinary_or_null (entry_total_line m) ->
        exists game',
          fill_game nflverse_index game = Ok (game', Filled) /\
          get game' "spread" = entry_spread_line m /\
          get game' "overUnder" = entry_total_line m
  | None => fill_game nflverse_index game = Ok (game, NotFound)
  end.
Proof.
  intros Hnone Hseason Hweek Hhome Hne Hhs Has.
  unfold Nflverse.fill_game. rewrite Hnone, Hseason, Hhome.
  rewrite (proj2 (String.eqb_neq _ _) Hweek).
  assert (truthy (JStr home) = true) as ->.
  { cbn [truthy]. rewrite (proj2 (String.eqb_neq _ _) Hne). reflexivity. }
  cbn [negb orb index_get].
  destruct (nflverse_index !! _) as [m|]; [|reflexivity].
  destruct (is_none (entry_spread_line m)) eqn:Em; cbn [negb]; [reflexivity|].
  intros Hsl Htl.
  assert (forall (d : dict) k, k <> "spread" -> k <> "overUnder" ->
            get (<["overUnder" := entry_total_line m]>
                   (<["spread" := entry_spread_line m]> d)) k = get d k) as Hget.
  { intros d k H1 H2. unfold get. rewrite !lookup_insert_ne by congruence.
    reflexivity. }
  assert (forall (d : dict) v k, k <> "spreadResult" ->
            get (<["spreadResult" := v]> d) k = get d k) as Hget'.
  { intros d v k H1. unfold get. rewrite lookup_insert_ne by congruence.
    reflexivity. }
  rewrite !Hget by discriminate.
  destruct (OutcomeMore.spread_result_total _ _ _ Hhs Has Hsl) as [sr ->].
  rewrite bind_Ok, !Hget', !Hget by discriminate.
  destruct (OutcomeMore.ou_result_total _ _ _ Hhs Has Htl) as [our ->].
  rewrite bind_Ok. eexists. split; [reflexivity|].
  unfold get.
  repeat first [ rewrite lookup_insert_eq
               | rewrite lookup_insert_ne by discriminate ].
  split; reflexivity.
Qed.

End WithRepr.

(** A game without spread that the schedule row fills, and a game that has
    one. *)
Lemma nflverse_example_run :
  exists st,
    Nflverse.main Parse.decimal_repr
      [FillDefs.bills_game; JoinDefs.rams_game] [FillDefs.bills_sched_row]
      = Ok st.
Proof. apply RunFacts.computed_ok. vm_compute. exact I. Qed.

Lemma nflverse_only_fills_witness :
  exists st,
    Nflverse.main Parse.decimal_repr
      [FillDefs.bills_game; JoinDefs.rams_game] [FillDefs.bills_sched_row]
      = Ok st /\
    Forall2 only_filled [FillDefs.bills_game; JoinDefs.rams_game] (games st).
Proof.
  destruct nflverse_example_run as [st E].
  exists st. split; [exact E|].
  exact (nflverse_only_fills Parse.decimal_repr _ _ _ E).
Defined.

Lemma nflverse_counters_witness :
  exists st,
    Nflverse.main Parse.decimal_repr
      [FillDefs.bills_game; JoinDefs.rams_game] [FillDefs.bills_sched_row]
      = Ok st /\
    (already_has st
     + count_missing [FillDefs.bills_game; JoinDefs.rams_game] = 2)%nat /\
    (count_missing (games st) + filled st
     = count_missing [FillDefs.bills_game; JoinDefs.rams_game])%nat /\
    (filled st + not_found st
     <= count_missing [FillDefs.bills_game; JoinDefs.rams_game])%nat.
Proof.
  destruct nflverse_example_run as [st E].
  exists st. split; [exact E|].
  exact (nflverse_counters Parse.decimal_repr _ _ _ E).
Defined.

Lemma nflverse_by_season_total_witness :
  exists st,
    Nflverse.main Parse.decimal_repr
      [FillDefs.bills_game; JoinDefs.rams_game] [FillDefs.bills_sched_row]
      = Ok st /\
    season_total (by_season st) = filled st.
Proof.
  destruct nflverse_example_run as [st E].
  exists st. split; [exact E|].
  exact (nflverse_by_season_total Parse.decimal_repr _ _ _ E).
Defined.

Lemma nflverse_results_consistent_witness :
  exists st,
    Nflverse.main Parse.decimal_repr
      [FillDefs.bills_game; JoinDefs.rams_game] [FillDefs.bills_sched_row]
      = Ok st /\
    Forall2 (fun g g' =>
               is_none (get g "spread") = true ->
               is_none (get g' "spread") = false ->
               calculate_spread_result (get g' "homeScore") (get g' "awayScore")
                 (get g' "spread") = Ok (get g' "spreadResult") /\
               calculate_ou_result (get g' "homeScore") (get g' "awayScore")
                 (get g' "overUnder") = Ok (get g' "ouResult"))
            [FillDefs.bills_game; JoinDefs.rams_game] (games st).
Proof.
  destruct nflverse_example_run as [st E].
  exists st. split; [exact E|].
  exact (nflverse_results_consistent Parse.decimal_repr _ _ _ E).
Defined.

Lemma nflverse_rerun_witness :
  exists st st',
    Nflverse.main Parse.decimal_repr
      [FillDefs.bills_game; JoinDefs.rams_game] [FillDefs.bills_sched_row]
      = Ok st /\
    Nflverse.main Parse.decimal_repr (games st) [FillDefs.bills_sched_row]
      = Ok st' /\
    games st' = games st /\
    filled st' = 0%nat /\
    not_found st' = not_found st /\
    already_has st' = (already_has st + filled st)%nat.
Proof.
  destruct nflverse_example_run as [st E].
  destruct (nflverse_rerun Parse.decimal_repr _ _ _ E) as [st' H].
  exists st, st'. split; [exact E | exact H].
Defined.

(** What the example run leaves: the first game filled from the schedule
    row, the second as it came. *)
Example nflverse_example_result :
  match Nflverse.main Parse.decimal_repr
          [FillDefs.bills_game; JoinDefs.rams_game] [FillDefs.bills_sched_row]
  with
  | Ok st =>
      Some (filled st, not_found st, already_has st,
            map (fun g => map (get g) fill_fields) (games st))
  | Raise _ => None
  end
  = Some (1%nat, 0%nat, 1%nat,
          [ [JFloat 6.5; JFloat 39.5; JStr "COVERED"; JStr "OVER"];
            [JFloat 3.5; JFloat 48.5; JStr "COVERED"; JStr "OVER"] ]).
Proof. vm_compute. reflexivity. Qed.

Lemma nflverse_fill_decision_witness :
  match Nflverse.build_index Parse.decimal_repr [FillDefs.bills_sched_row]
          !! (key_of (get FillDefs.bills_game "season"),
              Py.str Parse.decimal_repr
                (get_or FillDefs.bills_game "week" (JStr "")),
              "Buffalo Bills") with
  | Some m =>
      if is_none (entry_spread_line m)
      then fill_game Parse.decimal_repr
             (Nflverse.build_index Parse.decimal_repr [FillDefs.bills_sched_row])
             FillDefs.bills_game = Ok (FillDefs.bills_game, NotFound)
      else
        NumberDefs.ordinary_or_null (entry_spread_line m) ->
        NumberDefs.ordinary_or_null (entry_total_line m) ->
        exists game',
          fill_game Parse.decimal_repr
            (Nflverse.build_index Parse.decimal_repr [FillDefs.bills_sched_row])
            FillDefs.bills_game = Ok (game', Filled) /\
          get game' "spread" = entry_spread_line m /\
          get game' "overUnder" = entry_total_line m
  | None =>
      fill_game Parse.decimal_repr
        (Nflverse.build_index Parse.decimal_repr [FillDefs.bills_sched_row])
        FillDefs.bills_game = Ok (FillDefs.bills_game, NotFound)
  end.
Proof.
  apply (nflverse_fill_decision Parse.decimal_repr
           (Nflverse.build_index Parse.decimal_repr [FillDefs.bills_sched_row])
           FillDefs.bills_game "Buffalo Bills").
  - vm_compute. reflexivity.
  - vm_compute. reflexivity.
  - vm_compute. discriminate.
  - vm_compute. reflexivity.
  - discriminate.
  - right. right. exists 27. split; [reflexivity | vm_compute; discriminate].
  - right. right. exists 17. split; [reflexivity | vm_compute; discriminate].
Defined.

(** With a score beyond binary64 the same game is not filled: the margin
    cannot be computed and the run stops. *)
Example huge_score_stops_fill :
  fill_game Parse.decimal_repr
    (Nflverse.build_index Parse.decimal_repr [FillDefs.bills_sched_row])
    (<["homeScore" := JInt (2 ^ 1024)]> FillDefs.bills_game)
    = Raise OverflowError.
Proof. vm_compute. reflexivity. Qed.

(** The summary can end [main] before anything is written back: with no
    games the coverage divides by zero, and a 2025 game that has a spread
    and no date stops the spot check. *)
Example no_games_no_coverage :
  Nflverse.main Parse.decimal_repr [] [FillDefs.bills_sched_row]
    = Raise ZeroDivisionError.
Proof. vm_compute. reflexivity. Qed.

Example undated_game_stops_spot_check :
  Nflverse.main Parse.decimal_repr
    [<["season" := JInt 2025]> (delete "gameDate" JoinDefs.rams_game)] []
    = Raise KeyError.
Proof. vm_compute. reflexivity. Qed.

(** Seasons that do not compare stop the summary at the sort. *)
Example mixed_seasons_not_sorted :
  sorted_keys (<[KNum 2020 1 := 1%nat]> (<[KStr "2021" := 1%nat]> ∅))
    = Raise TypeError /\
  sorted_keys (<[KNum 2020 1 := 1%nat]> (<[KNum 2021 1 := 1%nat]> ∅))
    = Ok tt /\
  sorted_keys (<[KNone := 1%nat]> (∅ : gmap pykey nat)) = Ok tt.
Proof. vm_compute. repeat split. Qed.

End NflverseFill.

(** ** More on the fill loop of the Spreadspoke importer *)

Module SpreadspokeFill.
Import Py PyFacts FillMoreDefs Spreadspoke.

(** The four ways an iteration ends. *)
Lemma ss_fill_game_inv (ss_index : index) (game game' : dict) (o : outcome) :
  fill_game ss_index game = Ok (game', o) ->
  match o with
  | Filled =>
      is_none (get game "spread") = true /\
      exists m sr our,
        index_get ss_index (get_or game "gameDate" (JStr ""))
          (get_or game "homeTeamCanonical" (JStr "")) = Some m /\
        calculate_spread_result (get game "homeScore") (get game "awayScore")
          (spread m) = Ok sr /\
        calculate_ou_result (get game "homeScore") (get game "awayScore")
          (over_under m) = Ok our /\
        game' = <["ouResult" := our]> (<["spreadResult" := sr]>
                  (<["overUnder" := over_under m]>
                     (<["spread" := spread m]> game)))
  | AlreadyHas => is_none (get game "spread") = false /\ game' = game
  | Skipped | NotFound => is_none (get game "spread") = true /\ game' = game
  end.
Proof.
  unfold Spreadspoke.fill_game.
  destruct (is_none (get game "spread")) eqn:Enone; cbn [negb];
    [|intros [= <- <-]; auto].
  destruct (_ || _); [intros [= <- <-]; auto|].
  destruct (index_get _ _ _) as [m|] eqn:Eget; [|intros [= <- <-]; auto].
  assert (forall (d : dict) k, k <> "spread" -> k <> "overUnder" ->
            get (<["overUnder" := over_under m]>
                   (<["spread" := spread m]> d)) k = get d k) as Hget.
  { intros d k H1 H2. unfold get. rewrite !lookup_insert_ne by congruence.
    reflexivity. }
  assert (forall (d : dict) v k, k <> "spreadResult" ->
            get (<["spreadResult" := v]> d) k = get d k) as Hget'.
  { intros d v k H1. unfold get. rewrite lookup_insert_ne by congruence.
    reflexivity. }
  rewrite !Hget by discriminate.
  destruct (calculate_spread_result _ _ _) as [sr|] eqn:Esr; [|discriminate].
  rewrite bind_Ok, !Hget', !Hget by discriminate.
  destruct (calculate_ou_result _ _ _) as [our|] eqn:Eou; [|discriminate].
  rewrite bind_Ok. intros [= <- <-]. split; [reflexivity|].
  exists m, sr, our. auto.
Qed.

Lemma index_get_lookup (ss_index : index) (date_str home : json) (m : entry) :
  index_get ss_index date_str home = Some m ->
  exists k, ss_index !! k = Some m.
Proof.
  unfold index_get. destruct date_str, home; try discriminate. eauto.
Qed.

Lemma ss_fill_game_only_filled (ss_index : index) (game game' : dict)
    (o : outcome) :
  fill_game ss_index game = Ok (game', o) -> only_filled game game'.
Proof.
  intros H. apply ss_fill_game_inv in H. unfold only_filled.
  destruct o.
  - destruct H as [_ ->]. auto.
  - destruct H as [_ ->]. auto.
  - destruct H as (Hnone & m & sr & our & _ & _ & _ & ->). split.
    + intros k Hk. unfold fill_fields in Hk.
      repeat (apply not_elem_of_cons in Hk; destruct Hk as [? Hk]).
      rewrite !lookup_insert_ne by congruence. reflexivity.
    + rewrite Hnone. discriminate.
  - destruct H as [_ ->]. auto.
Qed.

Lemma ss_fill_step_inv (ss_index : index) (st st' : fill_state) (game : dict) :
  fill_step ss_index st game = Ok st' ->
  exists game' o,
    fill_game ss_index game = Ok (game', o) /\
    st' = count st game' o (get_or game "season" (JStr "?")).
Proof.
  unfold Spreadspoke.fill_step.
  destruct (fill_game ss_index game) as [[game' o]|]; [|discriminate].
  rewrite bind_Ok. intros [= <-]. exists game', o. auto.
Qed.

Lemma ss_games_count (st : fill_state) (game : dict) (o : outcome) (season : json) :
  games (count st game o season) = (games st ++ [game])%list.
Proof. destruct o; reflexivity. Qed.

Section WithRuntime.

Variable int_of : string -> option Z.
Variable float_of : string -> option Q.
Variable iso_date_of : string -> option string.

Abbreviation row_entry := (Spreadspoke.row_entry int_of float_of iso_date_of).
Abbreviation build_index := (Spreadspoke.build_index int_of float_of iso_date_of).
Abbreviation main := (Spreadspoke.main int_of float_of iso_date_of).

Lemma main_inv (games_in : list dict) (ss_rows : list csv_row)
    (st : fill_state) :
  main games_in ss_rows = Ok st ->
  exists ss_index,
    build_index ss_rows = Ok ss_index /\
    for_each (fill_step ss_index) games_in fill_init = Ok st.
Proof.
  intros Hfill. apply MainFacts.spreadspoke_main_parts in Hfill.
  destruct Hfill as [Hfill _]. revert Hfill.
  unfold Spreadspoke.fill_games.
  destruct (build_index ss_rows) as [idx|]; [|discriminate].
  rewrite bind_Ok. eauto.
Qed.

(** The spread of an entry is the number [home_spread] answered. *)
Lemma built_index_spreads (ss_rows : list csv_row) (ss_index : index) :
  build_index ss_rows = Ok ss_index -> with_spreads ss_index.
Proof.
  unfold Spreadspoke.build_index, with_spreads.
  apply (for_each_inv _
    (fun (_ : list csv_row) (idx : index) =>
       forall k m, idx !! k = Some m -> exists s, spread m = JFloat s)).
  - intros k m. rewrite lookup_empty. discriminate.
  - intros l row idx idx' IH. unfold Spreadspoke.index_row.
    destruct (row_entry row) as [[[[d h] v]|]|] eqn:Erow;
      try discriminate; rewrite bind_Ok; intros [= <-]; [|exact IH].
    intros k m. rewrite lookup_insert. case_decide; [|apply IH].
    intros [= <-].
    destruct (LineConvention.row_entry_inv _ _ _ _ _ _ _ Erow)
      as (_ & _ & _ & s & _ & _ & _ & _ & _ & Hs).
    exists s. exact Hs.
Qed.

(** X18. The Spreadspoke importer writes nothing but the four betting
    fields: it returns the games in their order, one for one, a game that
    has a spread comes back as it was, and in every other game each key
    other than [spread], [overUnder], [spreadResult] and [ouResult] keeps
    its value. *)
Theorem spreadspoke_only_fills (games_in : list dict) (ss_rows : list csv_row)
    (st : fill_state) :
  main games_in ss_rows = Ok st ->
  Forall2 only_filled games_in (games st).
Proof.
  intros Hmain. destruct (main_inv _ _ _ Hmain) as (idx & _ & Hrun).
  revert Hrun.
  apply (for_each_inv _ (fun l st => Forall2 only_filled l (games st))).
  - constructor.
  - intros l g s s' IH Hstep.
    destruct (ss_fill_step_inv _ _ _ _ Hstep) as (g' & o & Hg & ->).
    rewrite ss_games_count. apply Forall2_app; [exact IH|].
    constructor; [|constructor]. exact (ss_fill_game_only_filled _ _ _ _ Hg).
Qed.

(** X19. The counters of the Spreadspoke importer add up: [already_has] is
    the number of games that came with a spread, every game it fills has a
    spread afterwards, so the number of games without spread goes down by
    exactly [filled], [filled + not_found] never exceeds the number of
    games that came without one, and the per-season breakdown sums to
    [filled]. *)
Theorem spreadspoke_counters (games_in : list dict) (ss_rows : list csv_row)
    (st : fill_state) :
  main games_in ss_rows = Ok st ->
  (already_has st + count_missing games_in = length games_in)%nat /\
  (count_missing (games st) + filled st = count_missing games_in)%nat /\
  (filled st + not_found st <= count_missing games_in)%nat /\
  season_total (by_season st) = filled st.
Proof.
  intros Hmain. destruct (main_inv _ _ _ Hmain) as (idx & Hidx & Hrun).
  pose proof (built_index_spreads _ _ Hidx) as Hsp.
  revert Hrun.
  apply (for_each_inv _
    (fun l st =>
       (already_has st + count_missing l = length l)%nat /\
       (count_missing (games st) + filled st = count_missing l)%nat /\
       (filled st + not_found st <= count_missing l)%nat /\
       season_total (by_season st) = filled st)).
  - repeat split; cbn; lia.
  - intros l g s s' (H1 & H2 & H3 & H4) Hstep.
    destruct (ss_fill_step_inv _ _ _ _ Hstep) as (g' & o & Hg & ->).
    apply ss_fill_game_inv in Hg. rewrite ss_games_count.
    unfold count_missing in *.
    rewrite !list.filter_app, !length_app, !filter_cons, !filter_nil.
    destruct o.
    + destruct Hg as [Hn ->]. rewrite Hn.
      rewrite !decide_False by discriminate.
      cbn [count already_has filled not_found by_season length].
      repeat split; lia.
    + destruct Hg as [Hn ->]. rewrite Hn.
      rewrite !decide_True by reflexivity.
      cbn [count already_has filled not_found by_season length].
      repeat split; lia.
    + destruct Hg as (Hn & m & sr & our & Hm & _ & _ & ->). rewrite Hn.
      destruct (index_get_lookup _ _ _ _ Hm) as [k Hk].
      destruct (Hsp _ _ Hk) as [x Hx].
      assert (is_none (get (<["ouResult" := our]> (<["spreadResult" := sr]>
                (<["overUnder" := over_under m]>
                   (<["spread" := spread m]> g)))) "spread")
              = false) as ->.
      { unfold get. rewrite !lookup_insert_ne, lookup_insert_eq by discriminate.
        cbn [default from_option id]. rewrite Hx. reflexivity. }
      rewrite decide_True, decide_False by (reflexivity || discriminate).
      cbn [count already_has filled not_found by_season length].
      rewrite NflverseFill.season_total_bump, H4. repeat split; lia.
    + destruct Hg as [Hn ->]. rewrite Hn.
      rewrite !decide_True by reflexivity.
      cbn [count already_has filled not_found by_season length].
      repeat split; lia.
Qed.

(** X20. A game filled by the Spreadspoke importer carries results that
    agree with its own fields: [spreadResult] and [ouResult] are what the
    two formulas give on the scores, the spread and the total the game now
    has. *)
Theorem spreadspoke_results_consistent (games_in : list dict)
    (ss_rows : list csv_row) (st : fill_state) :
  main games_in ss_rows = Ok st ->
  Forall2 (fun g g' =>
             is_none (get g "spread") = true ->
             is_none (get g' "spread") = false ->
             calculate_spread_result (get g' "homeScore") (get g' "awayScore")
               (get g' "spread") = Ok (get g' "spreadResult") /\
             calculate_ou_result (get g' "homeScore") (get g' "awayScore")
               (get g' "overUnder") = Ok (get g' "ouResult"))
          games_in (games st).
Proof.
  intros Hmain. destruct (main_inv _ _ _ Hmain) as (idx & _ & Hrun).
  revert Hrun.
  apply (for_each_inv _
    (fun l st =>
       Forall2 (fun g g' =>
             is_none (get g "spread") = true ->
             is_none (get g' "spread") = false ->
             calculate_spread_result (get g' "homeScore") (get g' "awayScore")
               (get g' "spread") = Ok (get g' "spreadResult") /\
             calculate_ou_result (get g' "homeScore") (get g' "awayScore")
               (get g' "overUnder") = Ok (get g' "ouResult"))
          l (games st))).
  - constructor.
  - intros l g s s' IH Hstep.
    destruct (ss_fill_step_inv _ _ _ _ Hstep) as (g' & o & Hg & ->).
    rewrite ss_games_count. apply Forall2_app; [exact IH|].
    constructor; [|constructor]. intros Hnone Hsome.
    apply ss_fill_game_inv in Hg. destruct o.
    + destruct Hg as [_ ->]. congruence.
    + destruct Hg as [_ ->]. congruence.
    + destruct Hg as (_ & m & sr & our & _ & Hsr & Hou & ->).
      unfold get.
      repeat first [ rewrite lookup_insert_eq
                   | rewrite lookup_insert_ne by discriminate ].
      cbn [default from_option id].
      fold (get g "homeScore"). fold (get g "awayScore"). auto.
    + destruct Hg as [_ ->]. congruence.
Qed.

End WithRuntime.

(** A second look at a game the loop has left: nothing more is filled. *)
Lemma ss_fill_game_again (ss_index : index) (game game' : dict) (o : outcome) :
  with_spreads ss_index ->
  fill_game ss_index game = Ok (game', o) ->
  fill_game ss_index game'
    = Ok (game', match o with Filled => AlreadyHas | _ => o end).
Proof.
  intros Hsp H. pose proof (ss_fill_game_inv _ _ _ _ H) as Hinv. destruct o.
  - destruct Hinv as [_ ->]. exact H.
  - destruct Hinv as [_ ->]. exact H.
  - destruct Hinv as (_ & m & sr & our & Hm & _ & _ & ->).
    destruct (index_get_lookup _ _ _ _ Hm) as [k Hk].
    destruct (Hsp _ _ Hk) as [x Hx].
    unfold Spreadspoke.fill_game.
    assert (get (<["ouResult" := our]> (<["spreadResult" := sr]>
                (<["overUnder" := over_under m]>
                   (<["spread" := spread m]> game)))) "spread"
            = JFloat x) as ->.
    { unfold get. rewrite !lookup_insert_ne, lookup_insert_eq by discriminate.
      exact Hx. }
    reflexivity.
  - destruct Hinv as [_ ->]. exact H.
Qed.

Lemma ss_fill_run_again (ss_index : index) (l : list dict) (st0 st : fill_state) :
  with_spreads ss_index ->
  for_each (fill_step ss_index) l st0 = Ok st ->
  exists outs nf nn na,
    games st = (games st0 ++ outs)%list /\
    filled st = (filled st0 + nf)%nat /\
    not_found st = (not_found st0 + nn)%nat /\
    already_has st = (already_has st0 + na)%nat /\
    forall st0',
      exists st',
        for_each (fill_step ss_index) outs st0' = Ok st' /\
        games st' = (games st0' ++ outs)%list /\
        filled st' = filled st0' /\
        not_found st' = (not_found st0' + nn)%nat /\
        already_has st' = (already_has st0' + na + nf)%nat /\
        by_season st' = by_season st0'.
Proof.
  intros Hsp. revert st0. induction l as [|g l IH]; intros st0.
  - intros [= <-]. exists [], 0%nat, 0%nat, 0%nat.
    rewrite app_nil_r. repeat split; try lia.
    intros st0'. exists st0'. rewrite app_nil_r. repeat split; lia.
  - cbn [for_each].
    destruct (fill_step ss_index st0 g) as [s1|] eqn:Estep; [|discriminate].
    rewrite bind_Ok. intros Hrest.
    destruct (ss_fill_step_inv _ _ _ _ Estep) as (g' & o & Hg & ->).
    destruct (IH _ Hrest) as (outs & nf & nn & na & Hgames & Hf & Hn & Ha & Hagain).
    rewrite ss_games_count in Hgames.
    exists (g' :: outs),
      (match o with Filled => S nf | _ => nf end),
      (match o with NotFound => S nn | _ => nn end),
      (match o with AlreadyHas => S na | _ => na end).
    split; [rewrite Hgames, <- app_assoc; reflexivity|].
    split; [rewrite Hf; destruct o; cbn [count filled]; lia|].
    split; [rewrite Hn; destruct o; cbn [count not_found]; lia|].
    split; [rewrite Ha; destruct o; cbn [count already_has]; lia|].
    intros st0'. cbn [for_each].
    assert (fill_step ss_index st0' g'
            = Ok (count st0' g' match o with Filled => AlreadyHas | _ => o end
                        (get_or g' "season" (JStr "?")))) as ->.
    { unfold Spreadspoke.fill_step.
      rewrite (ss_fill_game_again _ _ _ _ Hsp Hg), bind_Ok. reflexivity. }
    rewrite bind_Ok.
    destruct (Hagain (count st0' g'
                        match o with Filled => AlreadyHas | _ => o end
                        (get_or g' "season" (JStr "?"))))
      as (st' & Hrun & Hg' & Hf' & Hn' & Ha' & Hb').
    exists st'. split; [exact Hrun|].
    rewrite Hg', Hf', Hn', Ha', Hb', ss_games_count, <- app_assoc.
    destruct o; cbn [count filled not_found already_has by_season];
      repeat split; lia.
Qed.

(** X21. Running the Spreadspoke importer again on its own output, with
    the same CSV rows, changes nothing: when the first run ends normally,
    the second does too, its summary and spot check included, returns the
    same games and fills none; the games the first run filled are counted
    as already having a spread. *)
Theorem spreadspoke_rerun (int_of : string -> option Z)
    (float_of : string -> option Q) (iso_date_of : string -> option string)
    (games_in : list dict) (ss_rows : list csv_row) (st : fill_state) :
  Spreadspoke.main int_of float_of iso_date_of games_in ss_rows = Ok st ->
  exists st',
    Spreadspoke.main int_of float_of iso_date_of (games st) ss_rows = Ok st' /\
    games st' = games st /\
    filled st' = 0%nat /\
    not_found st' = not_found st /\
    already_has st' = (already_has st + filled st)%nat.
Proof.
  intros Hmain. destruct (main_inv _ _ _ _ _ _ Hmain) as (idx & Hidx & Hrun).
  apply MainFacts.spreadspoke_main_parts in Hmain.
  destruct Hmain as [_ Hsum].
  apply MainFacts.spreadspoke_summary_parts in Hsum.
  destruct Hsum as (Hcov & _ & Hspot).
  pose proof (built_index_spreads _ _ _ _ _ Hidx) as Hsp.
  destruct (ss_fill_run_again _ _ _ _ Hsp Hrun)
    as (outs & nf & nn & na & Hgames & Hf & Hn & Ha & Hagain).
  cbn in Hgames, Hf, Hn, Ha.
  destruct (Hagain fill_init)
    as (st' & Hrun' & Hg' & Hf' & Hn' & Ha' & Hb').
  cbn in Hg', Hf', Hn', Ha', Hb'.
  exists st'. split.
  - apply MainFacts.spreadspoke_main_parts. split.
    + unfold Spreadspoke.fill_games. rewrite Hidx, bind_Ok, Hgames.
      exact Hrun'.
    + apply MainFacts.spreadspoke_summary_parts.
      rewrite Hg', <- Hgames. repeat split; auto.
  - rewrite Hg', Hf', Hn', Ha', Hf, Hn, Ha, Hgames. repeat split.
Qed.

Abbreviation ss_run :=
  (Spreadspoke.main Parse.decimal_int Parse.decimal_float Parse.mdY_to_iso).

(** A game without spread that the CSV row fills, and a game that has
    one. *)
Lemma spreadspoke_example_run :
  exists st,
    ss_run [LineDefs.miami_game; JoinDefs.rams_game] [LineDefs.miami_by_3_5]
      = Ok st.
Proof. apply RunFacts.computed_ok. vm_compute. exact I. Qed.

Lemma spreadspoke_only_fills_witness :
  exists st,
    ss_run [LineDefs.miami_game; JoinDefs.rams_game] [LineDefs.miami_by_3_5]
      = Ok st /\
    Forall2 only_filled [LineDefs.miami_game; JoinDefs.rams_game] (games st).
Proof.
  destruct spreadspoke_example_run as [st E].
  exists st. split; [exact E|].
  exact (spreadspoke_only_fills _ _ _ _ _ _ E).
Defined.

Lemma spreadspoke_counters_witness :
  exists st,
    ss_run [LineDefs.miami_game; JoinDefs.rams_game] [LineDefs.miami_by_3_5]
      = Ok st /\
    (already_has st
     + count_missing [LineDefs.miami_game; JoinDefs.rams_game] = 2)%nat /\
    (count_missing (games st) + filled st
     = count_missing [LineDefs.miami_game; JoinDefs.rams_game])%nat /\
    (filled st + not_found st
     <= count_missing [LineDefs.miami_game; JoinDefs.rams_game])%nat /\
    season_total (by_season st) = filled st.
Proof.
  destruct spreadspoke_example_run as [st E].
  exists st. split; [exact E|].
  exact (spreadspoke_counters _ _ _ _ _ _ E).
Defined.

Lemma spreadspoke_results_consistent_witness :
  exists st,
    ss_run [LineDefs.miami_game; JoinDefs.rams_game] [LineDefs.miami_by_3_5]
      = Ok st /\
    Forall2 (fun g g' =>
               is_none (get g "spread") = true ->
               is_none (get g' "spread") = false ->
               calculate_spread_result (get g' "homeScore") (get g' "awayScore")
                 (get g' "spread") = Ok (get g' "spreadResult") /\
               calculate_ou_result (get g' "homeScore") (get g' "awayScore")
                 (get g' "overUnder") = Ok (get g' "ouResult"))
            [LineDefs.miami_game; JoinDefs.rams_game] (games st).
Proof.
  destruct spreadspoke_example_run as [st E].
  exists st. split; [exact E|].
  exact (spreadspoke_results_consistent _ _ _ _ _ _ E).
Defined.

Lemma spreadspoke_rerun_witness :
  exists st st',
    ss_run [LineDefs.miami_game; JoinDefs.rams_game] [LineDefs.miami_by_3_5]
      = Ok st /\
    ss_run (games st) [LineDefs.miami_by_3_5] = Ok st' /\
    games st' = games st /\
    filled st' = 0%nat /\
    not_found st' = not_found st /\
    already_has st' = (already_has st + filled st)%nat.
Proof.
  destruct spreadspoke_example_run as [st E].
  destruct (spreadspoke_rerun _ _ _ _ _ _ E) as [st' H].
  exists st, st'. split; [exact E | exact H].
Defined.

(** What the example run leaves: Miami, favoured by 3.5 at home, lost by
    ten. *)
Example spreadspoke_example_result :
  match ss_run [LineDefs.miami_game; JoinDefs.rams_game] [LineDefs.miami_by_3_5]
  with
  | Ok st =>
      Some (filled st, not_found st, already_has st,
            map (fun g => map (get g) fill_fields) (games st))
  | Raise _ => None
  end
  = Some (1%nat, 0%nat, 1%nat,
          [ [JFloat 3.5; JFloat 41.5; JStr "LOST"; JStr "UNDER"];
            [JFloat 3.5; JFloat 48.5; JStr "COVERED"; JStr "OVER"] ]).
Proof. vm_compute. reflexivity. Qed.

(** The summary can end [main] before anything is written back: with no
    games the coverage divides by zero; two filled games, one of them
    without a season, stop the sort of the seasons; a season that is text
    stops the spot check, and so does a game of 1980 that has a spread and
    no total. *)
Example ss_no_games_no_coverage :
  ss_run [] [LineDefs.miami_by_3_5] = Raise ZeroDivisionError.
Proof. vm_compute. reflexivity. Qed.

Example missing_season_stops_sort :
  ss_run [LineDefs.miami_game; delete "season" LineDefs.miami_game]
         [LineDefs.miami_by_3_5]
    = Raise TypeError.
Proof. vm_compute. reflexivity. Qed.

Example text_season_stops_spot_check :
  ss_run [<["season" := JStr "1980"]> LineDefs.miami_game] []
    = Raise TypeError.
Proof. vm_compute. reflexivity. Qed.

Example no_total_stops_spot_check :
  ss_run [<["spread" := JFloat 3.5]> LineDefs.miami_game] []
    = Raise KeyError.
Proof. vm_compute. reflexivity. Qed.

End SpreadspokeFill.

(** ** More on the rows of the Spreadspoke file *)

Module SpreadspokeRows.
Import Py PyFacts Spreadspoke LineDefs RowMoreDefs.

(** Every franchise of the abbreviation table is a name of the name table,
    and is its own canonical name. *)
Lemma abbreviations_canonical (fav_id f : string) :
  SPREADSPOKE_ABBREV_MAP !! fav_id = Some f ->
  SPREADSPOKE_NAME_TO_CANONICAL !! f = Some f.
Proof.
  assert (map_Forall (fun _ f => SPREADSPOKE_NAME_TO_CANONICAL !! f = Some f)
            SPREADSPOKE_ABBREV_MAP) as H.
  { apply map_Forall_to_list. apply (bool_decide_unpack _).
    vm_compute. exact I. }
  intros Hf. exact (H _ _ Hf).
Qed.

(** X22. The second comparison of the favourite, under historical names,
    never decides anything: once the home team is in the name table, a
    favourite that is neither the home franchise nor the away franchise at
    the first comparison is none of them at the second, and the row is
    passed over. *)
Theorem historical_retry_never_matches (row : csv_row)
    (home_name home_canonical : string) (spread_fav : Q) :
  SPREADSPOKE_NAME_TO_CANONICAL !! home_name = Some home_canonical ->
  home_spread row home_name home_canonical spread_fav
    = home_spread_direct row home_canonical spread_fav.
Proof.
  intros Hhome. unfold home_spread, home_spread_direct.
  destruct (_ || _); [reflexivity|].
  destruct (SPREADSPOKE_ABBREV_MAP !! _) as [f|] eqn:Ef; [|reflexivity].
  destruct (String.eqb f ""); [reflexivity|].
  destruct (item row "team_away") as [away_name|]; [|reflexivity].
  rewrite !bind_Ok.
  destruct (String.eqb_spec f home_canonical) as [->|Hh]; [reflexivity|].
  case_bool_decide as Ha; [reflexivity|].
  rewrite Hhome. cbn [default from_option id].
  rewrite (proj2 (String.eqb_neq _ _) Hh).
  destruct (String.eqb_spec f
              (default away_name (SPREADSPOKE_NAME_TO_CANONICAL !! away_name)))
    as [Heq|_]; [|reflexivity].
  exfalso. pose proof (abbreviations_canonical _ _ Ef) as Hcanon.
  destruct (SPREADSPOKE_NAME_TO_CANONICAL !! away_name) as [x|] eqn:Ex;
    cbn [default from_option id] in Heq.
  - apply Ha. congruence.
  - subst away_name. congruence.
Qed.

Lemma historical_retry_never_matches_witness :
  home_spread dallas_row "Miami Dolphins" "Miami Dolphins" (-3.5)
    = home_spread_direct dallas_row "Miami Dolphins" (-3.5).
Proof.
  apply historical_retry_never_matches. vm_compute. reflexivity.
Defined.

(** X23. The sign convention of the conversion: on a spread against the
    favourite that is not positive, a row whose favourite is the home
    franchise gets a home spread that is not negative, any other favourite
    gets one that is not positive, a pick gets zero, and the size of the
    line is never changed. *)
Theorem home_spread_sign (row : csv_row) (home_name home_canonical : string)
    (spread_fav s : Q) :
  SPREADSPOKE_NAME_TO_CANONICAL !! home_name = Some home_canonical ->
  (spread_fav <= 0)%Q ->
  home_spread row home_name home_canonical spread_fav = Ok (Some s) ->
  match named_favorite row with
  | None => s = 0%Q
  | Some f =>
      (if String.eqb f home_canonical then 0 <= s else s <= 0)%Q /\
      (Qabs s == Qabs spread_fav)%Q
  end.
Proof.
  intros Hhome Hneg. rewrite (historical_retry_never_matches _ _ _ _ Hhome).
  unfold home_spread_direct, named_favorite.
  destruct (_ || _); [intros [= <-]; reflexivity|].
  destruct (SPREADSPOKE_ABBREV_MAP !! _) as [f|]; [|discriminate].
  destruct (String.eqb f ""); [discriminate|].
  destruct (item row "team_away") as [away_name|]; [|discriminate].
  rewrite bind_Ok.
  destruct (String.eqb f home_canonical).
  - intros [= <-]. split; [lra|]. apply Qabs_opp.
  - case_bool_decide; [|discriminate].
    intros [= <-]. split; [lra | reflexivity].
Qed.

Lemma home_spread_sign_witness :
  match named_favorite buffalo_by_3_5 with
  | None => (-3.5)%Q = 0%Q
  | Some f =>
      (if String.eqb f "Miami Dolphins" then 0 <= -3.5 else -3.5 <= 0)%Q /\
      (Qabs (-3.5) == Qabs (-3.5))%Q
  end.
Proof.
  apply (home_spread_sign buffalo_by_3_5 "Miami Dolphins" "Miami Dolphins"
           (-3.5)%Q (-3.5)%Q).
  - vm_compute. reflexivity.
  - vm_compute. discriminate.
  - vm_compute. reflexivity.
Defined.

Section WithRuntime.

Variable int_of : string -> option Z.
Variable float_of : string -> option Q.
Variable iso_date_of : string -> option string.

Abbreviation row_entry := (Spreadspoke.row_entry int_of float_of iso_date_of).
Abbreviation build_index := (Spreadspoke.build_index int_of float_of iso_date_of).
Abbreviation main := (Spreadspoke.main int_of float_of iso_date_of).

Lemma raising_row_aborts (row : csv_row) (e : exn) :
  has_spread row = true ->
  row_entry row = Raise e ->
  forall (games : list dict) (before after : list csv_row) (st : fill_state),
    main games (before ++ row :: after) <> Ok st.
Proof.
  intros Hspread Hraise games before after st. unfold Spreadspoke.main, Spreadspoke.fill_games.
  assert (forall idx, build_index (before ++ row :: after) <> Ok idx) as Hno.
  { intros idx. unfold Spreadspoke.build_index.
    rewrite list.filter_app, filter_cons_True by exact Hspread.
    rewrite for_each_app.
    destruct (for_each _ (filter _ before) ∅) as [i|]; [|discriminate].
    rewrite bind_Ok. cbn [for_each].
    assert (Spreadspoke.index_row int_of float_of iso_date_of i row = Raise e)
      as -> by (unfold Spreadspoke.index_row; rewrite Hraise; reflexivity).
    discriminate. }
  destruct (build_index (before ++ row :: after)) as [idx|];
    [|discriminate].
  exfalso. exact (Hno idx eq_refl).
Qed.

(** X24. One unreadable number stops the import: when a row that has a
    spread carries a season that [int] cannot read, or (its home team and
    its date being good) a spread that [float] cannot read, the row raises
    [ValueError], the script catches it nowhere, and no run over a file
    with this row ends normally. *)
Theorem unreadable_number_aborts (row : csv_row) (season_text : string) :
  has_spread row = true ->
  row !! "schedule_season" = Some season_text ->
  int_of season_text = None
  \/ (exists season home_name home_canonical date_text date_str spread_text,
        int_of season_text = Some season /\
        row !! "team_home" = Some home_name /\
        SPREADSPOKE_NAME_TO_CANONICAL !! home_name = Some home_canonical /\
        home_canonical <> "" /\
        row !! "schedule_date" = Some date_text /\
        iso_date_of date_text = Some date_str /\
        row !! "spread_favorite" = Some spread_text /\
        float_of spread_text = None) ->
  row_entry row = Raise ValueError /\
  forall (games : list dict) (before after : list csv_row) (st : fill_state),
    main games (before ++ row :: after) <> Ok st.
Proof.
  intros Hspread Hseason Hbad.
  assert (row_entry row = Raise ValueError) as Hraise.
  { unfold Spreadspoke.row_entry, item, parse. rewrite Hseason, bind_Ok.
    destruct Hbad as [-> | (z & hn & hc & dt & ds & sf & Hz & Hhn & Hhc & Hne
                            & Hdt & Hds & Hsf & Hfl)]; [reflexivity|].
    rewrite Hz, bind_Ok, Hhn, bind_Ok, Hhc, (proj2 (String.eqb_neq _ _) Hne).
    rewrite Hdt, bind_Ok, Hds, Hsf, bind_Ok, Hfl. reflexivity. }
  split; [exact Hraise|]. exact (raising_row_aborts _ _ Hspread Hraise).
Qed.

(** X25. A date that [strptime] cannot read, or a home team that is not in
    the name table, costs only the row: the row writes no entry, raises
    nothing, and the run is the run without the row. *)
Theorem unreadable_date_skipped (row : csv_row)
    (season_text home_name : string) (season : Z) :
  row !! "schedule_season" = Some season_text ->
  int_of season_text = Some season ->
  row !! "team_home" = Some home_name ->
  SPREADSPOKE_NAME_TO_CANONICAL !! home_name = None
  \/ (exists date_text, row !! "schedule_date" = Some date_text /\
                         iso_date_of date_text = None) ->
  row_entry row = Ok None /\
  forall (games : list dict) (before after : list csv_row),
    main games (before ++ row :: after) = main games (before ++ after).
Proof.
  intros Hseason Hint Hhome Hbad.
  assert (row_entry row = Ok None) as Hnone.
  { unfold Spreadspoke.row_entry, item, parse.
    rewrite Hseason, bind_Ok, Hint, bind_Ok, Hhome, bind_Ok.
    destruct Hbad as [-> | (dt & Hd & Hiso)]; [reflexivity|].
    destruct (SPREADSPOKE_NAME_TO_CANONICAL !! home_name) as [hc|];
      [|reflexivity].
    destruct (String.eqb hc ""); [reflexivity|].
    rewrite Hd, bind_Ok, Hiso. reflexivity. }
  split; [exact Hnone|].
  intros games before after. unfold Spreadspoke.main, Spreadspoke.fill_games.
  rewrite (LineConvention.build_index_without _ _ _ _ _ _ Hnone).
  reflexivity.
Qed.

(** X26. The Spreadspoke index is keyed by date and home franchise, and a
    later row of the file replaces an earlier one: when the index is
    built, a key finds the entry written by the last row that has it. *)
Theorem spreadspoke_index_lookup (ss_rows : list csv_row) (ss_index : index)
    (k : string * string) :
  build_index ss_rows = Ok ss_index ->
  ss_index !! k =
    snd <$> list.last (filter (fun e => e.1 = k)
                         (written_entries int_of float_of iso_date_of ss_rows)).
Proof.
  unfold Spreadspoke.build_index, written_entries.
  apply (for_each_inv _
    (fun l (idx : index) =>
       idx !! k =
         snd <$> list.last
                   (filter (fun e => e.1 = k)
                      (omap (fun row => match row_entry row with
                                        | Ok e => e
                                        | Raise _ => None
                                        end) l)))).
  - reflexivity.
  - intros l row idx idx' IH. unfold Spreadspoke.index_row.
    rewrite omap_app. cbn [omap list_omap].
    destruct (row_entry row) as [[[[d h] v]|]|]; try discriminate;
      rewrite bind_Ok; intros [= <-].
    + rewrite list.filter_app, filter_cons, filter_nil. cbn [fst].
      rewrite lookup_insert. case_decide as Hk.
      * rewrite last_snoc. reflexivity.
      * rewrite app_nil_r. exact IH.
    + rewrite app_nil_r. exact IH.
Qed.

End WithRuntime.

Lemma unreadable_number_aborts_witness :
  Spreadspoke.row_entry Parse.decimal_int Parse.decimal_float Parse.mdY_to_iso
    bad_season_row = Raise ValueError /\
  forall (games : list dict) (before after : list csv_row) (st : fill_state),
    Spreadspoke.main Parse.decimal_int Parse.decimal_float Parse.mdY_to_iso
      games (before ++ bad_season_row :: after) <> Ok st.
Proof.
  apply (unreadable_number_aborts Parse.decimal_int Parse.decimal_float
           Parse.mdY_to_iso bad_season_row "198O").
  - vm_compute. reflexivity.
  - vm_compute. reflexivity.
  - left. vm_compute. reflexivity.
Defined.

Lemma unreadable_date_skipped_witness :
  Spreadspoke.row_entry Parse.decimal_int Parse.decimal_float Parse.mdY_to_iso
    bad_date_row = Ok None /\
  forall (games : list dict) (before after : list csv_row),
    Spreadspoke.main Parse.decimal_int Parse.decimal_float Parse.mdY_to_iso
      games (before ++ bad_date_row :: after)
    = Spreadspoke.main Parse.decimal_int Parse.decimal_float Parse.mdY_to_iso
        games (before ++ after).
Proof.
  apply (unreadable_date_skipped Parse.decimal_int Parse.decimal_float
           Parse.mdY_to_iso bad_date_row "1980" "Miami Dolphins" 1980).
  - vm_compute. reflexivity.
  - vm_compute. reflexivity.
  - vm_compute. reflexivity.
  - right. exists "1980-09-07". split; vm_compute; reflexivity.
Defined.

Lemma spreadspoke_index_lookup_witness :
  exists ss_index,
    Spreadspoke.build_index Parse.decimal_int Parse.decimal_float
      Parse.mdY_to_iso [miami_by_3_5; buffalo_by_3_5] = Ok ss_index /\
    ss_index !! ("1980-09-07", "Miami Dolphins") =
      snd <$> list.last
                (filter (fun e => e.1 = ("1980-09-07", "Miami Dolphins"))
                   (written_entries Parse.decimal_int Parse.decimal_float
                      Parse.mdY_to_iso [miami_by_3_5; buffalo_by_3_5])).
Proof.
  destruct (RunFacts.computed_ok
              (Spreadspoke.build_index Parse.decimal_int Parse.decimal_float
                 Parse.mdY_to_iso [miami_by_3_5; buffalo_by_3_5]))
    as [ss_index E]; [vm_compute; exact I|].
  exists ss_index. split; [exact E|].
  exact (spreadspoke_index_lookup _ _ _ _ _ _ E).
Defined.

(** Two rows of the same game: the line of the second is the one kept. *)
Example later_row_kept :
  match Spreadspoke.build_index Parse.decimal_int Parse.decimal_float
          Parse.mdY_to_iso [miami_by_3_5; buffalo_by_3_5] with
  | Ok ss_index => spread <$> ss_index !! ("1980-09-07", "Miami Dolphins")
  | Raise _ => None
  end = Some (JFloat (-3.5)).
Proof. vm_compute. reflexivity. Qed.

End SpreadspokeRows.

(** ** The snapshots of the ratings archive *)

Module Snapshots.
Import Py PyFacts Cbbdata SnapshotDefs.
Import sorting.

Lemma is_none_null (v : json) : is_none v = true <-> v = JNull.
Proof. destruct v; cbn; split; intros H; congruence. Qed.

Lemma get_col_cons (row : dict) (c : string) (rest : list string) :
  get_col row (c :: rest)
    = if is_none (get row c) then get_col row rest else get row c.
Proof.
  cbn [get_col]. unfold get.
  destruct (row !! c) as [v|]; cbn [default from_option id]; reflexivity.
Qed.

(** X27. [get_col] returns the value of the first candidate column that
    the row has with a value other than null, whatever that value is (a
    zero or an empty string is returned as it is), and null exactly when
    every candidate is absent or null. *)
Theorem get_col_spec (row : dict) (candidates : list string) :
  (get_col row candidates = JNull <-> Forall (blank row) candidates) /\
  (forall v, v <> JNull ->
     (get_col row candidates = v <->
      exists before c after,
        candidates = (before ++ c :: after)%list /\
        Forall (blank row) before /\ row !! c = Some v)).
Proof.
  unfold blank. induction candidates as [|c rest [IHnull IHval]].
  - split.
    + split; [intros _; constructor | reflexivity].
    + intros v Hv. split.
      * intros H. cbn in H. congruence.
      * intros (before & c & after & Heq & _). destruct before; discriminate.
  - rewrite get_col_cons.
    destruct (is_none (get row c)) eqn:Hn.
    + apply is_none_null in Hn. split.
      * rewrite IHnull. split.
        -- intros H. constructor; assumption.
        -- intros H. inversion H; assumption.
      * intros v Hv. rewrite (IHval v Hv). split.
        -- intros (before & c' & after & -> & Hb & Hc).
           exists (c :: before), c', after. repeat split; try assumption.
           constructor; assumption.
        -- intros (before & c' & after & Heq & Hb & Hc).
           destruct before as [|b before]; cbn in Heq;
             injection Heq as <- ->.
           ++ unfold get in Hn. rewrite Hc in Hn. cbn in Hn. congruence.
           ++ inversion Hb; subst. eauto 10.
    + assert (get row c <> JNull) as Hne
        by (intros E; apply is_none_null in E; congruence).
      split.
      * split; [congruence|]. intros H. inversion H; subst. contradiction.
      * intros v Hv. split.
        -- intros <-. exists [], c, rest. repeat split; [constructor|].
           unfold get in *. destruct (row !! c); [reflexivity|].
           cbn in Hne. congruence.
        -- intros (before & c' & after & Heq & Hb & Hc).
           destruct before as [|b before]; cbn in Heq;
             injection Heq as <- ->.
           ++ unfold get. rewrite Hc. reflexivity.
           ++ inversion Hb; subst. contradiction.
Qed.

(** A zero is a value: the second candidate is not consulted. *)
Example get_col_keeps_zero :
  get_col (list_to_map [("rk", JInt 0); ("rank", JInt 5)]) ["rk"; "rank"]
    = JInt 0 /\
  get_col (list_to_map [("rk", JNull); ("rank", JInt 5)]) ["rk"; "rank"]
    = JInt 5.
Proof. split; vm_compute; reflexivity. Qed.

(** *** The order of strings *)

Lemma ascii_compare_refl (c : ascii) : Ascii.compare c c = Eq.
Proof. unfold Ascii.compare. apply N.compare_refl. Qed.

Lemma compare_refl (s : string) : String.compare s s = Eq.
Proof.
  induction s as [|c s IH]; [reflexivity|].
  cbn. rewrite ascii_compare_refl. exact IH.
Qed.

Lemma compare_lt_trans (s1 s2 s3 : string) :
  String.compare s1 s2 = Lt -> String.compare s2 s3 = Lt ->
  String.compare s1 s3 = Lt.
Proof.
  revert s2 s3. induction s1 as [|c1 s1 IH]; intros [|c2 s2] [|c3 s3];
    cbn; try congruence.
  unfold Ascii.compare.
  destruct (N.compare_spec (N_of_ascii c1) (N_of_ascii c2)) as [E12|L12|G12];
    try discriminate;
  destruct (N.compare_spec (N_of_ascii c2) (N_of_ascii c3)) as [E23|L23|G23];
    try discriminate; intros H12 H23.
  - rewrite E12, E23, N.compare_refl. eapply IH; eassumption.
  - rewrite E12. apply N.compare_lt_iff in L23. rewrite L23. reflexivity.
  - rewrite <- E23. apply N.compare_lt_iff in L12. rewrite L12. reflexivity.
  - assert (N_of_ascii c1 < N_of_ascii c3)%N as L by (etransitivity; eassumption).
    apply N.compare_lt_iff in L. rewrite L. reflexivity.
Qed.

Lemma str_le_iff (a b : string) :
  str_le a b <-> String.compare a b = Lt \/ a = b.
Proof.
  unfold str_le, String.leb. split.
  - destruct (String.compare a b) eqn:E; try discriminate; auto.
    right. apply String.compare_eq_iff. exact E.
  - intros [-> | ->]; [reflexivity|]. rewrite compare_refl. reflexivity.
Qed.

#[local] Instance str_le_trans : Transitive str_le.
Proof.
  intros a b c Hab Hbc. apply str_le_iff in Hab, Hbc. apply str_le_iff.
  destruct Hab as [Hab | ->]; [|exact Hbc].
  destruct Hbc as [Hbc | <-]; [|auto].
  left. eapply compare_lt_trans; eassumption.
Qed.

#[local] Instance str_le_total : Total str_le.
Proof. intros a b. apply String.leb_total. Qed.

#[local] Instance str_le_antisym : AntiSymm eq str_le.
Proof. intros a b. apply String.leb_antisym. Qed.

Lemma StronglySorted_sublist {A} (R : relation A) (l1 l2 : list A) :
  l1 `sublist_of` l2 -> StronglySorted R l2 -> StronglySorted R l1.
Proof.
  induction 1 as [|x l1 l2 Hsub IH|x l1 l2 Hsub IH]; intros Hs.
  - constructor.
  - apply StronglySorted_inv in Hs as [Hs Hall]. constructor; [auto|].
    apply list.Forall_forall. intros y Hy.
    apply (proj1 (list.Forall_forall _ _) Hall).
    eapply elem_of_sublist; eassumption.
  - apply StronglySorted_inv in Hs as [Hs _]. auto.
Qed.

Lemma strictly_sorted (l : list string) :
  StronglySorted str_le l -> NoDup l -> StronglySorted str_lt l.
Proof.
  induction 1 as [|a l Hs IH Hall]; intros Hnd; [constructor|].
  apply NoDup_cons in Hnd as [Hnotin Hnd]. constructor; [auto|].
  apply list.Forall_forall. intros y Hy. split.
  - exact (proj1 (list.Forall_forall _ _) Hall y Hy).
  - intros ->. contradiction.
Qed.

(** *** The dates of the season *)

Lemma all_dates_elem (by_date : by_date_map) (d : string) :
  d ∈ all_dates by_date <-> is_Some (by_date !! d) /\ str_le d "2025-04-08".
Proof.
  unfold all_dates. rewrite merge_sort_Permutation, list_elem_of_filter.
  rewrite list_elem_of_fmap. split.
  - intros [Hle ([k m] & -> & Hin)]. apply elem_of_map_to_list in Hin.
    split; [eauto | exact Hle].
  - intros [[m Hm] Hle]. split; [exact Hle|].
    exists (d, m). split; [reflexivity|]. apply elem_of_map_to_list. exact Hm.
Qed.

Lemma all_dates_sorted (by_date : by_date_map) :
  StronglySorted str_lt (all_dates by_date).
Proof.
  apply strictly_sorted.
  - apply StronglySorted_merge_sort; apply _.
  - unfold all_dates. rewrite merge_sort_Permutation.
    apply list.NoDup_filter, NoDup_fst_map_to_list.
Qed.

(** The first date of a sorted list is its least, the last its
    greatest. *)
Lemma sorted_ends (l : list string) (first final d : string) :
  StronglySorted str_lt l ->
  head l = Some first -> list.last l = Some final -> d ∈ l ->
  str_le first d /\ str_le d final.
Proof.
  intros Hs Hh Hl Hin. split.
  - destruct l as [|x l]; [discriminate|]. injection Hh as ->.
    apply StronglySorted_inv in Hs as [_ Hall].
    apply elem_of_cons in Hin as [-> | Hin].
    + apply str_le_iff. auto.
    + exact (proj1 (proj1 (list.Forall_forall _ _) Hall d Hin)).
  - apply last_Some in Hl as [l' ->].
    apply elem_of_app in Hin as [Hin | Hin].
    + exact (proj1 (StronglySorted_app_1_elem_of _ _ _ d final Hs Hin
                      ltac:(apply list_elem_of_here))).
    + apply list_elem_of_singleton in Hin as ->. apply str_le_iff. auto.
Qed.

Section WithRuntime.

Variable float_repr : Q -> string.
Variable int_of : string -> option Z.
Variable float_of : string -> option Q.
Variable date_ordinal : string -> option Z.

Abbreviation rating_of_row := (Cbbdata.rating_of_row float_repr int_of float_of).
Abbreviation group_row := (Cbbdata.group_row float_repr int_of float_of).
Abbreviation group := (Cbbdata.group float_repr int_of float_of).
Abbreviation written_ratings :=
  (SnapshotDefs.written_ratings float_repr int_of float_of).
Abbreviation season_date := (SnapshotDefs.season_date float_repr int_of float_of).
Abbreviation rating_on := (SnapshotDefs.rating_on float_repr int_of float_of).
Abbreviation days_between := (Cbbdata.days_between date_ordinal).
Abbreviation sample_step := (Cbbdata.sample_step date_ordinal).
Abbreviation sample := (Cbbdata.sample date_ordinal).
Abbreviation far := (SnapshotDefs.far date_ordinal).
Abbreviation near := (SnapshotDefs.near date_ordinal).
Abbreviation build_pit_snapshots :=
  (Cbbdata.build_pit_snapshots float_repr int_of float_of date_ordinal).

(** *** The grouping loop *)

Lemma written_ratings_snoc (l : list dict) (row : dict)
    (r : option (string * json * rating)) :
  rating_of_row row = Ok r ->
  written_ratings (l ++ [row])
    = (written_ratings l ++ match r with Some e => [e] | None => [] end)%list.
Proof.
  intros Hr. unfold SnapshotDefs.written_ratings.
  rewrite omap_app. cbn [omap list_omap]. rewrite Hr.
  destruct r; reflexivity.
Qed.

Lemma group_inv (records : list dict) (by_date : by_date_map) :
  group records = Ok by_date ->
  (forall d k, (by_date !! d ≫= fun m => m !! k) = rating_on records d k) /\
  (forall d, is_Some (by_date !! d) <->
             exists e, e ∈ written_ratings records /\ e.1.1 = d) /\
  (forall d m, by_date !! d = Some m -> m <> ∅) /\
  Forall (fun row => exists r, rating_of_row row = Ok r) records.
Proof.
  unfold Cbbdata.group.
  apply (for_each_inv _
    (fun l (m : by_date_map) =>
       (forall d k, (m !! d ≫= fun i => i !! k) = rating_on l d k) /\
       (forall d, is_Some (m !! d) <->
                  exists e, e ∈ written_ratings l /\ e.1.1 = d) /\
       (forall d i, m !! d = Some i -> i <> ∅) /\
       Forall (fun row => exists r, rating_of_row row = Ok r) l)).
  - repeat split.
    + intros [x Hx]. rewrite lookup_empty in Hx. discriminate.
    + intros (e & He & _). apply elem_of_nil in He. contradiction.
    + intros d i. rewrite lookup_empty. discriminate.
    + constructor.
  - intros l row m m' (IHv & IHk & IHne & IHok). unfold Cbbdata.group_row.
    destruct (rating_of_row row) as [r|] eqn:Hr; [|discriminate].
    rewrite bind_Ok.
    assert (Forall (fun row => exists r, rating_of_row row = Ok r)
              (l ++ [row])) as Hok.
    { apply Forall_app. split; [exact IHok|]. constructor; [eauto|constructor]. }
    unfold SnapshotDefs.rating_on in *.
    rewrite (written_ratings_snoc l row r Hr).
    destruct r as [[[d0 team] entry]|]; intros [= <-].
    + repeat split; [| | | |exact Hok].
      * intros d k. rewrite list.filter_app, filter_cons, filter_nil.
        cbn [fst snd]. destruct (decide (d0 = d)) as [-> | Hd].
        -- rewrite lookup_insert_eq. cbn.
           destruct (decide (key_of team = k)) as [-> | Hk].
           ++ rewrite lookup_insert_eq.
              rewrite decide_True by auto. rewrite last_snoc. reflexivity.
           ++ rewrite lookup_insert_ne by exact Hk.
              rewrite decide_False by (intros [_ ?]; contradiction).
              rewrite app_nil_r. rewrite <- (IHv d k).
              destruct (m !! d); reflexivity.
        -- rewrite lookup_insert_ne by exact Hd.
           rewrite decide_False by (intros [? _]; contradiction).
           rewrite app_nil_r. apply IHv.
      * intros Hsome. destruct (decide (d0 = d)) as [-> | Hd].
        -- exists (d, team, entry). split; [|reflexivity].
           apply elem_of_app. right. apply list_elem_of_here.
        -- rewrite lookup_insert_ne in Hsome by exact Hd.
           apply IHk in Hsome as (e & He & Hed).
           exists e. split; [|exact Hed]. apply elem_of_app. auto.
      * intros (e & He & Hed). destruct (decide (d0 = d)) as [-> | Hd].
        -- rewrite lookup_insert_eq. eauto.
        -- rewrite lookup_insert_ne by exact Hd. apply IHk.
           apply elem_of_app in He as [He | He]; [eauto|].
           apply list_elem_of_singleton in He. subst e. cbn in Hed.
           contradiction.
      * intros d i. destruct (decide (d0 = d)) as [-> | Hd].
        -- rewrite lookup_insert_eq. intros [= <-]. apply insert_non_empty.
        -- rewrite lookup_insert_ne by exact Hd. apply IHne.
    + rewrite app_nil_r. repeat split; try assumption; apply IHk.
Qed.



Lemma season_date_iff (records : list dict) (by_date : by_date_map)
    (d : string) :
  group records = Ok by_date ->
  d ∈ all_dates by_date <-> season_date records d.
Proof.
  intros Hg. destruct (group_inv _ _ Hg) as (_ & Hk & _).
  rewrite all_dates_elem, Hk. reflexivity.
Qed.


(** *** The sampling loop *)

(** An iteration of the sampling loop either passes over the date, which
    is then less than a week after the last date kept and is not the final
    one, or keeps it. *)
Lemma sample_step_inv (by_date : by_date_map) (final : string)
    (st st' : list snapshot * string) (date_str : string) :
  sample_step by_date final st date_str = Ok st' ->
  (st' = st /\ snd st <> "" /\ near (snd st) date_str /\ date_str <> final) \/
  (exists rt,
     by_date !! date_str = Some rt /\
     st' = ((fst st ++ [Snapshot date_str (-1) (size rt) rt])%list, date_str) /\
     (snd st = "" \/ date_str = final \/ far (snd st) date_str)).
Proof.
  unfold Cbbdata.sample_step.
  assert (forall close : bool,
            (close = true -> snd st <> "" /\ near (snd st) date_str) ->
            (close = false -> snd st = "" \/ far (snd st) date_str) ->
            (if close && negb (String.eqb date_str final) then Ok st
             else match by_date !! date_str with
                  | Some rt =>
                      Ok ((fst st ++ [Snapshot date_str (-1) (size rt) rt])%list,
                          date_str)
                  | None => Raise KeyError
                  end) = Ok st' ->
            (st' = st /\ snd st <> "" /\ near (snd st) date_str
             /\ date_str <> final) \/
            (exists rt,
               by_date !! date_str = Some rt /\
               st' = ((fst st ++ [Snapshot date_str (-1) (size rt) rt])%list,
                      date_str) /\
               (snd st = "" \/ date_str = final \/ far (snd st) date_str)))
    as Hrest.
  { intros close Htrue Hfalse.
    destruct close; cbn [andb].
    - destruct (String.eqb_spec date_str final) as [-> | Hne]; cbn [negb].
      + destruct (by_date !! final) as [rt|]; [|discriminate].
        intros [= <-]. right. exists rt. auto.
      + intros [= <-]. left. destruct (Htrue eq_refl). auto.
    - destruct (by_date !! date_str) as [rt|]; [|discriminate].
      intros [= <-]. right. exists rt. repeat split.
      destruct (Hfalse eq_refl); auto. }
  destruct (String.eqb_spec (snd st) "") as [Hempty | Hlast]; cbn [negb].
  - rewrite bind_Ok. apply Hrest; [discriminate | auto].
  - destruct (days_between (snd st) date_str) as [n|] eqn:Hn; [|discriminate].
    rewrite !bind_Ok. apply Hrest.
    + intros Hlt. apply Z.ltb_lt in Hlt. split; [exact Hlast|].
      exists n. auto.
    + intros Hge. apply Z.ltb_ge in Hge. right. exists n. auto.
Qed.

Lemma sample_inv (by_date : by_date_map) (final : string)
    (dates : list string) (st : list snapshot * string) :
  sample by_date final dates = Ok st ->
  snd st = default "" (list.last (date <$> fst st)) /\
  (date <$> fst st) `sublist_of` dates /\
  head (date <$> fst st) = head dates /\
  (forall pre, dates = (pre ++ [final])%list ->
               list.last (date <$> fst st) = Some final) /\
  (forall l1 a b l2, date <$> fst st = (l1 ++ a :: b :: l2)%list ->
                     a = "" \/ b = final \/ far a b) /\
  (forall d, d ∈ dates ->
             d ∈ date <$> fst st \/
             exists a, a ∈ date <$> fst st /\ near a d) /\
  Forall (fun s => by_date !! date s = Some (ratings s) /\
                   teamCount s = size (ratings s) /\ alpha s = (-1)%Z) (fst st).
Proof.
  unfold Cbbdata.sample.
  apply (for_each_inv _
    (fun l (st : list snapshot * string) =>
       snd st = default "" (list.last (date <$> fst st)) /\
       (date <$> fst st) `sublist_of` l /\
       head (date <$> fst st) = head l /\
       (forall pre, l = (pre ++ [final])%list ->
                    list.last (date <$> fst st) = Some final) /\
       (forall l1 a b l2, date <$> fst st = (l1 ++ a :: b :: l2)%list ->
                          a = "" \/ b = final \/ far a b) /\
       (forall d, d ∈ l ->
                  d ∈ date <$> fst st \/
                  exists a, a ∈ date <$> fst st /\ near a d) /\
       Forall (fun s => by_date !! date s = Some (ratings s) /\
                        teamCount s = size (ratings s) /\ alpha s = (-1)%Z)
              (fst st))).
  - cbn. repeat split.
    + constructor.
    + intros pre H. destruct pre; discriminate.
    + intros l1 a b l2 H. destruct l1; discriminate.
    + intros d Hd. apply elem_of_nil in Hd. contradiction.
    + constructor.
  - intros l x st0 st1 (Hlast & Hsub & Hhead & Hfinal & Hchain & Hcover & Hall)
           Hstep.
    apply sample_step_inv in Hstep
      as [(-> & Hne & Hnear & Hxf) | (rt & Hrt & -> & Hwhy)].
    + assert (exists y, list.last (date <$> fst st0) = Some y /\ snd st0 = y)
        as (y & Hy & Hsy).
      { rewrite Hlast in Hne |- *.
        destruct (list.last (date <$> fst st0)) as [y|]; [eauto|].
        cbn in Hne. contradiction. }
      repeat split.
      * exact Hlast.
      * apply sublist_inserts_r. exact Hsub.
      * rewrite head_snoc, <- Hhead.
        destruct (date <$> fst st0); [discriminate Hy | reflexivity].
      * intros pre Hpre. apply app_inj_tail in Hpre as [_ ->]. contradiction.
      * exact Hchain.
      * intros d Hd. apply elem_of_app in Hd as [Hd | Hd]; [auto|].
        apply list_elem_of_singleton in Hd as ->. right.
        exists (snd st0). split; [|exact Hnear].
        rewrite Hsy. apply last_Some_elem_of. exact Hy.
      * exact Hall.
    + cbn [fst snd]. rewrite fmap_app. cbn [fmap list_fmap date].
      repeat split.
      * rewrite last_snoc. reflexivity.
      * apply sublist_app; [exact Hsub | reflexivity].
      * rewrite !head_snoc, Hhead. reflexivity.
      * intros pre Hpre. apply app_inj_tail in Hpre as [_ ->].
        apply last_snoc.
      * intros l1 a b l2 Heq.
        destruct l2 as [|y l2 _] using rev_ind.
        -- change (l1 ++ [a; b])%list with (l1 ++ [a] ++ [b])%list in Heq.
           rewrite app_assoc in Heq.
           apply app_inj_tail in Heq as [Heq <-].
           rewrite Heq, last_snoc in Hlast. cbn in Hlast.
           rewrite Hlast in Hwhy. exact Hwhy.
        -- change (l1 ++ a :: b :: l2 ++ [y])%list
             with (l1 ++ (a :: b :: l2) ++ [y])%list in Heq.
           rewrite app_assoc in Heq.
           apply app_inj_tail in Heq as [Heq _].
           exact (Hchain _ _ _ _ Heq).
      * intros d Hd. apply elem_of_app in Hd as [Hd | Hd].
        -- destruct (Hcover d Hd) as [Hin | (a & Hin & Ha)].
           ++ left. apply elem_of_app. auto.
           ++ right. exists a. split; [apply elem_of_app; auto | exact Ha].
        -- left. apply elem_of_app. auto.
      * apply Forall_app. split; [exact Hall|].
        constructor; [|constructor]. cbn. auto.
Qed.

(** What a normal end of [build_pit_snapshots] consists of. *)
Lemma build_inv (records : list dict) (snaps : list snapshot) :
  build_pit_snapshots records = inr snaps ->
  exists by_date final st,
    group records = Ok by_date /\
    list.last (all_dates by_date) = Some final /\
    sample by_date final (all_dates by_date) = Ok st /\
    snaps = fst st.
Proof.
  unfold Cbbdata.build_pit_snapshots.
  destruct (group records) as [by_date|] eqn:Hg; [|discriminate].
  destruct (list.last (all_dates by_date)) as [final|] eqn:Hl; [|discriminate].
  destruct (Cbbdata.sample _ _ _ _) as [st|] eqn:Hs; [|discriminate].
  intros [= <-]. eauto 10.
Qed.

(** X29. The weekly sample of [build_pit_snapshots]: the first snapshot
    is of the earliest date of the season and the last of the latest; two
    consecutive snapshots are a week or more apart, unless the second is
    the last one (or the first has the empty string for date); and every
    date of the season that is left out is less than a week from a date
    that is kept. *)
Theorem weekly_sampling (records : list dict) (snaps : list snapshot) :
  build_pit_snapshots records = inr snaps ->
  (exists first final,
     head (date <$> snaps) = Some first /\
     list.last (date <$> snaps) = Some final /\
     season_date records first /\ season_date records final /\
     forall d, season_date records d -> str_le first d /\ str_le d final) /\
  (forall l1 a b l2, date <$> snaps = (l1 ++ a :: b :: l2)%list ->
     a = "" \/ list.last (date <$> snaps) = Some b \/ far a b) /\
  (forall d, season_date records d ->
     d ∈ date <$> snaps \/ exists a, a ∈ date <$> snaps /\ near a d).
Proof.
  intros Hbuild.
  destruct (build_inv _ _ Hbuild) as (by_date & final & st & Hg & Hl & Hs & ->).
  destruct (sample_inv _ _ _ _ Hs)
    as (_ & Hsub & Hhead & Hfinal & Hchain & Hcover & _).
  assert (list.last (date <$> fst st) = Some final) as Hlast.
  { apply last_Some in Hl as [pre Hpre]. exact (Hfinal pre Hpre). }
  destruct (head (all_dates by_date)) as [first|] eqn:Hfirst.
  2: { destruct (all_dates by_date); discriminate. }
  assert (first ∈ all_dates by_date) as Hfin
    by (destruct (all_dates by_date); [discriminate|];
        injection Hfirst as ->; apply list_elem_of_here).
  split; [|split].
  - exists first, final. rewrite Hhead.
    split; [reflexivity|]. split; [exact Hlast|].
    split; [|split].
    + apply (season_date_iff _ _ _ Hg). exact Hfin.
    + apply (season_date_iff _ _ _ Hg). apply last_Some_elem_of. exact Hl.
    + intros d Hd. apply (season_date_iff _ _ _ Hg) in Hd.
      exact (sorted_ends _ _ _ _ (all_dates_sorted by_date) Hfirst Hl Hd).
  - intros l1 a b l2 Heq.
    destruct (Hchain _ _ _ _ Heq) as [? | [-> | ?]]; auto.
  - intros d Hd. apply Hcover. apply (season_date_iff _ _ _ Hg). exact Hd.
Qed.

(** X30. What a snapshot holds: the snapshots come in strictly increasing
    order of date, each is of a date of the season, is marked [alpha = -1],
    holds for each team the rating written by the last row of the archive
    for that date and team, and counts its teams, of which there is at
    least one. *)
Theorem snapshot_contents (records : list dict) (snaps : list snapshot) :
  build_pit_snapshots records = inr snaps ->
  StronglySorted str_lt (date <$> snaps) /\
  Forall (fun s =>
            season_date records (date s) /\
            alpha s = (-1)%Z /\
            teamCount s = size (ratings s) /\ (0 < teamCount s)%nat /\
            forall k, ratings s !! k = rating_on records (date s) k)
         snaps.
Proof.
  intros Hbuild.
  destruct (build_inv _ _ Hbuild) as (by_date & final & st & Hg & Hl & Hs & ->).
  destruct (sample_inv _ _ _ _ Hs) as (_ & Hsub & _ & _ & _ & _ & Hall).
  destruct (group_inv _ _ Hg) as (Hval & _ & Hne & _).
  split.
  - exact (StronglySorted_sublist _ _ _ Hsub (all_dates_sorted by_date)).
  - apply list.Forall_forall. intros s Hin.
    destruct (proj1 (list.Forall_forall _ _) Hall s Hin) as (Hr & Hc & Ha).
    split; [|split; [|split; [|split]]].
    + apply (season_date_iff _ _ _ Hg).
      apply (elem_of_sublist _ _ _ (list_elem_of_fmap_2 date _ _ Hin) Hsub).
    + exact Ha.
    + exact Hc.
    + rewrite Hc. pose proof (Hne _ _ Hr) as Hnon.
      apply map_size_non_empty_iff in Hnon. lia.
    + intros k. rewrite <- (Hval (date s) k), Hr. reflexivity.
Qed.

End WithRuntime.

Abbreviation build :=
  (Cbbdata.build_pit_snapshots Parse.decimal_repr Parse.decimal_int
     Parse.decimal_float iso_ordinal).


(** An empty archive and an archive after the season end the same way. *)
Example nothing_in_season :
  build [] = inl IndexError /\
  build [duke_row "2025-05-01" 1] = inl IndexError.
Proof. split; vm_compute; reflexivity. Qed.

(** The archive of the examples: the date two days after the first is
    left out, the date a day after the third is kept because it is the
    last, the date in May is no date of the season, and the row that comes
    first in the feed is third by date. *)
Example archive_snapshots :
  match build archive with
  | inr snaps =>
      Some (map (fun s => (date s, teamCount s,
                           (fun r => (RankAdjEM r, Wins r, Losses r))
                             <$> (ratings s !! KStr "Duke"))) snaps)
  | inl _ => None
  end
  = Some [ ("2024-11-04", 1%nat, Some (3%Z, 35%Z, 4%Z));
           ("2024-11-12", 1%nat, Some (1%Z, 35%Z, 4%Z));
           ("2024-11-13", 1%nat, Some (1%Z, 35%Z, 4%Z)) ].
Proof. vm_compute. reflexivity. Qed.

Lemma archive_built : exists snaps, build archive = inr snaps.
Proof. apply RunFacts.computed_inr. vm_compute. exact I. Qed.

Lemma weekly_sampling_witness :
  exists snaps,
    build archive = inr snaps /\
    (exists first final,
       head (date <$> snaps) = Some first /\
       list.last (date <$> snaps) = Some final /\
       SnapshotDefs.season_date Parse.decimal_repr Parse.decimal_int
         Parse.decimal_float archive first /\
       SnapshotDefs.season_date Parse.decimal_repr Parse.decimal_int
         Parse.decimal_float archive final /\
       forall d,
         SnapshotDefs.season_date Parse.decimal_repr Parse.decimal_int
           Parse.decimal_float archive d ->
         str_le first d /\ str_le d final) /\
    (forall l1 a b l2, date <$> snaps = (l1 ++ a :: b :: l2)%list ->
       a = "" \/ list.last (date <$> snaps) = Some b
       \/ SnapshotDefs.far iso_ordinal a b) /\
    (forall d,
       SnapshotDefs.season_date Parse.decimal_repr Parse.decimal_int
         Parse.decimal_float archive d ->
       d ∈ date <$> snaps \/
       exists a, a ∈ date <$> snaps /\ SnapshotDefs.near iso_ordinal a d).
Proof.
  destruct archive_built as [snaps E].
  exists snaps. split; [exact E|].
  exact (weekly_sampling _ _ _ _ _ _ E).
Defined.

Lemma snapshot_contents_witness :
  exists snaps,
    build archive = inr snaps /\
    StronglySorted str_lt (date <$> snaps) /\
    Forall (fun s =>
              SnapshotDefs.season_date Parse.decimal_repr Parse.decimal_int
                Parse.decimal_float archive (date s) /\
              alpha s = (-1)%Z /\
              teamCount s = size (ratings s) /\ (0 < teamCount s)%nat /\
              forall k,
                ratings s !! k =
                  SnapshotDefs.rating_on Parse.decimal_repr Parse.decimal_int
                    Parse.decimal_float archive (date s) k)
           snaps.
Proof.
  destruct archive_built as [snaps E].
  exists snaps. split; [exact E|].
  exact (snapshot_contents _ _ _ _ _ _ E).
Defined.

End Snapshots.
